(** * kosyncsrv: a reading-progress synchronisation server

    A shallow embedding of [kosyncsrv.go] (the gin handlers and middleware)
    and of its storage file (the sqlite tables [user] and [document] and the
    functions [getDBUser], [addDBUser], [getDBPosition], [existDoc] and
    [updateDBdocument]).

    Go strings are byte strings: [string].  [int], [int64]: [Z] (no
    arithmetic is performed on them apart from decimal conversion, which is
    range-checked).  A [float64] is only ever copied, never computed with.

    The database is shared by all requests.  Every database/sql statement is
    one atomic step; a function of the program is a tree of such steps
    ([proc]), so that the same definition can be run to completion (one
    request at a time) or interleaved with another request. *)

From Stdlib Require Import ZArith String Ascii List Bool Lia.
Import ListNotations.

Open Scope string_scope.
Open Scope Z_scope.

(** ** Library functions used by the program *)

Module strings.

(** [strings.HasPrefix(s, prefix)] *)
Fixpoint HasPrefix (s prefix : string) {struct prefix} : bool :=
  match prefix with
  | EmptyString => true
  | String p prefix' =>
      match s with
      | EmptyString => false
      | String c s' => Ascii.eqb c p && HasPrefix s' prefix'
      end
  end.

(** [strings.Contains(s, substr)]: [substr] occurs in [s] at some offset. *)
Fixpoint Contains (s substr : string) : bool :=
  HasPrefix s substr
  || match s with
     | EmptyString => false
     | String _ s' => Contains s' substr
     end.

End strings.

Module strconv.

Definition digit_char (d : Z) : ascii := ascii_of_nat (Z.to_nat (48 + d)).

Definition digit_value (c : ascii) : option Z :=
  let n := Z.of_nat (nat_of_ascii c) in
  if (48 <=? n) && (n <=? 57) then Some (n - 48) else None.

(** The digit loop of [formatBits]: least significant digit first,
    prepended to the buffer, until the quotient is below 10. *)
Fixpoint format_digits (fuel : nat) (n : Z) (buf : string) : string :=
  let buf' := String (digit_char (n mod 10)) buf in
  match fuel with
  | O => buf'
  | S fuel' => if n <? 10 then buf' else format_digits fuel' (n / 10) buf'
  end.

(** Enough iterations for every digit of [n]. *)
Definition digits_bound (n : Z) : nat := Z.to_nat (Z.log2 n).

Definition format_uint (n : Z) : string := format_digits (digits_bound n) n "".

(** [strconv.Itoa(i)] *)
Definition Itoa (i : Z) : string :=
  if i <? 0 then String "-" (format_uint (- i)) else format_uint i.

Fixpoint parse_digits (s : string) (acc : Z) : option Z :=
  match s with
  | EmptyString => Some acc
  | String c s' =>
      match digit_value c with
      | Some d => parse_digits s' (10 * acc + d)
      | None => None
      end
  end.

Definition parse_unsigned (s : string) : option Z :=
  match s with
  | EmptyString => None
  | _ => parse_digits s 0
  end.

Definition minInt64 : Z := - 2 ^ 63.
Definition maxInt64 : Z := 2 ^ 63 - 1.

(** [strconv.ParseInt(s, 10, 64)]: optional sign, at least one decimal
    digit, nothing else, and the value within the 64-bit range; [None]
    is a syntax or range error. *)
Definition ParseInt (s : string) : option Z :=
  match s with
  | EmptyString => None
  | String c s' =>
      let neg := Ascii.eqb c "-" in
      let digits := if neg || Ascii.eqb c "+" then s' else s in
      match parse_unsigned digits with
      | None => None
      | Some n =>
          let v := if neg then - n else n in
          if (minInt64 <=? v) && (v <=? maxInt64) then Some v else None
      end
  end.

End strconv.

(** ** Wire values

    The JSON value found on the wire for one field.  A number keeps its
    literal text (the decoder hands exactly that text to [ParseInt]); the
    contents of arrays and objects are irrelevant to every decoder below. *)

Inductive json : Type :=
| JNull
| JBool (b : bool)
| JNumber (literal : string)
| JString (s : string)
| JArray
| JObject.

Module json_pkg.

(** [json.Unmarshal(b, &i)] for [var i int] (64-bit): [None] is an error,
    otherwise the new value of [i].  [null] leaves a primitive untouched. *)
Definition Unmarshal_int (b : json) (i : Z) : option Z :=
  match b with
  | JNull => Some i
  | JNumber literal => strconv.ParseInt literal
  | _ => None
  end.

(** [json.Unmarshal(b, &ss)] for [var ss string]. *)
Definition Unmarshal_string (b : json) (ss : string) : option string :=
  match b with
  | JNull => Some ss
  | JString s => Some s
  | _ => None
  end.

(** [json.Marshal(s)] for a string [s]. *)
Definition Marshal_string (s : string) : json := JString s.

End json_pkg.

(** ** Data model *)

(** A [float64], by its 64-bit pattern; the program stores and returns it
    and nothing else. *)
Definition float64 : Type := Z.

Module requestUser.
Record t : Type := { Username : string; Password : string }.
End requestUser.

Module requestHeader.
Record t : Type := { Accept : string; AuthUser : string; AuthKey : string }.
End requestHeader.

(** [stringOrInt]: progress arrives as a string or as an int. *)
Module stringOrInt.
Record t : Type := { inner : string }.

Definition MarshalJSON (s : t) : json := json_pkg.Marshal_string (inner s).

Definition UnmarshalJSON (b : json) : option t :=
  match json_pkg.Unmarshal_int b 0 with
  | Some i => Some {| inner := strconv.Itoa i |}
  | None =>
      match json_pkg.Unmarshal_string b "" with
      | Some ss => Some {| inner := ss |}
      | None => None
      end
  end.
End stringOrInt.

Module requestPosition.
Record t : Type :=
  { Timestamp : Z;
    DocumentID : string;
    Progress : stringOrInt.t;
    Device : string;
    Percentage : float64;
    DeviceID : string }.
End requestPosition.

Module replyPosition.
Record t : Type := { Timestamp : Z; DocumentID : string }.
End replyPosition.

Module errorResponse.
Record t : Type := { Status : Z; Code : Z; Message : string }.
End errorResponse.

Module http.
Definition StatusOK : Z := 200.
Definition StatusCreated : Z := 201.
Definition StatusBadRequest : Z := 400.
Definition StatusUnauthorized : Z := 401.
Definition StatusForbidden : Z := 403.
Definition StatusPreconditionFailed : Z := 412.
Definition StatusInternalServerError : Z := 500.
End http.

Definition mkError (status code : Z) (message : string) : errorResponse.t :=
  {| errorResponse.Status := status;
     errorResponse.Code := code;
     errorResponse.Message := message |}.

Definition InvalidHeader := mkError http.StatusBadRequest 100 "Invalid Header".
Definition InvalidAcceptHeader :=
  mkError http.StatusPreconditionFailed 101 "Invalid Accept header format.".
Definition UnknownServerError :=
  mkError http.StatusInternalServerError 500 "Unknown server error.".
Definition Unauthorized := mkError http.StatusUnauthorized 2001 "Unauthorized".
Definition UsernameAlreadyRegistered :=
  mkError http.StatusForbidden 2002 "Username is already registered.".
Definition InvalidRequest := mkError http.StatusForbidden 2003 "Invalid Request".
Definition DocumentIdNotProvided :=
  mkError http.StatusForbidden 2004 "Field 'document' not provided.".

(** ** The two tables *)

Module dbUser.
Record t : Type := { Username : string; Password : string }.
End dbUser.

Module dbDocument.
Record t : Type :=
  { Username : string;
    DocumentID : string;
    Percentage : float64;
    Progress : string;
    Device : string;
    DeviceID : string;
    Timestamp : Z }.
End dbDocument.

(** The schema declares no key and no index: a table is a sequence of rows,
    in insertion (rowid) order, and may hold duplicates. *)
Record DB : Type := { user : list dbUser.t; document : list dbDocument.t }.

(** [initDB] on a fresh file: both tables created empty. *)
Definition initDB : DB := {| user := []; document := [] |}.

(** ** SQL statements

    Text columns compare bytewise (sqlite's default BINARY collation). *)

Module sql.

(** [SELECT * FROM user WHERE username=$1] *)
Definition select_user (d : DB) (username : string) : list dbUser.t :=
  filter (fun r => String.eqb (dbUser.Username r) username) (user d).

(** [INSERT INTO user (username, password) VALUES ($1, $2)] *)
Definition insert_user (d : DB) (username password : string) : DB :=
  {| user := user d ++ [ {| dbUser.Username := username;
                            dbUser.Password := password |} ];
     document := document d |}.

Definition document_key (username documentid : string) (r : dbDocument.t)
  : bool :=
  String.eqb (dbDocument.Username r) username
  && String.eqb (dbDocument.DocumentID r) documentid.

(** [SELECT * FROM document WHERE username=$1 AND documentid=$2] *)
Definition select_document (d : DB) (username documentid : string)
  : list dbDocument.t :=
  filter (document_key username documentid) (document d).

(** [ORDER BY timestamp DESC]; SQL leaves the order of equal timestamps
    open, the sort below keeps such rows in rowid order. *)
Fixpoint insert_desc (r : dbDocument.t) (l : list dbDocument.t)
  : list dbDocument.t :=
  match l with
  | [] => [r]
  | x :: l' =>
      if dbDocument.Timestamp x <=? dbDocument.Timestamp r
      then r :: l
      else x :: insert_desc r l'
  end.

Definition order_by_timestamp_desc (l : list dbDocument.t)
  : list dbDocument.t :=
  fold_right insert_desc [] l.

(** The SET clause of the UPDATE below, on one row. *)
Definition set_columns (perc : float64) (prog device devid : string)
           (time : Z) (r : dbDocument.t) : dbDocument.t :=
  {| dbDocument.Username := dbDocument.Username r;
     dbDocument.DocumentID := dbDocument.DocumentID r;
     dbDocument.Percentage := perc;
     dbDocument.Progress := prog;
     dbDocument.Device := device;
     dbDocument.DeviceID := devid;
     dbDocument.Timestamp := time |}.

(** [UPDATE document set percentage=:perc, progress=:prog, device=:device,
    device_id=:devid, timestamp=:time WHERE username=:user AND
    documentid=:docid]: every matching row is rewritten in place. *)
Definition update_document (d : DB) (perc : float64)
           (prog device devid : string) (time : Z) (usr docid : string)
  : DB :=
  {| user := user d;
     document :=
       map (fun r =>
              if document_key usr docid r
              then set_columns perc prog device devid time r
              else r)
           (document d) |}.

(** [INSERT INTO document (username, documentid, percentage, progress,
    device, device_id, timestamp) VALUES (...)] *)
Definition insert_document (d : DB) (usr docid : string) (perc : float64)
           (prog dev devid : string) (time : Z) : DB :=
  {| user := user d;
     document :=
       document d ++ [ {| dbDocument.Username := usr;
                          dbDocument.DocumentID := docid;
                          dbDocument.Percentage := perc;
                          dbDocument.Progress := prog;
                          dbDocument.Device := dev;
                          dbDocument.DeviceID := devid;
                          dbDocument.Timestamp := time |} ] |}.

End sql.

(** ** Atomic steps and their results *)

(** What [db.Get] reports: the first row of the result, [sql.ErrNoRows]
    when the result is empty, or another error of the storage layer. *)
Inductive get_result (A : Type) : Type :=
| GotRow (row : A)
| ErrNoRows
| GetFailed.
Arguments GotRow {A} row.
Arguments ErrNoRows {A}.
Arguments GetFailed {A}.

Inductive exec_result : Type :=
| ExecOk
| ExecFailed.

(** The calls a request makes to the outside: the clock and the database.
    [tx_insert_user] is the transaction of [addDBUser] (MustBegin, MustExec,
    Commit), taken as one atomic statement; its failure is the failure of
    MustBegin or MustExec (the result of Commit is dropped by [addDBUser]).
    Lines written with [log.Println] are not part of the model. *)
Inductive call : Type -> Type :=
| time_Now_Unix : call Z
| get_user (username : string) : call (get_result dbUser.t)
| tx_insert_user (username password : string) : call exec_result
| get_document (username documentid : string) : call (get_result dbDocument.t)
| get_document_latest (username documentid : string)
  : call (get_result dbDocument.t)
| exec_update_document (perc : float64) (prog device devid : string)
                       (time : Z) (usr docid : string) : call exec_result
| exec_insert_document (usr docid : string) (perc : float64)
                       (prog dev devid : string) (time : Z) : call exec_result.

Definition Get {A : Type} (rows : list A) : get_result A :=
  match rows with
  | [] => ErrNoRows
  | row :: _ => GotRow row
  end.

(** One call against the shared database.  [now] is the clock reading of
    the request; [fault] says that the storage layer fails on this
    statement (file unreadable, disk full, database locked, ...). *)
Definition perform {A : Type} (c : call A) (now : Z) (fault : bool) (d : DB)
  : A * DB :=
  match c in call T return T * DB with
  | time_Now_Unix => (now, d)
  | get_user username =>
      (if fault then GetFailed else Get (sql.select_user d username), d)
  | tx_insert_user username password =>
      if fault then (ExecFailed, d)
      else (ExecOk, sql.insert_user d username password)
  | get_document username documentid =>
      (if fault then GetFailed
       else Get (sql.select_document d username documentid), d)
  | get_document_latest username documentid =>
      (if fault then GetFailed
       else Get (sql.order_by_timestamp_desc
                   (sql.select_document d username documentid)), d)
  | exec_update_document perc prog device devid time usr docid =>
      if fault then (ExecFailed, d)
      else (ExecOk, sql.update_document d perc prog device devid time usr docid)
  | exec_insert_document usr docid perc prog dev devid time =>
      if fault then (ExecFailed, d)
      else (ExecOk, sql.insert_document d usr docid perc prog dev devid time)
  end.

(** Database statements take the next fault flag; the clock takes none. *)
Definition touches_storage {A : Type} (c : call A) : bool :=
  match c with
  | time_Now_Unix => false
  | _ => true
  end.

(** ** Programs *)

Inductive proc (R : Type) : Type :=
| Ret (r : R)
| Call {A : Type} (c : call A) (k : A -> proc R)
| log_Fatalln        (* logs and calls os.Exit(1) *)
| panic.             (* the Must* helpers of sqlx panic on an error *)
Arguments Ret {R} r.
Arguments Call {R A} c k.
Arguments log_Fatalln {R}.
Arguments panic {R}.

Fixpoint bind {A B : Type} (p : proc A) (f : A -> proc B) : proc B :=
  match p with
  | Ret a => f a
  | Call c k => Call c (fun x => bind (k x) f)
  | log_Fatalln => log_Fatalln
  | panic => panic
  end.

Notation "x <- p ;; q" := (bind p (fun x => q))
  (at level 61, p at next level, right associativity).
Notation "' pat <- p ;; q" := (bind p (fun x => match x with pat => q end))
  (at level 61, pat pattern, p at next level, right associativity).

Definition do_call {A : Type} (c : call A) : proc A := Call c Ret.

(** How a program ends. *)
Inductive outcome (R : Type) : Type :=
| Returned (r : R)
| Exited             (* the process is gone *)
| Panicked.          (* the goroutine unwinds *)
Arguments Returned {R} r.
Arguments Exited {R}.
Arguments Panicked {R}.

(** The fault flags of a request, one per database statement in the order
    the statements are issued; when the list runs out the storage works. *)
Definition next_fault (faults : list bool) : bool * list bool :=
  match faults with
  | [] => (false, [])
  | f :: faults' => (f, faults')
  end.

Definition perform_next {A : Type} (c : call A) (now : Z)
           (faults : list bool) (d : DB) : A * list bool * DB :=
  if touches_storage c
  then let '(f, faults') := next_fault faults in
       let '(a, d') := perform c now f d in (a, faults', d')
  else let '(a, d') := perform c now false d in (a, faults, d').

(** Running a program to its end, alone on the database. *)
Fixpoint run {R : Type} (p : proc R) (now : Z) (faults : list bool) (d : DB)
  : outcome R * DB :=
  match p with
  | Ret r => (Returned r, d)
  | Call c k =>
      let '(a, faults', d') := perform_next c now faults d in
      run (k a) now faults' d'
  | log_Fatalln => (Exited, d)
  | panic => (Panicked, d)
  end.

(** ** Two requests at once

    A thread is a program with its own clock reading and fault flags; a
    schedule names, step by step, the thread that performs its next call. *)

Record thread (R : Type) : Type :=
  { code : proc R; clock : Z; flags : list bool }.
Arguments code {R} t.
Arguments clock {R} t.
Arguments flags {R} t.

Definition step {R : Type} (t : thread R) (d : DB) : thread R * DB :=
  match code t with
  | Call c k =>
      let '(a, faults', d') := perform_next c (clock t) (flags t) d in
      ({| code := k a; clock := clock t; flags := faults' |}, d')
  | _ => (t, d)
  end.

Definition finish {R : Type} (t : thread R) (d : DB) : outcome R * DB :=
  run (code t) (clock t) (flags t) d.

Inductive turn : Type := First | Second.

(** Follow the schedule; when it ends the first thread runs to its end,
    then the second.  Each thread is taken to its own end: this describes
    the runs in which no thread reaches [log_Fatalln]; when one does, the
    process is gone and the other request is not served any further. *)
Fixpoint interleave {R : Type} (schedule : list turn) (t1 t2 : thread R)
         (d : DB) : outcome R * outcome R * DB :=
  match schedule with
  | [] =>
      let '(o1, d1) := finish t1 d in
      let '(o2, d2) := finish t2 d1 in
      (o1, o2, d2)
  | First :: schedule' =>
      let '(t1', d') := step t1 d in interleave schedule' t1' t2 d'
  | Second :: schedule' =>
      let '(t2', d') := step t2 d in interleave schedule' t1 t2' d'
  end.

(** ** The storage functions *)

(** The Go [error] values the program tells apart. *)
Inductive error : Type :=
| sql_ErrNoRows
| storage_error.

Definition zero_dbUser : dbUser.t :=
  {| dbUser.Username := ""; dbUser.Password := "" |}.

Definition zero_requestPosition : requestPosition.t :=
  {| requestPosition.Timestamp := 0;
     requestPosition.DocumentID := "";
     requestPosition.Progress := {| stringOrInt.inner := "" |};
     requestPosition.Device := "";
     requestPosition.Percentage := 0;
     requestPosition.DeviceID := "" |}.

(** [getDBUser]: the row and the flag [norows]; the error is logged. *)
Definition getDBUser (username : string) : proc (dbUser.t * bool) :=
  r <- do_call (get_user username) ;;
  match r with
  | GotRow result => Ret (result, false)
  | ErrNoRows => Ret (zero_dbUser, true)
  | GetFailed => Ret (zero_dbUser, false)
  end.

Definition addDBUser (username password : string) : proc bool :=
  ' (_, norows) <- getDBUser username ;;
  if norows : bool
  then r <- do_call (tx_insert_user username password) ;;
       match r with
       | ExecOk => Ret true
       | ExecFailed => panic
       end
  else Ret false.

Definition getDBPosition (username documentid : string)
  : proc (requestPosition.t * option error) :=
  r <- do_call (get_document_latest username documentid) ;;
  match r with
  | ErrNoRows => Ret (zero_requestPosition, Some sql_ErrNoRows)
  | GetFailed => Ret (zero_requestPosition, Some storage_error)
  | GotRow resultDBdoc =>
      Ret ({| requestPosition.Timestamp := dbDocument.Timestamp resultDBdoc;
              requestPosition.DocumentID := documentid;
              requestPosition.Progress :=
                {| stringOrInt.inner := dbDocument.Progress resultDBdoc |};
              requestPosition.Device := dbDocument.Device resultDBdoc;
              requestPosition.Percentage := dbDocument.Percentage resultDBdoc;
              requestPosition.DeviceID := dbDocument.DeviceID resultDBdoc |},
           None)
  end.

Definition existDoc (username docid : string) : proc bool :=
  r <- do_call (get_document username docid) ;;
  match r with
  | GotRow _ => Ret true
  | ErrNoRows => Ret false
  | GetFailed => Ret true
  end.

Definition updateDBdocument (username : string) (rPos : requestPosition.t)
  : proc Z :=
  nowtime <- do_call time_Now_Unix ;;
  exists_ <- existDoc username (requestPosition.DocumentID rPos) ;;
  if exists_ : bool
  then r <- do_call (exec_update_document
                       (requestPosition.Percentage rPos)
                       (stringOrInt.inner (requestPosition.Progress rPos))
                       (requestPosition.Device rPos)
                       (requestPosition.DeviceID rPos)
                       nowtime
                       username
                       (requestPosition.DocumentID rPos)) ;;
       match r with
       | ExecFailed => log_Fatalln
       | ExecOk => Ret nowtime
       end
  else r <- do_call (exec_insert_document
                       username
                       (requestPosition.DocumentID rPos)
                       (requestPosition.Percentage rPos)
                       (stringOrInt.inner (requestPosition.Progress rPos))
                       (requestPosition.Device rPos)
                       (requestPosition.DeviceID rPos)
                       nowtime) ;;
       match r with
       | ExecFailed => log_Fatalln
       | ExecOk => Ret nowtime
       end.

(** ** Request bodies and response bodies *)

(** The body of a push as the JSON decoder sees it: a field that is absent
    keeps its zero value; [progress] is the raw value, if the key is there. *)
Module positionBody.
Record t : Type :=
  { timestamp : Z;
    document : string;
    progress : option json;
    device : string;
    percentage : float64;
    device_id : string }.
End positionBody.

(** [c.ShouldBindJSON(&rPosition)]; a body that is [None] is not a JSON
    object of the expected field types.  [None] is the bind error. *)
Definition ShouldBindJSON_requestPosition (body : option positionBody.t)
  : option requestPosition.t :=
  match body with
  | None => None
  | Some b =>
      let decoded :=
        match positionBody.progress b with
        | None => Some {| stringOrInt.inner := "" |}
        | Some v => stringOrInt.UnmarshalJSON v
        end in
      match decoded with
      | None => None
      | Some p =>
          Some {| requestPosition.Timestamp := positionBody.timestamp b;
                  requestPosition.DocumentID := positionBody.document b;
                  requestPosition.Progress := p;
                  requestPosition.Device := positionBody.device b;
                  requestPosition.Percentage := positionBody.percentage b;
                  requestPosition.DeviceID := positionBody.device_id b |}
      end
  end.

(** The JSON object written for a [requestPosition]. *)
Module positionJSON.
Record t : Type :=
  { timestamp : Z;
    document : string;
    progress : json;
    device : string;
    percentage : float64;
    device_id : string }.
End positionJSON.

Definition Marshal_requestPosition (p : requestPosition.t) : positionJSON.t :=
  {| positionJSON.timestamp := requestPosition.Timestamp p;
     positionJSON.document := requestPosition.DocumentID p;
     positionJSON.progress :=
       stringOrInt.MarshalJSON (requestPosition.Progress p);
     positionJSON.device := requestPosition.Device p;
     positionJSON.percentage := requestPosition.Percentage p;
     positionJSON.device_id := requestPosition.DeviceID p |}.

(** Response bodies. *)
Inductive H : Type :=
| H_username (username : string)          (* {"username": ...} *)
| H_authorized_OK                         (* {"authorized": "OK"} *)
| H_state_OK                              (* {"state": "OK"} *)
| H_empty                                 (* struct{}{}: {} *)
| H_position (position : positionJSON.t)
| H_reply (reply : replyPosition.t)       (* {"timestamp", "document"} *)
| H_error (code : Z) (message : string)   (* {"code", "message"} *)
| H_none.                                 (* no body *)

(** What a handler leaves in the gin context: a JSON response, or the
    error recorded with [c.Error]. *)
Inductive gin_result : Type :=
| c_JSON (code : Z) (obj : H)
| c_Error (err : errorResponse.t).

(** ** Handlers and middleware *)

Definition validKeyField (field : string) : bool :=
  (0 <? Z.of_nat (String.length field)) && negb (strings.Contains field ":").

Definition register (body : option requestUser.t) : proc gin_result :=
  match body with
  | None => Ret (c_Error InvalidRequest)
  | Some rUser =>
      if String.eqb (requestUser.Username rUser) ""
         || String.eqb (requestUser.Password rUser) ""
      then Ret (c_Error InvalidRequest)
      else
        added <- addDBUser (requestUser.Username rUser)
                           (requestUser.Password rUser) ;;
        if negb added
        then Ret (c_Error UsernameAlreadyRegistered)
        else Ret (c_JSON http.StatusCreated
                         (H_username (requestUser.Username rUser)))
  end.

Definition authorize : proc gin_result := Ret (c_JSON 200 H_authorized_OK).

(** [rDocid] binds the path parameter with [binding:"required"]. *)
Definition ShouldBindUri_requestDocid (document : string) : option string :=
  if String.eqb document "" then None else Some document.

Definition getProgress (header : requestHeader.t) (document : string)
  : proc gin_result :=
  let username := requestHeader.AuthUser header in
  match ShouldBindUri_requestDocid document with
  | None => Ret (c_Error UnknownServerError)
  | Some DocumentID =>
      ' (position, err) <- getDBPosition username DocumentID ;;
      match err with
      | Some _ => Ret (c_JSON http.StatusOK H_empty)
      | None =>
          Ret (c_JSON http.StatusOK
                      (H_position (Marshal_requestPosition position)))
      end
  end.

Definition updateProgress (header : requestHeader.t)
           (body : option positionBody.t) : proc gin_result :=
  let username := requestHeader.AuthUser header in
  match ShouldBindJSON_requestPosition body with
  | None => Ret (c_Error InvalidRequest)
  | Some rPosition =>
      if negb (validKeyField (requestPosition.DocumentID rPosition))
      then Ret (c_Error DocumentIdNotProvided)
      else if String.eqb (stringOrInt.inner
                            (requestPosition.Progress rPosition)) ""
              || String.eqb (requestPosition.Device rPosition) ""
      then Ret (c_Error InvalidRequest)
      else
        updatetime <- updateDBdocument username rPosition ;;
        Ret (c_JSON http.StatusOK
                    (H_reply
                       {| replyPosition.Timestamp := updatetime;
                          replyPosition.DocumentID :=
                            requestPosition.DocumentID rPosition |}))
  end.

(** [header] is [None] when the headers cannot be bound. *)
Definition AcceptHeaderCheck (header : option requestHeader.t)
           (next : requestHeader.t -> proc gin_result) : proc gin_result :=
  match header with
  | None => Ret (c_Error InvalidHeader)
  | Some header =>
      if String.eqb (requestHeader.Accept header)
                    "application/vnd.koreader.v1+json"
      then next header
      else Ret (c_Error InvalidAcceptHeader)
  end.

Definition AuthRequired (header : requestHeader.t) (next : proc gin_result)
  : proc gin_result :=
  if validKeyField (requestHeader.AuthUser header)
     && (0 <? Z.of_nat (String.length (requestHeader.AuthKey header)))
  then
    ' (dUser, norows) <- getDBUser (requestHeader.AuthUser header) ;;
    if negb norows
       && String.eqb (requestHeader.AuthKey header) (dbUser.Password dUser)
    then next
    else Ret (c_Error Unauthorized)
  else Ret (c_Error Unauthorized).

(** [ErrorHandler] runs after the rest of the chain and turns the recorded
    error into a response. *)
Definition ErrorHandler (r : gin_result) : Z * H :=
  match r with
  | c_JSON code obj => (code, obj)
  | c_Error err =>
      (errorResponse.Status err,
       H_error (errorResponse.Code err) (errorResponse.Message err))
  end.

(** ** The router *)

Inductive request : Type :=
| GET_healthcheck
| POST_users_create (body : option requestUser.t)
| GET_users_auth
| GET_syncs_progress (document : string)
| PUT_syncs_progress (body : option positionBody.t).

Definition route (r : request) (header : requestHeader.t) : proc gin_result :=
  match r with
  | GET_healthcheck => Ret (c_JSON http.StatusOK H_state_OK)
  | POST_users_create body => register body
  | GET_users_auth => AuthRequired header authorize
  | GET_syncs_progress document =>
      AuthRequired header (getProgress header document)
  | PUT_syncs_progress body =>
      AuthRequired header (updateProgress header body)
  end.

Definition handle (header : option requestHeader.t) (r : request)
  : proc gin_result :=
  AcceptHeaderCheck header (route r).

(** What the client of one request observes. *)
Inductive served : Type :=
| Responded (status : Z) (body : H)
| ProcessExited.

(** gin's Recovery middleware answers a panic with status 500. *)
Definition respond (o : outcome gin_result) : served :=
  match o with
  | Returned r => let '(status, body) := ErrorHandler r in Responded status body
  | Panicked => Responded http.StatusInternalServerError H_none
  | Exited => ProcessExited
  end.

(** One request served alone: the clock reading [now], the fault flags of
    its database statements, the database before; the response and the
    database after. *)
Definition serve (header : option requestHeader.t) (r : request)
           (now : Z) (faults : list bool) (d : DB) : served * DB :=
  let '(o, d') := run (handle header r) now faults d in (respond o, d').

(** A sequence of requests served one after the other.  When the process
    exits nothing more is served. *)
Record arrival : Type :=
  { a_header : option requestHeader.t;
    a_request : request;
    a_now : Z;
    a_faults : list bool }.

Fixpoint serve_all (l : list arrival) (d : DB) : list served * DB :=
  match l with
  | [] => ([], d)
  | a :: l' =>
      let '(s, d') := serve (a_header a) (a_request a) (a_now a) (a_faults a) d in
      match s with
      | ProcessExited => ([s], d')
      | Responded _ _ =>
          let '(ss, d'') := serve_all l' d' in (s :: ss, d'')
      end
  end.

(** ** Derived views of the program, used to state and prove its properties *)

Definition first_fault (faults : list bool) : bool := fst (next_fault faults).
Definition rest_faults (faults : list bool) : list bool :=
  snd (next_fault faults).

(** [run], keeping the fault flags that are left. *)
Fixpoint exec {R : Type} (p : proc R) (now : Z) (faults : list bool) (d : DB)
  : outcome R * list bool * DB :=
  match p with
  | Ret r => (Returned r, faults, d)
  | Call c k =>
      let '(a, faults', d') := perform_next c now faults d in
      exec (k a) now faults' d'
  | log_Fatalln => (Exited, faults, d)
  | panic => (Panicked, faults, d)
  end.

(** What [getDBUser] returns. *)
Definition getDBUser_result (fault : bool) (d : DB) (username : string)
  : dbUser.t * bool :=
  if fault then (zero_dbUser, false)
  else match sql.select_user d username with
       | [] => (zero_dbUser, true)
       | result :: _ => (result, false)
       end.

(** The decision of the authentication gate. *)
Definition gate (header : requestHeader.t) (faults : list bool) (d : DB)
  : bool :=
  validKeyField (requestHeader.AuthUser header)
  && (0 <? Z.of_nat (String.length (requestHeader.AuthKey header)))
  && (negb (snd (getDBUser_result (first_fault faults) d
                                  (requestHeader.AuthUser header)))
      && String.eqb (requestHeader.AuthKey header)
           (dbUser.Password
              (fst (getDBUser_result (first_fault faults) d
                                     (requestHeader.AuthUser header))))).

(** What [existDoc] returns. *)
Definition existDoc_result (fault : bool) (d : DB) (username docid : string)
  : bool :=
  if fault then true
  else match sql.select_document d username docid with
       | [] => false
       | _ :: _ => true
       end.

(** The table after the write of [updateDBdocument]. *)
Definition written (exists_ : bool) (d : DB) (username : string)
           (rPos : requestPosition.t) (nowtime : Z) : DB :=
  if exists_
  then sql.update_document d
         (requestPosition.Percentage rPos)
         (stringOrInt.inner (requestPosition.Progress rPos))
         (requestPosition.Device rPos)
         (requestPosition.DeviceID rPos)
         nowtime username (requestPosition.DocumentID rPos)
  else sql.insert_document d username
         (requestPosition.DocumentID rPos)
         (requestPosition.Percentage rPos)
         (stringOrInt.inner (requestPosition.Progress rPos))
         (requestPosition.Device rPos)
         (requestPosition.DeviceID rPos)
         nowtime.

(** What [getDBPosition] hands to [getProgress]. *)
Definition position_of (documentid : string) (row : dbDocument.t)
  : requestPosition.t :=
  {| requestPosition.Timestamp := dbDocument.Timestamp row;
     requestPosition.DocumentID := documentid;
     requestPosition.Progress :=
       {| stringOrInt.inner := dbDocument.Progress row |};
     requestPosition.Device := dbDocument.Device row;
     requestPosition.Percentage := dbDocument.Percentage row;
     requestPosition.DeviceID := dbDocument.DeviceID row |}.

(** The content-negotiation check of [AcceptHeaderCheck]. *)
Definition accepts (header : requestHeader.t) : bool :=
  String.eqb (requestHeader.Accept header) "application/vnd.koreader.v1+json".

(** The routes registered in the group behind [AuthRequired]. *)
Definition protected (r : request) : bool :=
  match r with
  | GET_users_auth | GET_syncs_progress _ | PUT_syncs_progress _ => true
  | GET_healthcheck | POST_users_create _ => false
  end.

(** The row a push of [rPos] by [username] at [nowtime] leaves for its key. *)
Definition pushed_row (username : string) (rPos : requestPosition.t)
           (nowtime : Z) : dbDocument.t :=
  {| dbDocument.Username := username;
     dbDocument.DocumentID := requestPosition.DocumentID rPos;
     dbDocument.Percentage := requestPosition.Percentage rPos;
     dbDocument.Progress := stringOrInt.inner (requestPosition.Progress rPos);
     dbDocument.Device := requestPosition.Device rPos;
     dbDocument.DeviceID := requestPosition.DeviceID rPos;
     dbDocument.Timestamp := nowtime |}.

(** The invariants of the two stores. *)
Definition one_row_per_key (d : DB) : Prop :=
  forall username documentid,
    (List.length (sql.select_document d username documentid) <= 1)%nat.

Definition one_row_per_user (d : DB) : Prop :=
  forall username, (List.length (sql.select_user d username) <= 1)%nat.

(** The ways one request served alone can change the database. *)
Inductive db_step (d : DB) : DB -> Prop :=
| step_none : db_step d d
| step_insert_user (username password : string) :
    sql.select_user d username = [] ->
    db_step d (sql.insert_user d username password)
| step_update_document (perc : float64) (prog device devid : string)
                       (time : Z) (usr docid : string) :
    db_step d (sql.update_document d perc prog device devid time usr docid)
| step_insert_document (usr docid : string) (perc : float64)
                       (prog dev devid : string) (time : Z) :
    sql.select_document d usr docid = [] ->
    db_step d (sql.insert_document d usr docid perc prog dev devid time).

(** The answer of [updateProgress] behind the gate, [faults] being the flags
    left after the gate's query. *)
Definition updateProgress_served (header : requestHeader.t)
           (body : option positionBody.t) (now : Z) (faults : list bool)
           (d : DB) : served * DB :=
  match ShouldBindJSON_requestPosition body with
  | None => (Responded 403 (H_error 2003 "Invalid Request"), d)
  | Some rPosition =>
      if negb (validKeyField (requestPosition.DocumentID rPosition))
      then (Responded 403 (H_error 2004 "Field 'document' not provided."), d)
      else if String.eqb (stringOrInt.inner
                            (requestPosition.Progress rPosition)) ""
              || String.eqb (requestPosition.Device rPosition) ""
      then (Responded 403 (H_error 2003 "Invalid Request"), d)
      else if first_fault (rest_faults faults)
      then (ProcessExited, d)
      else (Responded 200
              (H_reply {| replyPosition.Timestamp := now;
                          replyPosition.DocumentID :=
                            requestPosition.DocumentID rPosition |}),
            written (existDoc_result (first_fault faults) d
                       (requestHeader.AuthUser header)
                       (requestPosition.DocumentID rPosition))
                    d (requestHeader.AuthUser header) rPosition now)
  end.

(** The answer of [getProgress] behind the gate. *)
Definition getProgress_served (header : requestHeader.t) (document : string)
           (faults : list bool) (d : DB) : served :=
  Responded 200
    (if first_fault faults then H_empty
     else match sql.order_by_timestamp_desc
                  (sql.select_document d (requestHeader.AuthUser header)
                                       document)
          with
          | [] => H_empty
          | row :: _ =>
              H_position (Marshal_requestPosition (position_of document row))
          end).

(** The answer of [register] to a body that binds. *)
Definition register_served (rUser : requestUser.t) (faults : list bool)
           (d : DB) : served * DB :=
  if String.eqb (requestUser.Username rUser) ""
     || String.eqb (requestUser.Password rUser) ""
  then (Responded 403 (H_error 2003 "Invalid Request"), d)
  else if snd (getDBUser_result (first_fault faults) d
                                (requestUser.Username rUser))
  then if first_fault (rest_faults faults)
       then (Responded 500 H_none, d)
       else (Responded 201 (H_username (requestUser.Username rUser)),
             sql.insert_user d (requestUser.Username rUser)
                             (requestUser.Password rUser))
  else (Responded 403 (H_error 2002 "Username is already registered."), d).

(** The response to a request the gate turns away. *)
Definition Unauthorized_response : served :=
  Responded 401 (H_error 2001 "Unauthorized").

(** The credentials in [header] are accepted: the probe [GET /users/auth]
    is acknowledged. *)
Definition passes_gate (header : requestHeader.t) (faults : list bool)
           (d : DB) : Prop :=
  serve (Some header) GET_users_auth 0 faults d
  = (Responded 200 H_authorized_OK, d).

(** The same push body with another client-side timestamp. *)
Definition with_timestamp (b : positionBody.t) (timestamp : Z)
  : positionBody.t :=
  {| positionBody.timestamp := timestamp;
     positionBody.document := positionBody.document b;
     positionBody.progress := positionBody.progress b;
     positionBody.device := positionBody.device b;
     positionBody.percentage := positionBody.percentage b;
     positionBody.device_id := positionBody.device_id b |}.

(** The databases the server can reach from a fresh file, serving one
    request after the other. *)
Definition reached (history : list arrival) : DB :=
  snd (serve_all history initDB).

(** The arrival is a push for the key (username, documentid). *)
Definition pushes_key (username documentid : string) (a : arrival) : Prop :=
  match a_header a, a_request a with
  | Some header, PUT_syncs_progress (Some b) =>
      requestHeader.AuthUser header = username
      /\ positionBody.document b = documentid
  | _, _ => False
  end.

(** A request as a thread, with a healthy storage. *)
Definition thread_of (header : requestHeader.t) (r : request) (now : Z)
  : thread gin_result :=
  {| code := handle (Some header) r; clock := now; flags := [] |}.

(** ** Sample requests *)

Definition headers (username key : string) : requestHeader.t :=
  {| requestHeader.Accept := "application/vnd.koreader.v1+json";
     requestHeader.AuthUser := username;
     requestHeader.AuthKey := key |}.

Definition register_request (username password : string) : request :=
  POST_users_create (Some {| requestUser.Username := username;
                             requestUser.Password := password |}).

Definition push_body (documentid : string) (progress : json)
           (device : string) (percentage : float64) : positionBody.t :=
  {| positionBody.timestamp := 0;
     positionBody.document := documentid;
     positionBody.progress := Some progress;
     positionBody.device := device;
     positionBody.percentage := percentage;
     positionBody.device_id := device |}.

Definition arrives (header : requestHeader.t) (r : request) (now : Z)
  : arrival :=
  {| a_header := Some header; a_request := r; a_now := now; a_faults := [] |}.

(** alice has registered with the password s3cret. *)
Definition alice_registered : list arrival :=
  [ arrives (headers "" "") (register_request "alice" "s3cret") 1 ].

(** ... and has pushed a position for bookA from her phone. *)
Definition alice_pushed : list arrival :=
  alice_registered
  ++ [ arrives (headers "alice" "s3cret")
               (PUT_syncs_progress
                  (Some (push_body "bookA" (JString "10") "phone" 25)))
               100 ].

(** ** Further views, for the properties of the whole server *)

From Stdlib Require Import Sorting.Sorted Sorting.Permutation.

(** The error values declared by the program. *)
Definition declared_errors : list errorResponse.t :=
  [ InvalidHeader; InvalidAcceptHeader; UnknownServerError; Unauthorized;
    UsernameAlreadyRegistered; InvalidRequest; DocumentIdNotProvided ].

(** Rows as the handlers let them into the tables: credentials with a
    username and a password, positions with valid key fields, a progress, a
    device, and an owner who has a credential row. *)
Definition well_formed (d : DB) : Prop :=
  (forall cred, In cred (user d) ->
                dbUser.Username cred <> "" /\ dbUser.Password cred <> "")
  /\ (forall row, In row (document d) ->
                  validKeyField (dbDocument.Username row) = true
                  /\ validKeyField (dbDocument.DocumentID row) = true
                  /\ dbDocument.Progress row <> ""
                  /\ dbDocument.Device row <> ""
                  /\ exists cred, In cred (user d)
                                  /\ dbUser.Username cred
                                     = dbDocument.Username row).

(** Descending order of timestamps. *)
Definition newer_first (x y : dbDocument.t) : Prop :=
  dbDocument.Timestamp y <= dbDocument.Timestamp x.

(** From [d] to [d'] no credential row was rewritten or removed and no key
    lost a position row. *)
Definition never_shrinks (d d' : DB) : Prop :=
  (exists more, user d' = (user d ++ more)%list)
  /\ forall username documentid,
      (List.length (sql.select_document d username documentid)
       <= List.length (sql.select_document d' username documentid))%nat.

(** A program all of whose calls satisfy [P]. *)
Inductive confined {R : Type} (P : forall A : Type, call A -> Prop)
  : proc R -> Prop :=
| confined_Ret (r : R) : confined P (Ret r)
| confined_Call {A : Type} (c : call A) (k : A -> proc R) :
    P A c -> (forall a, confined P (k a)) -> confined P (Call c k)
| confined_Fatalln : confined P log_Fatalln
| confined_panic : confined P panic.

(** The calls of a request behind the gate made by [username] about the
    document [documentid]: they read the credential of [username] and read
    or write the position rows of (username, documentid), nothing else. *)
Definition within (username documentid : string) (A : Type) (c : call A)
  : Prop :=
  match c with
  | time_Now_Unix => True
  | get_user u => u = username
  | tx_insert_user _ _ => False
  | get_document u doc | get_document_latest u doc =>
      u = username /\ doc = documentid
  | exec_update_document _ _ _ _ _ u doc
  | exec_insert_document u doc _ _ _ _ _ =>
      u = username /\ doc = documentid
  end.

(** The calls that leave the credential of [username] and the rows of
    (username, documentid) alone. *)
Definition spares (username documentid : string) (A : Type) (c : call A)
  : Prop :=
  match c with
  | tx_insert_user u _ => u <> username
  | exec_update_document _ _ _ _ _ u doc
  | exec_insert_document u doc _ _ _ _ _ =>
      ~ (u = username /\ doc = documentid)
  | _ => True
  end.

(** Two databases with the same credential rows of [username] and the same
    rows of (username, documentid). *)
Definition agree (username documentid : string) (d d' : DB) : Prop :=
  sql.select_user d username = sql.select_user d' username
  /\ sql.select_document d username documentid
     = sql.select_document d' username documentid.

(** * Properties *)

(** ** Strings and decimal numbers *)

Section StringFacts.

Lemma Contains_colon (s : string) :
  strings.Contains s ":" = true <-> exists n, String.get n s = Some ":"%char.
Proof.
  induction s as [| c s IH]; cbn.
  - split; [discriminate | intros [n Hn]; destruct n; discriminate].
  - rewrite andb_true_r, orb_true_iff, IH. split.
    + intros [Hc | [n Hn]].
      * apply Ascii.eqb_eq in Hc. subst c. now exists 0%nat.
      * now exists (S n).
    + intros [[| n] Hn]; cbn in Hn.
      * left. injection Hn as ->. apply Ascii.eqb_refl.
      * right. now exists n.
Qed.

Lemma length_pos_nonempty (s : string) :
  (0 <? Z.of_nat (String.length s)) = true <-> s <> "".
Proof.
  destruct s; cbn [String.length]; rewrite Z.ltb_lt; split; intros; try easy; lia.
Qed.

Lemma validKeyField_spec (field : string) :
  validKeyField field = true <->
  field <> "" /\ forall n, String.get n field <> Some ":"%char.
Proof.
  unfold validKeyField.
  rewrite andb_true_iff, negb_true_iff, length_pos_nonempty.
  split; intros [Hne Hc]; split; trivial.
  - intros n Hn.
    assert (strings.Contains field ":" = true) as E
      by (apply Contains_colon; now exists n).
    congruence.
  - destruct (strings.Contains field ":") eqn:E; trivial.
    apply Contains_colon in E. destruct E as [n Hn]. now apply Hc in Hn.
Qed.

Lemma eqb_empty_false (s : string) : s <> "" -> String.eqb s "" = false.
Proof. intros. now apply String.eqb_neq. Qed.

End StringFacts.

Section Decimal.

Import strconv.

Lemma digit_cases (d : Z) :
  0 <= d < 10 ->
  d = 0 \/ d = 1 \/ d = 2 \/ d = 3 \/ d = 4 \/
  d = 5 \/ d = 6 \/ d = 7 \/ d = 8 \/ d = 9.
Proof. lia. Qed.

Lemma digit_value_char (d : Z) :
  0 <= d < 10 -> digit_value (digit_char d) = Some d.
Proof.
  intros H. apply digit_cases in H.
  repeat (destruct H as [-> | H]; [reflexivity |]). now subst.
Qed.

Lemma digit_char_not_sign (d : Z) :
  0 <= d < 10 ->
  Ascii.eqb (digit_char d) "-" = false /\ Ascii.eqb (digit_char d) "+" = false.
Proof.
  intros H. apply digit_cases in H.
  repeat (destruct H as [-> | H]; [split; reflexivity |]). now subst.
Qed.

(** Parsing what the digit loop wrote gives the number back, the buffer
    that followed being parsed from there on. *)
Lemma parse_format_digits (fuel : nat) :
  forall n buf,
    0 <= n < 10 * 10 ^ Z.of_nat fuel ->
    parse_digits (format_digits fuel n buf) 0 = parse_digits buf n.
Proof.
  induction fuel as [| fuel IH]; intros n buf Hn.
  - cbn [format_digits parse_digits]. change (10 ^ Z.of_nat 0) with 1 in Hn.
    rewrite Z.mod_small by lia. rewrite digit_value_char by lia.
    f_equal; lia.
  - cbn [format_digits]. destruct (n <? 10) eqn:Hlt.
    + apply Z.ltb_lt in Hlt. cbn [parse_digits].
      rewrite Z.mod_small by lia. rewrite digit_value_char by lia.
      f_equal; lia.
    + apply Z.ltb_ge in Hlt. rewrite IH.
      * cbn [parse_digits].
        rewrite digit_value_char by (apply Z.mod_pos_bound; lia).
        f_equal. pose proof (Z.div_mod n 10). lia.
      * rewrite Nat2Z.inj_succ, Z.pow_succ_r in Hn by lia.
        split; [apply Z.div_pos; lia |].
        apply Z.div_lt_upper_bound; lia.
Qed.

Lemma format_digits_head (fuel : nat) :
  forall n buf,
  exists d s, 0 <= d < 10 /\ format_digits fuel n buf = String (digit_char d) s.
Proof.
  induction fuel as [| fuel IH]; intros n buf; cbn [format_digits].
  - exists (n mod 10), buf. split; [apply Z.mod_pos_bound; lia | reflexivity].
  - destruct (n <? 10).
    + exists (n mod 10), buf. split; [apply Z.mod_pos_bound; lia | reflexivity].
    + apply IH.
Qed.

Lemma digits_bound_enough (n : Z) :
  0 <= n -> n < 10 * 10 ^ Z.of_nat (digits_bound n).
Proof.
  intros Hn. unfold digits_bound.
  rewrite Z2Nat.id by apply Z.log2_nonneg.
  destruct (Z.eq_dec n 0) as [-> | Hnz]; [reflexivity |].
  pose proof (Z.log2_spec n ltac:(lia)) as [_ Hup].
  rewrite Z.pow_succ_r in Hup by apply Z.log2_nonneg.
  pose proof (Z.pow_le_mono_l 2 10 (Z.log2 n) ltac:(lia)).
  lia.
Qed.

Lemma parse_format_uint (n : Z) :
  0 <= n -> parse_unsigned (format_uint n) = Some n.
Proof.
  intros Hn. unfold parse_unsigned, format_uint.
  destruct (format_digits_head (digits_bound n) n "") as (d & s & _ & E).
  rewrite E, <- E.
  rewrite parse_format_digits by (split; [lia | now apply digits_bound_enough]).
  reflexivity.
Qed.

(** [ParseInt] reads back what [Itoa] prints, for every 64-bit integer. *)
Lemma ParseInt_Itoa (i : Z) :
  minInt64 <= i <= maxInt64 -> ParseInt (Itoa i) = Some i.
Proof.
  intros Hr. unfold Itoa. destruct (i <? 0) eqn:Hneg.
  - apply Z.ltb_lt in Hneg. unfold ParseInt.
    change (Ascii.eqb "-" "-") with true. cbn [orb].
    rewrite parse_format_uint by lia.
    rewrite Z.opp_involutive.
    replace ((minInt64 <=? i) && (i <=? maxInt64)) with true; trivial.
    symmetry. apply andb_true_iff. split; apply Z.leb_le; lia.
  - apply Z.ltb_ge in Hneg.
    pose proof (parse_format_uint i Hneg) as Hp. unfold format_uint in *.
    destruct (format_digits_head (digits_bound i) i "") as (d & s & Hd & E).
    rewrite E in *. unfold ParseInt.
    destruct (digit_char_not_sign d Hd) as [-> ->]. cbn [orb].
    rewrite Hp.
    replace ((minInt64 <=? i) && (i <=? maxInt64)) with true; trivial.
    symmetry. apply andb_true_iff. split; apply Z.leb_le; lia.
Qed.

(** A numeric progress value decodes to its decimal text. *)
Lemma UnmarshalJSON_number (i : Z) :
  minInt64 <= i <= maxInt64 ->
  stringOrInt.UnmarshalJSON (JNumber (Itoa i))
  = Some {| stringOrInt.inner := Itoa i |}.
Proof.
  intros Hr. unfold stringOrInt.UnmarshalJSON, json_pkg.Unmarshal_int.
  now rewrite ParseInt_Itoa.
Qed.

Lemma UnmarshalJSON_string (s : string) :
  stringOrInt.UnmarshalJSON (JString s) = Some {| stringOrInt.inner := s |}.
Proof. reflexivity. Qed.

End Decimal.

(** ** Running the storage functions *)

Section Running.

Lemma next_fault_eta (faults : list bool) :
  next_fault faults = (first_fault faults, rest_faults faults).
Proof. now destruct faults. Qed.

Lemma run_exec {R : Type} (p : proc R) :
  forall now faults d,
    run p now faults d
    = (fst (fst (exec p now faults d)), snd (exec p now faults d)).
Proof.
  induction p as [r | A c k IH | |]; intros now faults d; cbn [run exec];
    trivial.
  destruct (perform_next c now faults d) as [[a faults'] d']. apply IH.
Qed.

Lemma exec_bind {A B : Type} (p : proc A) (f : A -> proc B) :
  forall now faults d,
    exec (bind p f) now faults d
    = match exec p now faults d with
      | (Returned a, faults', d') => exec (f a) now faults' d'
      | (Exited, faults', d') => (Exited, faults', d')
      | (Panicked, faults', d') => (Panicked, faults', d')
      end.
Proof.
  induction p as [r | X c k IH | |]; intros now faults d; cbn [bind exec];
    trivial.
  destruct (perform_next c now faults d) as [[a faults'] d']. apply IH.
Qed.

Lemma run_bind {A B : Type} (p : proc A) (f : A -> proc B)
      (now : Z) (faults : list bool) (d : DB) :
  run (bind p f) now faults d
  = match exec p now faults d with
    | (Returned a, faults', d') => run (f a) now faults' d'
    | (Exited, _, d') => (Exited, d')
    | (Panicked, _, d') => (Panicked, d')
    end.
Proof.
  rewrite run_exec, exec_bind.
  destruct (exec p now faults d) as [[[a | |] faults'] d']; trivial.
  now rewrite run_exec.
Qed.

Lemma exec_storage_call {A : Type} (c : call A)
      (now : Z) (faults : list bool) (d : DB) :
  touches_storage c = true ->
  exec (do_call c) now faults d
  = (Returned (fst (perform c now (first_fault faults) d)),
     rest_faults faults,
     snd (perform c now (first_fault faults) d)).
Proof.
  intros Hc. unfold do_call. cbn [exec]. unfold perform_next.
  rewrite Hc, next_fault_eta.
  now destruct (perform c now (first_fault faults) d).
Qed.

Lemma exec_getDBUser (username : string) (now : Z) (faults : list bool)
      (d : DB) :
  exec (getDBUser username) now faults d
  = (Returned (getDBUser_result (first_fault faults) d username),
     rest_faults faults, d).
Proof.
  unfold getDBUser. rewrite exec_bind, exec_storage_call by reflexivity.
  unfold getDBUser_result. cbn [perform fst snd].
  destruct (first_fault faults); trivial.
  now destruct (sql.select_user d username).
Qed.

Lemma run_AuthRequired (header : requestHeader.t) (next : proc gin_result)
      (now : Z) (faults : list bool) (d : DB) :
  run (AuthRequired header next) now faults d
  = if gate header faults d
    then run next now (rest_faults faults) d
    else (Returned (c_Error Unauthorized), d).
Proof.
  unfold AuthRequired, gate.
  destruct (validKeyField _ && (0 <? _)); cbn [andb]; trivial.
  rewrite run_bind, exec_getDBUser.
  destruct (getDBUser_result _ d _) as [dUser norows]. cbn [fst snd].
  now destruct (negb norows && _).
Qed.

(** The gate reads the table [user] only. *)
Lemma gate_user_table (header : requestHeader.t) (faults : list bool)
      (d d' : DB) :
  user d' = user d -> gate header faults d' = gate header faults d.
Proof.
  intros E. unfold gate, getDBUser_result, sql.select_user. now rewrite E.
Qed.

Lemma exec_existDoc (username docid : string) (now : Z)
      (faults : list bool) (d : DB) :
  exec (existDoc username docid) now faults d
  = (Returned (existDoc_result (first_fault faults) d username docid),
     rest_faults faults, d).
Proof.
  unfold existDoc. rewrite exec_bind, exec_storage_call by reflexivity.
  unfold existDoc_result. cbn [perform fst snd].
  destruct (first_fault faults); trivial.
  now destruct (sql.select_document d username docid).
Qed.

Lemma exec_updateDBdocument (username : string) (rPos : requestPosition.t)
      (now : Z) (faults : list bool) (d : DB) :
  exec (updateDBdocument username rPos) now faults d
  = if first_fault (rest_faults faults)
    then (Exited, rest_faults (rest_faults faults), d)
    else (Returned now, rest_faults (rest_faults faults),
          written (existDoc_result (first_fault faults) d username
                     (requestPosition.DocumentID rPos))
                  d username rPos now).
Proof.
  unfold updateDBdocument. rewrite exec_bind.
  change (exec (do_call time_Now_Unix) now faults d)
    with (Returned now, faults, d).
  cbn iota. rewrite exec_bind, exec_existDoc. cbn iota. unfold written.
  destruct (existDoc_result _ _ _ _);
    rewrite exec_bind, exec_storage_call by reflexivity;
    cbn [perform fst snd];
    destruct (first_fault (rest_faults faults)); reflexivity.
Qed.

Lemma run_getProgress (header : requestHeader.t) (document : string)
      (now : Z) (faults : list bool) (d : DB) :
  document <> "" ->
  run (getProgress header document) now faults d
  = (Returned
       (c_JSON http.StatusOK
          (if first_fault faults then H_empty
           else match sql.order_by_timestamp_desc
                        (sql.select_document
                           d (requestHeader.AuthUser header) document)
                with
                | [] => H_empty
                | row :: _ =>
                    H_position
                      (Marshal_requestPosition (position_of document row))
                end)), d).
Proof.
  intros Hdoc. unfold getProgress, ShouldBindUri_requestDocid.
  rewrite eqb_empty_false by assumption.
  unfold getDBPosition. rewrite run_bind, exec_bind.
  rewrite exec_storage_call by reflexivity. cbn [perform fst snd].
  destruct (first_fault faults); trivial.
  now destruct (sql.order_by_timestamp_desc _).
Qed.

Lemma exec_addDBUser (username password : string) (now : Z)
      (faults : list bool) (d : DB) :
  exec (addDBUser username password) now faults d
  = if snd (getDBUser_result (first_fault faults) d username)
    then if first_fault (rest_faults faults)
         then (Panicked, rest_faults (rest_faults faults), d)
         else (Returned true, rest_faults (rest_faults faults),
               sql.insert_user d username password)
    else (Returned false, rest_faults faults, d).
Proof.
  unfold addDBUser. rewrite exec_bind, exec_getDBUser.
  destruct (getDBUser_result _ d username) as [dUser norows]. cbn [fst snd].
  destruct norows; trivial.
  rewrite exec_bind, exec_storage_call by reflexivity. cbn [perform].
  now destruct (first_fault (rest_faults faults)).
Qed.

End Running.

(** ** The tables under the SQL statements *)

Section Tables.

Lemma document_key_true (username documentid : string) (r : dbDocument.t) :
  sql.document_key username documentid r = true <->
  dbDocument.Username r = username /\ dbDocument.DocumentID r = documentid.
Proof.
  unfold sql.document_key.
  now rewrite andb_true_iff, !String.eqb_eq.
Qed.

Lemma document_key_set_columns (username documentid : string)
      (perc : float64) (prog device devid : string) (time : Z)
      (r : dbDocument.t) :
  sql.document_key username documentid
                   (sql.set_columns perc prog device devid time r)
  = sql.document_key username documentid r.
Proof. reflexivity. Qed.

Lemma filter_map_stable {A : Type} (p : A -> bool) (f : A -> A) (l : list A) :
  (forall x, p (f x) = p x) -> filter p (map f l) = map f (filter p l).
Proof.
  intros Hp. induction l as [| x l IH]; cbn; trivial.
  rewrite Hp. destruct (p x); cbn; now rewrite IH.
Qed.

(** An UPDATE keeps every row under its key. *)
Lemma select_after_update (d : DB) (perc : float64)
      (prog device devid : string) (time : Z) (usr docid : string)
      (username documentid : string) :
  sql.select_document
    (sql.update_document d perc prog device devid time usr docid)
    username documentid
  = map (fun r => if sql.document_key usr docid r
                  then sql.set_columns perc prog device devid time r
                  else r)
        (sql.select_document d username documentid).
Proof.
  unfold sql.select_document, sql.update_document. cbn [document].
  apply filter_map_stable. intros r.
  destruct (sql.document_key usr docid r); trivial.
Qed.

(** On its own key an UPDATE turns every row into the same new row. *)
Lemma select_after_update_same (d : DB) (perc : float64)
      (prog device devid : string) (time : Z) (usr docid : string) :
  sql.select_document
    (sql.update_document d perc prog device devid time usr docid) usr docid
  = map (fun _ => {| dbDocument.Username := usr;
                     dbDocument.DocumentID := docid;
                     dbDocument.Percentage := perc;
                     dbDocument.Progress := prog;
                     dbDocument.Device := device;
                     dbDocument.DeviceID := devid;
                     dbDocument.Timestamp := time |})
        (sql.select_document d usr docid).
Proof.
  rewrite select_after_update. apply map_ext_in. intros r Hr.
  apply filter_In in Hr. destruct Hr as [_ Hk]. rewrite Hk.
  apply document_key_true in Hk. destruct Hk as [<- <-]. reflexivity.
Qed.

(** On another key it changes nothing. *)
Lemma select_after_update_other (d : DB) (perc : float64)
      (prog device devid : string) (time : Z) (usr docid : string)
      (username documentid : string) :
  (usr, docid) <> (username, documentid) ->
  sql.select_document
    (sql.update_document d perc prog device devid time usr docid)
    username documentid
  = sql.select_document d username documentid.
Proof.
  intros Hne. rewrite select_after_update.
  rewrite <- (map_id (sql.select_document d username documentid)) at 2.
  apply map_ext_in. intros r Hr.
  apply filter_In in Hr. destruct Hr as [_ Hk].
  apply document_key_true in Hk. destruct Hk as [Hu Hd].
  destruct (sql.document_key usr docid r) eqn:E; trivial.
  apply document_key_true in E. destruct E as [Hu' Hd']. congruence.
Qed.

Lemma select_after_insert (d : DB) (usr docid : string) (perc : float64)
      (prog dev devid : string) (time : Z) (username documentid : string) :
  sql.select_document
    (sql.insert_document d usr docid perc prog dev devid time)
    username documentid
  = (sql.select_document d username documentid
     ++ (if String.eqb usr username && String.eqb docid documentid
         then [ {| dbDocument.Username := usr;
                   dbDocument.DocumentID := docid;
                   dbDocument.Percentage := perc;
                   dbDocument.Progress := prog;
                   dbDocument.Device := dev;
                   dbDocument.DeviceID := devid;
                   dbDocument.Timestamp := time |} ]
         else []))%list.
Proof.
  unfold sql.select_document, sql.insert_document. cbn [document].
  rewrite filter_app. f_equal.
Qed.

Lemma select_user_after_insert (d : DB) (usr password username : string) :
  sql.select_user (sql.insert_user d usr password) username
  = (sql.select_user d username
     ++ (if String.eqb usr username
         then [ {| dbUser.Username := usr; dbUser.Password := password |} ]
         else []))%list.
Proof.
  unfold sql.select_user, sql.insert_user. cbn [user].
  rewrite filter_app. f_equal.
Qed.

(** Sorting keeps the rows. *)
Lemma insert_desc_In (r x : dbDocument.t) (l : list dbDocument.t) :
  In x (sql.insert_desc r l) -> x = r \/ In x l.
Proof.
  induction l as [| y l IH]; cbn.
  - intros [<- | []]. now left.
  - destruct (dbDocument.Timestamp y <=? dbDocument.Timestamp r); cbn.
    + intros [<- | [<- | Hin]]; auto.
    + intros [<- | Hin]; auto. destruct (IH Hin); auto.
Qed.

Lemma order_by_In (x : dbDocument.t) (l : list dbDocument.t) :
  In x (sql.order_by_timestamp_desc l) -> In x l.
Proof.
  unfold sql.order_by_timestamp_desc.
  revert x. induction l as [| y l IH]; cbn [fold_right]; intros x Hin; trivial.
  apply insert_desc_In in Hin. destruct Hin as [-> | Hin]; [now left |].
  right. now apply IH.
Qed.

Lemma insert_desc_length (r : dbDocument.t) (l : list dbDocument.t) :
  List.length (sql.insert_desc r l) = S (List.length l).
Proof.
  induction l as [| y l IH]; cbn; trivial.
  destruct (dbDocument.Timestamp y <=? dbDocument.Timestamp r); cbn; auto.
Qed.

Lemma order_by_length (l : list dbDocument.t) :
  List.length (sql.order_by_timestamp_desc l) = List.length l.
Proof.
  unfold sql.order_by_timestamp_desc.
  induction l as [| y l IH]; cbn [fold_right]; trivial.
  now rewrite insert_desc_length, IH.
Qed.

(** The first row in descending timestamp order, when all the rows under
    the key are one and the same row. *)
Lemma order_by_uniform (row : dbDocument.t) (l : list dbDocument.t) :
  l <> [] -> (forall x, In x l -> x = row) ->
  exists rest, sql.order_by_timestamp_desc l = row :: rest.
Proof.
  intros Hne Hall.
  destruct (sql.order_by_timestamp_desc l) as [| x rest] eqn:E.
  - apply (f_equal (@List.length _)) in E. rewrite order_by_length in E.
    destruct l; [congruence | discriminate].
  - exists rest. f_equal. apply Hall, order_by_In. rewrite E. now left.
Qed.

(** Both invariants survive every change a request can make. *)
Lemma db_step_one_row_per_key (d d' : DB) :
  db_step d d' -> one_row_per_key d -> one_row_per_key d'.
Proof.
  intros Hstep Hinv username documentid.
  destruct Hstep as [| u p Hnone | perc prog device devid time usr docid
                     | usr docid perc prog dev devid time Hnone].
  - apply Hinv.
  - apply Hinv.
  - rewrite select_after_update, length_map. apply Hinv.
  - rewrite select_after_insert, length_app.
    destruct (String.eqb usr username && String.eqb docid documentid) eqn:E.
    + apply andb_true_iff in E. destruct E as [Eu Ed].
      apply String.eqb_eq in Eu, Ed. subst. rewrite Hnone. cbn. lia.
    + specialize (Hinv username documentid). cbn. lia.
Qed.

Lemma db_step_one_row_per_user (d d' : DB) :
  db_step d d' -> one_row_per_user d -> one_row_per_user d'.
Proof.
  intros Hstep Hinv username.
  destruct Hstep as [| u p Hnone | perc prog device devid time usr docid
                     | usr docid perc prog dev devid time Hnone].
  - apply Hinv.
  - rewrite select_user_after_insert, length_app.
    destruct (String.eqb u username) eqn:E.
    + apply String.eqb_eq in E. subst. rewrite Hnone. cbn. lia.
    + specialize (Hinv username). cbn. lia.
  - apply Hinv.
  - apply Hinv.
Qed.

Lemma initDB_invariants : one_row_per_key initDB /\ one_row_per_user initDB.
Proof. split; intros ?; intros; cbn; lia. Qed.

End Tables.


(** ** One request *)

Section Serving.

Lemma serve_unbound_header (r : request) (now : Z) (faults : list bool)
      (d : DB) :
  serve None r now faults d = (Responded 400 (H_error 100 "Invalid Header"), d).
Proof. reflexivity. Qed.

Lemma serve_not_accepted (header : requestHeader.t) (r : request) (now : Z)
      (faults : list bool) (d : DB) :
  accepts header = false ->
  serve (Some header) r now faults d
  = (Responded 412 (H_error 101 "Invalid Accept header format."), d).
Proof.
  intros Ha. unfold serve, handle, AcceptHeaderCheck.
  unfold accepts in Ha. now rewrite Ha.
Qed.

Lemma serve_accepted (header : requestHeader.t) (r : request) (now : Z)
      (faults : list bool) (d : DB) :
  accepts header = true ->
  serve (Some header) r now faults d
  = (respond (fst (run (route r header) now faults d)),
     snd (run (route r header) now faults d)).
Proof.
  intros Ha. unfold serve, handle, AcceptHeaderCheck.
  unfold accepts in Ha. rewrite Ha.
  now destruct (run (route r header) now faults d).
Qed.

Lemma serve_unauthorized (header : requestHeader.t) (r : request) (now : Z)
      (faults : list bool) (d : DB) :
  accepts header = true -> protected r = true ->
  gate header faults d = false ->
  serve (Some header) r now faults d = (Unauthorized_response, d).
Proof.
  intros Ha Hp Hg. rewrite serve_accepted by assumption.
  destruct r; try discriminate Hp; cbn [route];
    rewrite run_AuthRequired, Hg; reflexivity.
Qed.

Lemma serve_authorize (header : requestHeader.t) (now : Z)
      (faults : list bool) (d : DB) :
  accepts header = true -> gate header faults d = true ->
  serve (Some header) GET_users_auth now faults d
  = (Responded 200 H_authorized_OK, d).
Proof.
  intros Ha Hg. rewrite serve_accepted by assumption. cbn [route].
  rewrite run_AuthRequired, Hg. reflexivity.
Qed.

Lemma serve_getProgress (header : requestHeader.t) (document : string)
      (now : Z) (faults : list bool) (d : DB) :
  accepts header = true -> gate header faults d = true -> document <> "" ->
  serve (Some header) (GET_syncs_progress document) now faults d
  = (getProgress_served header document (rest_faults faults) d, d).
Proof.
  intros Ha Hg Hdoc. rewrite serve_accepted by assumption. cbn [route].
  rewrite run_AuthRequired, Hg, run_getProgress by assumption. reflexivity.
Qed.

Lemma serve_updateProgress (header : requestHeader.t)
      (body : option positionBody.t) (now : Z) (faults : list bool) (d : DB) :
  accepts header = true -> gate header faults d = true ->
  serve (Some header) (PUT_syncs_progress body) now faults d
  = updateProgress_served header body now (rest_faults faults) d.
Proof.
  intros Ha Hg. rewrite serve_accepted by assumption. cbn [route].
  rewrite run_AuthRequired, Hg.
  unfold updateProgress, updateProgress_served.
  destruct (ShouldBindJSON_requestPosition body) as [rPosition |]; trivial.
  destruct (negb (validKeyField _)); trivial.
  destruct (String.eqb _ "" || String.eqb _ ""); trivial.
  rewrite run_bind, exec_updateDBdocument.
  destruct (first_fault (rest_faults (rest_faults faults))); reflexivity.
Qed.

Lemma serve_register (header : requestHeader.t) (rUser : requestUser.t)
      (now : Z) (faults : list bool) (d : DB) :
  accepts header = true ->
  serve (Some header) (POST_users_create (Some rUser)) now faults d
  = register_served rUser faults d.
Proof.
  intros Ha. rewrite serve_accepted by assumption. cbn [route].
  unfold register, register_served.
  destruct (String.eqb _ "" || String.eqb _ ""); trivial.
  rewrite run_bind, exec_addDBUser.
  destruct (snd (getDBUser_result _ _ _)); trivial.
  destruct (first_fault (rest_faults faults)); reflexivity.
Qed.

(** Whatever the request, the clock and the faults: the database changes
    in one of the four ways of [db_step]. *)
Lemma serve_db_step (header : option requestHeader.t) (r : request)
      (now : Z) (faults : list bool) (d : DB) :
  db_step d (snd (serve header r now faults d)).
Proof.
  destruct header as [header |]; [| rewrite serve_unbound_header; constructor].
  destruct (accepts header) eqn:Ha;
    [| rewrite serve_not_accepted by assumption; constructor].
  destruct r as [| [rUser |] | | document | body].
  - rewrite serve_accepted by assumption. constructor.
  - rewrite serve_register by assumption. unfold register_served.
    destruct (String.eqb _ "" || String.eqb _ ""); [constructor |].
    unfold getDBUser_result.
    destruct (first_fault faults); cbn [snd]; [constructor |].
    destruct (sql.select_user d _) eqn:E; cbn [snd]; [| constructor].
    destruct (first_fault (rest_faults faults)); cbn [snd]; now constructor.
  - rewrite serve_accepted by assumption. constructor.
  - destruct (gate header faults d) eqn:Hg;
      [| rewrite serve_unauthorized by easy; constructor].
    rewrite serve_authorize by assumption. constructor.
  - destruct (gate header faults d) eqn:Hg;
      [| rewrite serve_unauthorized by easy; constructor].
    rewrite serve_accepted by assumption. cbn [route].
    rewrite run_AuthRequired, Hg. unfold getProgress.
    destruct (ShouldBindUri_requestDocid document); [| constructor].
    rewrite run_bind. unfold getDBPosition.
    rewrite exec_bind, exec_storage_call by reflexivity. cbn [perform fst snd].
    destruct (first_fault _); [constructor |].
    destruct (sql.order_by_timestamp_desc _); constructor.
  - destruct (gate header faults d) eqn:Hg;
      [| rewrite serve_unauthorized by easy; constructor].
    rewrite serve_updateProgress by assumption. unfold updateProgress_served.
    destruct (ShouldBindJSON_requestPosition body); [| constructor].
    destruct (negb _); [constructor |].
    destruct (_ || _); [constructor |].
    destruct (first_fault (rest_faults _)); [constructor |]. cbn [snd].
    unfold existDoc_result, written.
    destruct (first_fault _); [constructor |].
    destruct (sql.select_document d _ _) eqn:E; now constructor.
Qed.

Lemma serve_all_invariants (l : list arrival) :
  forall d,
    one_row_per_key d /\ one_row_per_user d ->
    one_row_per_key (snd (serve_all l d))
    /\ one_row_per_user (snd (serve_all l d)).
Proof.
  induction l as [| a l IH]; intros d Hinv; cbn [serve_all]; trivial.
  pose proof (serve_db_step (a_header a) (a_request a) (a_now a)
                            (a_faults a) d) as Hstep.
  destruct (serve (a_header a) (a_request a) (a_now a) (a_faults a) d)
    as [s d'].
  cbn [snd] in Hstep.
  assert (one_row_per_key d' /\ one_row_per_user d') as Hinv'.
  { destruct Hinv. split;
      eauto using db_step_one_row_per_key, db_step_one_row_per_user. }
  destruct s; trivial.
  specialize (IH d' Hinv'). now destruct (serve_all l d').
Qed.

End Serving.


(** ** The authentication gate *)

Section Gate.

Lemma reached_invariants (history : list arrival) :
  one_row_per_key (reached history) /\ one_row_per_user (reached history).
Proof. apply serve_all_invariants, initDB_invariants. Qed.

Lemma passes_gate_iff (header : requestHeader.t) (faults : list bool)
      (d : DB) :
  passes_gate header faults d
  <-> accepts header = true /\ gate header faults d = true.
Proof.
  unfold passes_gate. split.
  - intros Hs. destruct (accepts header) eqn:Ha.
    + split; trivial. destruct (gate header faults d) eqn:Hg; trivial.
      rewrite serve_unauthorized in Hs by easy. discriminate Hs.
    + rewrite serve_not_accepted in Hs by assumption. discriminate Hs.
  - intros [Ha Hg]. now apply serve_authorize.
Qed.

(** With the storage failing the gate lets nobody through. *)
Lemma gate_storage_failure (header : requestHeader.t) (faults : list bool)
      (d : DB) :
  first_fault faults = true -> gate header faults d = false.
Proof.
  intros Hf. unfold gate, getDBUser_result. rewrite Hf. cbn [fst snd negb].
  cbn [zero_dbUser dbUser.Password andb].
  destruct (validKeyField _); cbn [andb]; trivial.
  destruct (0 <? _) eqn:Hk; cbn [andb]; trivial.
  apply length_pos_nonempty in Hk. now apply String.eqb_neq.
Qed.

(** The gate, in terms of the rows of the table [user]. *)
Lemma gate_spec (header : requestHeader.t) (faults : list bool) (d : DB) :
  one_row_per_user d -> first_fault faults = false ->
  gate header faults d = true <->
  requestHeader.AuthUser header <> ""
  /\ (forall n, String.get n (requestHeader.AuthUser header) <> Some ":"%char)
  /\ requestHeader.AuthKey header <> ""
  /\ exists row, In row (user d)
                 /\ dbUser.Username row = requestHeader.AuthUser header
                 /\ dbUser.Password row = requestHeader.AuthKey header.
Proof.
  intros Huniq Hf. unfold gate, getDBUser_result. rewrite Hf.
  rewrite !andb_true_iff, validKeyField_spec, length_pos_nonempty.
  specialize (Huniq (requestHeader.AuthUser header)).
  destruct (sql.select_user d (requestHeader.AuthUser header))
    as [| r rest] eqn:E; cbn [fst snd negb].
  - split.
    + intros [_ [Hfalse _]]. discriminate Hfalse.
    + intros (_ & _ & _ & row & Hin & Hu & _).
      assert (In row (sql.select_user d (requestHeader.AuthUser header))) as Hsel
        by (apply filter_In; split; trivial; now apply String.eqb_eq).
      rewrite E in Hsel. destruct Hsel.
  - assert (In r (sql.select_user d (requestHeader.AuthUser header))) as Hr
      by (rewrite E; now left).
    apply filter_In in Hr. destruct Hr as [Hrin Hru].
    apply String.eqb_eq in Hru.
    destruct rest; [| cbn in Huniq; lia].
    rewrite String.eqb_eq. split.
    + intros [[[Hne Hcolon] Hkey] [_ Hpw]]. repeat split; trivial.
      exists r. auto.
    + intros (Hne & Hcolon & Hkey & row & Hin & Hu & Hpw).
      repeat split; trivial.
      assert (In row (sql.select_user d (requestHeader.AuthUser header))) as Hsel
        by (apply filter_In; split; trivial; now apply String.eqb_eq).
      rewrite E in Hsel. destruct Hsel as [<- | []]. now symmetry.
Qed.

End Gate.

(** C2: the authentication gate lets a request through if and only if the
    claimed username is non-empty and has no ':', a credential row exists
    for exactly that username, the presented key is non-empty and the key
    equals the stored password byte for byte.  Otherwise it returns
    Unauthorized, the database is untouched and the protected operation
    [next] is not run (whatever the storage does). *)
Theorem auth_gate_authorizes_iff (history : list arrival)
        (header : requestHeader.t) (next : proc gin_result) (now : Z) :
  let d := reached history in
  let username := requestHeader.AuthUser header in
  let key := requestHeader.AuthKey header in
  let credentials_valid :=
    username <> ""
    /\ (forall n, String.get n username <> Some ":"%char)
    /\ key <> ""
    /\ exists row, In row (user d)
                   /\ dbUser.Username row = username
                   /\ dbUser.Password row = key in
  (credentials_valid ->
   run (AuthRequired header next) now [] d = run next now [] d)
  /\ (~ credentials_valid ->
      forall faults,
        run (AuthRequired header next) now faults d
        = (Returned (c_Error Unauthorized), d))
  /\ (credentials_valid <->
      run (AuthRequired header authorize) now [] d
      = (Returned (c_JSON 200 H_authorized_OK), d)).
Proof.
  intros d username key credentials_valid.
  destruct (reached_invariants history) as [_ Huniq]. fold d in Huniq.
  pose proof (gate_spec header [] d Huniq eq_refl) as Hspec.
  fold username key in Hspec. fold credentials_valid in Hspec.
  split; [| split].
  - intros Hv. rewrite run_AuthRequired.
    apply Hspec in Hv. now rewrite Hv.
  - intros Hnv faults. rewrite run_AuthRequired.
    destruct (gate header faults d) eqn:Hg; trivial.
    destruct (first_fault faults) eqn:Hf.
    + now rewrite gate_storage_failure in Hg.
    + exfalso. apply Hnv.
      apply (gate_spec header faults d Huniq Hf). exact Hg.
  - rewrite run_AuthRequired. split.
    + intros Hv. apply Hspec in Hv. now rewrite Hv.
    + intros Hrun. apply Hspec.
      destruct (gate header [] d); trivial. discriminate Hrun.
Qed.

Section GateConsequences.

Lemma unique_user_row (d : DB) (r1 r2 : dbUser.t) :
  one_row_per_user d -> In r1 (user d) -> In r2 (user d) ->
  dbUser.Username r1 = dbUser.Username r2 -> r1 = r2.
Proof.
  intros Huniq H1 H2 Hu.
  specialize (Huniq (dbUser.Username r1)).
  assert (In r1 (sql.select_user d (dbUser.Username r1))) as S1
    by (apply filter_In; split; trivial; apply String.eqb_refl).
  assert (In r2 (sql.select_user d (dbUser.Username r1))) as S2
    by (apply filter_In; split; trivial; now apply String.eqb_eq).
  destruct (sql.select_user d (dbUser.Username r1)) as [| x [| y l]].
  - destruct S1.
  - destruct S1 as [<- | []], S2 as [<- | []]. reflexivity.
  - cbn in Huniq. lia.
Qed.

Lemma select_user_absent (d : DB) (username : string) :
  (forall row, In row (user d) -> dbUser.Username row <> username) ->
  sql.select_user d username = [].
Proof.
  intros Habs. destruct (sql.select_user d username) as [| r l] eqn:E; trivial.
  assert (In r (sql.select_user d username)) as Hr by (rewrite E; now left).
  apply filter_In in Hr. destruct Hr as [Hin Hu].
  apply String.eqb_eq in Hu. now apply Habs in Hin.
Qed.

Lemma validKeyField_false (field : string) :
  field = "" \/ (exists n, String.get n field = Some ":"%char) ->
  validKeyField field = false.
Proof.
  intros [-> | Hc]; [reflexivity |].
  unfold validKeyField. apply Contains_colon in Hc. rewrite Hc.
  apply andb_false_r.
Qed.

Lemma gate_invalid_username (header : requestHeader.t) (faults : list bool)
      (d : DB) :
  validKeyField (requestHeader.AuthUser header) = false ->
  gate header faults d = false.
Proof. intros Hv. unfold gate. now rewrite Hv. Qed.

End GateConsequences.

(** C8: a request behind the gate that names an existing user with a wrong
    key and one that names a user without a credential row receive the same
    response, the error Unauthorized with the same status, code and
    message, and neither changes the database. *)
Theorem unauthorized_indistinguishable (history : list arrival)
        (known unknown : requestHeader.t) (row : dbUser.t)
        (r1 r2 : request) (now1 now2 : Z) (faults1 faults2 : list bool) :
  let d := reached history in
  accepts known = true -> accepts unknown = true ->
  protected r1 = true -> protected r2 = true ->
  In row (user d) ->
  dbUser.Username row = requestHeader.AuthUser known ->
  dbUser.Password row <> requestHeader.AuthKey known ->
  (forall other, In other (user d) ->
                 dbUser.Username other <> requestHeader.AuthUser unknown) ->
  serve (Some known) r1 now1 faults1 d
  = (Responded 401 (H_error 2001 "Unauthorized"), d)
  /\ serve (Some unknown) r2 now2 faults2 d
     = (Responded 401 (H_error 2001 "Unauthorized"), d)
  /\ fst (serve (Some known) r1 now1 faults1 d)
     = fst (serve (Some unknown) r2 now2 faults2 d).
Proof.
  intros d Ha1 Ha2 Hp1 Hp2 Hin Hu Hwrong Habsent.
  destruct (reached_invariants history) as [_ Huniq]. fold d in Huniq.
  assert (gate known faults1 d = false) as Hg1.
  { destruct (first_fault faults1) eqn:Hf;
      [now apply gate_storage_failure |].
    destruct (gate known faults1 d) eqn:Hg; trivial.
    apply (gate_spec known faults1 d Huniq Hf) in Hg.
    destruct Hg as (_ & _ & _ & row' & Hin' & Hu' & Hpw').
    assert (row = row') by (apply (unique_user_row d); trivial; congruence).
    subst row'. contradiction. }
  assert (gate unknown faults2 d = false) as Hg2.
  { destruct (first_fault faults2) eqn:Hf;
      [now apply gate_storage_failure |].
    destruct (gate unknown faults2 d) eqn:Hg; trivial.
    apply (gate_spec unknown faults2 d Huniq Hf) in Hg.
    destruct Hg as (_ & _ & _ & row' & Hin' & Hu' & _).
    now apply Habsent in Hin'. }
  rewrite !serve_unauthorized by assumption. repeat split.
Qed.

(** C10: registration checks only that username and password are not
    empty, so a username with a ':' is registered; the gate rejects every
    claimed username with a ':', so from then on every operation behind the
    gate (probe, pull, push) under that username is answered Unauthorized,
    whatever key is presented and whatever the database holds. *)
Theorem colon_username_registers_but_never_authenticates
        (history : list arrival) (header : requestHeader.t)
        (username password : string) (now : Z) :
  let d := reached history in
  accepts header = true ->
  username <> "" -> password <> "" ->
  (exists n, String.get n username = Some ":"%char) ->
  (forall row, In row (user d) -> dbUser.Username row <> username) ->
  exists d1,
    serve (Some header)
          (POST_users_create
             (Some {| requestUser.Username := username;
                      requestUser.Password := password |}))
          now [] d
    = (Responded 201 (H_username username), d1)
    /\ In {| dbUser.Username := username; dbUser.Password := password |}
          (user d1)
    /\ forall (later : requestHeader.t) (r : request) (now' : Z)
              (faults : list bool) (d2 : DB),
        accepts later = true ->
        requestHeader.AuthUser later = username ->
        protected r = true ->
        serve (Some later) r now' faults d2
        = (Responded 401 (H_error 2001 "Unauthorized"), d2).
Proof.
  intros d Ha Hu Hp Hcolon Hnew.
  exists (sql.insert_user d username password). split; [| split].
  - rewrite serve_register by assumption. unfold register_served.
    cbn [requestUser.Username requestUser.Password].
    rewrite !eqb_empty_false by assumption. cbn [orb].
    unfold getDBUser_result. cbn [first_fault next_fault fst].
    rewrite select_user_absent by assumption. reflexivity.
  - unfold sql.insert_user. cbn [user]. apply in_or_app. right. now left.
  - intros later r now' faults d2 Ha' Hname Hprot.
    apply serve_unauthorized; trivial.
    apply gate_invalid_username. rewrite Hname.
    apply validKeyField_false. now right.
Qed.

(** C7: the validation of a push body that has been decoded stops at the
    first failure, in a fixed order: a document id that is empty or holds a
    ':' gives DocumentIdNotProvided whatever progress and device are; only
    with a valid document id does an empty progress or an empty device give
    InvalidRequest.  In both cases the database is left as it was. *)
Theorem push_validation_order (header : requestHeader.t)
        (body : positionBody.t) (rPosition : requestPosition.t)
        (now : Z) (faults : list bool) (d : DB) :
  let doc := positionBody.document body in
  passes_gate header faults d ->
  ShouldBindJSON_requestPosition (Some body) = Some rPosition ->
  ((doc = "" \/ exists n, String.get n doc = Some ":"%char) ->
   serve (Some header) (PUT_syncs_progress (Some body)) now faults d
   = (Responded 403 (H_error 2004 "Field 'document' not provided."), d))
  /\ (doc <> "" -> (forall n, String.get n doc <> Some ":"%char) ->
      stringOrInt.inner (requestPosition.Progress rPosition) = ""
      \/ positionBody.device body = "" ->
      serve (Some header) (PUT_syncs_progress (Some body)) now faults d
      = (Responded 403 (H_error 2003 "Invalid Request"), d)).
Proof.
  intros doc Hgate Hbind.
  apply passes_gate_iff in Hgate. destruct Hgate as [Ha Hg].
  assert (requestPosition.DocumentID rPosition = doc
          /\ requestPosition.Device rPosition = positionBody.device body)
    as [Hdoc Hdev].
  { unfold ShouldBindJSON_requestPosition in Hbind.
    destruct (match positionBody.progress body with
              | Some v => stringOrInt.UnmarshalJSON v
              | None => Some {| stringOrInt.inner := "" |}
              end); [| discriminate].
    injection Hbind as <-. now split. }
  rewrite serve_updateProgress by assumption.
  unfold updateProgress_served. rewrite Hbind, Hdoc, Hdev.
  split.
  - intros Hbad. now rewrite validKeyField_false.
  - intros Hne Hcolon Hempty.
    assert (validKeyField doc = true) as ->
        by (now apply validKeyField_spec).
    cbn [negb]. destruct Hempty as [-> | ->]; trivial.
    now rewrite orb_true_r.
Qed.

(** ** Push and pull *)

Section PushPull.

Lemma bound_fields (b : positionBody.t) (rPosition : requestPosition.t) :
  ShouldBindJSON_requestPosition (Some b) = Some rPosition ->
  requestPosition.Timestamp rPosition = positionBody.timestamp b
  /\ requestPosition.DocumentID rPosition = positionBody.document b
  /\ requestPosition.Device rPosition = positionBody.device b
  /\ requestPosition.Percentage rPosition = positionBody.percentage b
  /\ requestPosition.DeviceID rPosition = positionBody.device_id b
  /\ match positionBody.progress b with
     | None => requestPosition.Progress rPosition = {| stringOrInt.inner := "" |}
     | Some v =>
         stringOrInt.UnmarshalJSON v = Some (requestPosition.Progress rPosition)
     end.
Proof.
  unfold ShouldBindJSON_requestPosition.
  destruct (positionBody.progress b) as [v |].
  - destruct (stringOrInt.UnmarshalJSON v); [| discriminate].
    intros [= <-]. repeat split.
  - intros [= <-]. repeat split.
Qed.

(** The rows under the key after the write of [updateDBdocument]. *)
Lemma select_after_written (d : DB) (username : string)
      (rPos : requestPosition.t) (nowtime : Z) :
  let docid := requestPosition.DocumentID rPos in
  let d' := written (existDoc_result false d username docid)
                    d username rPos nowtime in
  sql.select_document d' username docid
  = match sql.select_document d username docid with
    | [] => [pushed_row username rPos nowtime]
    | rows => map (fun _ => pushed_row username rPos nowtime) rows
    end
  /\ user d' = user d.
Proof.
  intros docid d'. subst d'. unfold existDoc_result, written. fold docid.
  destruct (sql.select_document d username docid) as [| x rows] eqn:E.
  - rewrite select_after_insert, E, !String.eqb_refl. now split.
  - rewrite select_after_update_same, E. now split.
Qed.

(** What a push that was answered 200 has done. *)
Lemma push_effect (hdr : option requestHeader.t) (b : positionBody.t)
      (now : Z) (d d' : DB) (r : replyPosition.t) :
  serve hdr (PUT_syncs_progress (Some b)) now [] d
  = (Responded 200 (H_reply r), d') ->
  exists header rPos,
    hdr = Some header
    /\ accepts header = true
    /\ gate header [] d = true
    /\ ShouldBindJSON_requestPosition (Some b) = Some rPos
    /\ positionBody.document b <> ""
    /\ r = {| replyPosition.Timestamp := now;
              replyPosition.DocumentID := positionBody.document b |}
    /\ d' = written (existDoc_result false d (requestHeader.AuthUser header)
                       (requestPosition.DocumentID rPos))
                    d (requestHeader.AuthUser header) rPos now.
Proof.
  intros Hs. destruct hdr as [header |];
    [| rewrite serve_unbound_header in Hs; discriminate Hs].
  destruct (accepts header) eqn:Ha;
    [| rewrite serve_not_accepted in Hs by assumption; discriminate Hs].
  destruct (gate header [] d) eqn:Hg;
    [| rewrite serve_unauthorized in Hs by easy; discriminate Hs].
  rewrite serve_updateProgress in Hs by assumption.
  unfold updateProgress_served in Hs.
  destruct (ShouldBindJSON_requestPosition (Some b)) as [rPos |] eqn:Hb;
    [| discriminate Hs].
  destruct (bound_fields b rPos Hb) as (_ & Hdoc & _).
  destruct (validKeyField (requestPosition.DocumentID rPos)) eqn:Hv;
    cbn [negb] in Hs; [| discriminate Hs].
  destruct (String.eqb _ "" || String.eqb _ ""); [discriminate Hs |].
  cbn [rest_faults first_fault next_fault fst snd] in Hs.
  apply validKeyField_spec in Hv. destruct Hv as [Hne _].
  injection Hs as <- <-. rewrite Hdoc in *.
  exists header, rPos. repeat split; trivial.
  now rewrite Hdoc.
Qed.

(** A pull finds the one row content stored under the key. *)
Lemma pull_uniform (header : requestHeader.t) (document : string)
      (row : dbDocument.t) (now : Z) (d : DB) :
  accepts header = true -> gate header [] d = true -> document <> "" ->
  sql.select_document d (requestHeader.AuthUser header) document <> [] ->
  (forall x,
      In x (sql.select_document d (requestHeader.AuthUser header) document) ->
      x = row) ->
  serve (Some header) (GET_syncs_progress document) now [] d
  = (Responded 200
       (H_position (Marshal_requestPosition (position_of document row))), d).
Proof.
  intros Ha Hg Hdoc Hne Hall.
  rewrite serve_getProgress by assumption. unfold getProgress_served.
  cbn [rest_faults first_fault next_fault fst snd].
  destruct (order_by_uniform row _ Hne Hall) as [rest ->]. reflexivity.
Qed.

(** Push, then pull with the same headers. *)
Lemma push_then_pull (hdr : option requestHeader.t) (b : positionBody.t)
      (rPos : requestPosition.t) (now later : Z) (d d' : DB)
      (r : replyPosition.t) :
  serve hdr (PUT_syncs_progress (Some b)) now [] d
  = (Responded 200 (H_reply r), d') ->
  ShouldBindJSON_requestPosition (Some b) = Some rPos ->
  serve hdr (GET_syncs_progress (positionBody.document b)) later [] d'
  = (Responded 200
       (H_position
          {| positionJSON.timestamp := now;
             positionJSON.document := positionBody.document b;
             positionJSON.progress :=
               JString (stringOrInt.inner (requestPosition.Progress rPos));
             positionJSON.device := positionBody.device b;
             positionJSON.percentage := positionBody.percentage b;
             positionJSON.device_id := positionBody.device_id b |}), d').
Proof.
  intros Hs Hb.
  destruct (push_effect hdr b now d d' r Hs)
    as (header & rPos' & -> & Ha & Hg & Hb' & Hne & _ & Hd').
  assert (rPos' = rPos) by congruence. subst rPos'.
  destruct (bound_fields b rPos Hb) as (_ & Hdoc & Hdev & Hperc & Hid & _).
  destruct (select_after_written d (requestHeader.AuthUser header) rPos now)
    as [Hsel Huser].
  rewrite <- Hd', Hdoc in Hsel. rewrite <- Hd' in Huser.
  rewrite (pull_uniform header (positionBody.document b)
             (pushed_row (requestHeader.AuthUser header) rPos now)); trivial.
  - unfold position_of, pushed_row, Marshal_requestPosition.
    cbn. now rewrite Hdev, Hperc, Hid.
  - now rewrite (gate_user_table header [] d d').
  - rewrite Hsel. now destruct (sql.select_document d _ _).
  - intros x Hx. rewrite Hsel in Hx.
    destruct (sql.select_document d _ _); cbn in Hx.
    + now destruct Hx.
    + destruct Hx as [<- | Hx]; trivial.
      apply in_map_iff in Hx. now destruct Hx as (? & <- & _).
Qed.

End PushPull.

(** C1, as the code has it.  While requests are served one after the other
    the Position Store holds at most one row per (username, documentId).
    On any database a push for a key that has rows overwrites percentage,
    progress, device, deviceId and timestamp of the rows of that key and
    adds no row, so after two pushes for the same key a pull returns the
    values of the second payload only.  Its timestamp is the clock reading
    of the server at the second push, written unconditionally: it is not
    below the timestamp the first push reported exactly when the clock has
    not gone back between the two pushes. *)
Theorem position_overwritten_by_later_push
        (history : list arrival) (hdr : option requestHeader.t)
        (b1 b2 : positionBody.t) (rPos2 : requestPosition.t)
        (t1 t2 t3 : Z) (r1 r2 : replyPosition.t) (d0 d1 d2 : DB) :
  let doc := positionBody.document b1 in
  positionBody.document b2 = doc ->
  serve hdr (PUT_syncs_progress (Some b1)) t1 [] d0
  = (Responded 200 (H_reply r1), d1) ->
  serve hdr (PUT_syncs_progress (Some b2)) t2 [] d1
  = (Responded 200 (H_reply r2), d2) ->
  ShouldBindJSON_requestPosition (Some b2) = Some rPos2 ->
  one_row_per_key (reached history)
  /\ (one_row_per_key d0 -> one_row_per_key d1 /\ one_row_per_key d2)
  /\ (exists header,
         hdr = Some header
         /\ sql.select_document d1 (requestHeader.AuthUser header) doc <> []
         /\ List.length
              (sql.select_document d2 (requestHeader.AuthUser header) doc)
            = List.length
                (sql.select_document d1 (requestHeader.AuthUser header) doc)
         /\ (forall row,
                In row (sql.select_document
                          d2 (requestHeader.AuthUser header) doc) ->
                row = pushed_row (requestHeader.AuthUser header) rPos2 t2)
         /\ (one_row_per_key d0 ->
             sql.select_document d2 (requestHeader.AuthUser header) doc
             = [pushed_row (requestHeader.AuthUser header) rPos2 t2]))
  /\ serve hdr (GET_syncs_progress doc) t3 [] d2
     = (Responded 200
          (H_position
             {| positionJSON.timestamp := t2;
                positionJSON.document := doc;
                positionJSON.progress :=
                  JString (stringOrInt.inner (requestPosition.Progress rPos2));
                positionJSON.device := positionBody.device b2;
                positionJSON.percentage := positionBody.percentage b2;
                positionJSON.device_id := positionBody.device_id b2 |}), d2)
  /\ replyPosition.Timestamp r1 = t1
  /\ (replyPosition.Timestamp r1 <= t2 <-> t1 <= t2).
Proof.
  intros doc Hdoc H1 H2 Hb2.
  split; [apply reached_invariants |].
  assert (db_step d0 d1) as S1.
  { pose proof (serve_db_step hdr (PUT_syncs_progress (Some b1)) t1 [] d0) as S.
    now rewrite H1 in S. }
  assert (db_step d1 d2) as S2.
  { pose proof (serve_db_step hdr (PUT_syncs_progress (Some b2)) t2 [] d1) as S.
    now rewrite H2 in S. }
  split; [intros Hinv0; split; eauto using db_step_one_row_per_key |].
  pose proof (push_then_pull hdr b2 rPos2 t2 t3 d1 d2 r2 H2 Hb2) as Hpull.
  destruct (push_effect _ _ _ _ _ _ H1)
    as (header & rPos1 & -> & _ & _ & Hb1 & _ & -> & Hd1).
  destruct (push_effect _ _ _ _ _ _ H2)
    as (header' & rPos2' & [= <-] & _ & _ & Hb2' & _ & _ & Hd2).
  assert (rPos2' = rPos2) by congruence. subst rPos2'.
  destruct (bound_fields b1 rPos1 Hb1) as (_ & Hdoc1 & _).
  destruct (bound_fields b2 rPos2 Hb2) as (_ & Hdoc2 & _).
  destruct (select_after_written d0 (requestHeader.AuthUser header) rPos1 t1)
    as [Hsel1 _].
  destruct (select_after_written d1 (requestHeader.AuthUser header) rPos2 t2)
    as [Hsel2 _].
  rewrite <- Hd1, Hdoc1 in Hsel1. rewrite <- Hd2, Hdoc2, Hdoc in Hsel2.
  fold doc in Hsel1.
  assert (sql.select_document d1 (requestHeader.AuthUser header) doc <> [])
    as Hne1
      by (rewrite Hsel1; now destruct (sql.select_document d0 _ _)).
  rewrite Hdoc in Hpull.
  split; [| split; [exact Hpull | split; [reflexivity | apply iff_refl]]].
  exists header. split; trivial. split; trivial.
  rewrite Hsel2.
  destruct (sql.select_document d1 (requestHeader.AuthUser header) doc)
    as [| x l] eqn:E1; [now destruct Hne1 |].
  split; [now rewrite length_map |]. split.
  - intros row Hin. apply in_map_iff in Hin. now destruct Hin as (? & <- & _).
  - intros Hinv0.
    assert (one_row_per_key d1) as Hinv1
        by eauto using db_step_one_row_per_key.
    specialize (Hinv1 (requestHeader.AuthUser header) doc).
    rewrite E1 in Hinv1. destruct l; [reflexivity | cbn in Hinv1; lia].
Qed.

(** C1 as the specification states it does not hold.  The timestamp of a
    push is the wall clock of the server at the write: when that clock has
    gone back between two pushes (here from 200 to 100), the pull after the
    second push carries a timestamp below the one the first push reported.
    And the store holds at most one row per key only while requests are
    served one after the other: two pushes for (alice, bookA) at once,
    both reading before either writes, leave two rows. *)
Lemma later_push_can_carry_earlier_timestamp :
  let alice := Some (headers "alice" "s3cret") in
  let b1 := push_body "bookA" (JString "10") "phone" 25 in
  let b2 := push_body "bookA" (JString "20") "tablet" 50 in
  let d0 := reached alice_registered in
  let first := serve alice (PUT_syncs_progress (Some b1)) 200 [] d0 in
  let second := serve alice (PUT_syncs_progress (Some b2)) 100 [] (snd first) in
  let pulled := serve alice (GET_syncs_progress "bookA") 300 [] (snd second) in
  let at_once :=
    interleave [First; First; First; Second; Second; Second]
      (thread_of (headers "alice" "s3cret") (PUT_syncs_progress (Some b1)) 100)
      (thread_of (headers "alice" "s3cret") (PUT_syncs_progress (Some b2)) 100)
      d0 in
  (fst first
   = Responded 200 (H_reply {| replyPosition.Timestamp := 200;
                               replyPosition.DocumentID := "bookA" |})
   /\ fst second
      = Responded 200 (H_reply {| replyPosition.Timestamp := 100;
                                  replyPosition.DocumentID := "bookA" |})
   /\ fst pulled
      = Responded 200
          (H_position
             {| positionJSON.timestamp := 100;
                positionJSON.document := "bookA";
                positionJSON.progress := JString "20";
                positionJSON.device := "tablet";
                positionJSON.percentage := 50;
                positionJSON.device_id := "tablet" |}))
  /\ ~ (exists p,
          fst pulled = Responded 200 (H_position p)
          /\ 200 <= positionJSON.timestamp p)
  /\ ~ one_row_per_key (snd at_once).
Proof.
  cbv zeta. split; [| split].
  - repeat split; vm_compute; reflexivity.
  - intros (p & Hp & Hle). vm_compute in Hp. injection Hp as <-.
    cbn [positionJSON.timestamp] in Hle. lia.
  - intros Hinv. specialize (Hinv "alice" "bookA").
    vm_compute in Hinv. lia.
Qed.

Section ClientTimestamp.

Lemma updateProgress_ignores_timestamp (header : requestHeader.t)
      (b : positionBody.t) (timestamp : Z) :
  updateProgress header (Some (with_timestamp b timestamp))
  = updateProgress header (Some b).
Proof.
  unfold updateProgress, ShouldBindJSON_requestPosition, with_timestamp.
  cbn [positionBody.progress positionBody.document positionBody.device
       positionBody.percentage positionBody.device_id positionBody.timestamp].
  destruct (positionBody.progress b) as [v |];
    [destruct (stringOrInt.UnmarshalJSON v) |]; reflexivity.
Qed.

End ClientTimestamp.

(** C3: a push that succeeds stores, and returns in {timestamp, document},
    the clock reading [now] of the server at the write; a later pull gives
    that timestamp back.  The timestamp field sent by the client has no
    effect: two pushes that differ in it only have the same response and
    leave the same database, for the same clock reading. *)
Theorem push_stamps_server_time (hdr : option requestHeader.t)
        (b : positionBody.t) (now later : Z) (d d' : DB)
        (r : replyPosition.t) :
  serve hdr (PUT_syncs_progress (Some b)) now [] d
  = (Responded 200 (H_reply r), d') ->
  r = {| replyPosition.Timestamp := now;
         replyPosition.DocumentID := positionBody.document b |}
  /\ (exists header,
         hdr = Some header
         /\ sql.select_document d' (requestHeader.AuthUser header)
                                (positionBody.document b) <> []
         /\ forall row,
             In row (sql.select_document d' (requestHeader.AuthUser header)
                                         (positionBody.document b)) ->
             dbDocument.Timestamp row = now)
  /\ (exists p,
         serve hdr (GET_syncs_progress (positionBody.document b)) later [] d'
         = (Responded 200 (H_position p), d')
         /\ positionJSON.timestamp p = now)
  /\ forall (timestamp : Z) (hdr0 : option requestHeader.t) (now0 : Z)
            (faults : list bool) (d0 : DB),
      serve hdr0 (PUT_syncs_progress (Some (with_timestamp b timestamp)))
            now0 faults d0
      = serve hdr0 (PUT_syncs_progress (Some b)) now0 faults d0.
Proof.
  intros Hs.
  destruct (push_effect _ _ _ _ _ _ Hs)
    as (header & rPos & -> & _ & _ & Hb & _ & -> & Hd').
  destruct (bound_fields b rPos Hb) as (_ & Hdoc & _).
  destruct (select_after_written d (requestHeader.AuthUser header) rPos now)
    as [Hsel _].
  rewrite <- Hd', Hdoc in Hsel.
  split; [reflexivity |]. split; [| split].
  - exists header. split; trivial. rewrite Hsel.
    destruct (sql.select_document d _ _) as [| x l].
    + split; [discriminate |]. now intros row [<- | []].
    + split; [discriminate |]. intros row Hin.
      change (x :: l) with ([x] ++ l)%list in Hin.
      apply in_map_iff in Hin. now destruct Hin as (? & <- & _).
  - eexists. split; [exact (push_then_pull _ _ _ _ later _ _ _ Hs Hb) |].
    reflexivity.
  - intros timestamp hdr0 now0 faults d0.
    unfold serve, handle, AcceptHeaderCheck.
    destruct hdr0 as [header0 |]; trivial.
    destruct (String.eqb _ _); trivial.
    cbn [route]. now rewrite updateProgress_ignores_timestamp.
Qed.

Section ProgressField.

Lemma Itoa_not_empty (i : Z) : strconv.Itoa i <> "".
Proof.
  unfold strconv.Itoa. destruct (i <? 0); [discriminate |].
  unfold strconv.format_uint.
  destruct (format_digits_head (strconv.digits_bound i) i "")
    as (dgt & s & _ & ->).
  discriminate.
Qed.

(** A push that passes the gate and the validation is answered 200. *)
Lemma push_accepted (header : requestHeader.t) (b : positionBody.t)
      (rPos : requestPosition.t) (now : Z) (d : DB) :
  passes_gate header [] d ->
  ShouldBindJSON_requestPosition (Some b) = Some rPos ->
  validKeyField (positionBody.document b) = true ->
  stringOrInt.inner (requestPosition.Progress rPos) <> "" ->
  positionBody.device b <> "" ->
  serve (Some header) (PUT_syncs_progress (Some b)) now [] d
  = (Responded 200
       (H_reply {| replyPosition.Timestamp := now;
                   replyPosition.DocumentID := positionBody.document b |}),
     written (existDoc_result false d (requestHeader.AuthUser header)
                (requestPosition.DocumentID rPos))
             d (requestHeader.AuthUser header) rPos now).
Proof.
  intros Hgate Hb Hv Hprog Hdev.
  apply passes_gate_iff in Hgate. destruct Hgate as [Ha Hg].
  destruct (bound_fields b rPos Hb) as (_ & Hdoc & Hdevice & _).
  rewrite serve_updateProgress by assumption.
  unfold updateProgress_served. rewrite Hb, Hdoc, Hdevice, Hv.
  now rewrite !eqb_empty_false by assumption.
Qed.

End ProgressField.

(** C5: progress goes through push and pull as a string.  A numeric wire
    value, the decimal literal of a 64-bit integer such as 42, comes back
    as the JSON string of the same digits ("42", nothing appended); a
    string value such as "p7" comes back unchanged.  The value is turned
    into a string when the body is decoded and written as a JSON string in
    the response. *)
Theorem progress_round_trip (header : requestHeader.t) (b : positionBody.t)
        (text : string) (now later : Z) (d : DB) :
  passes_gate header [] d ->
  validKeyField (positionBody.document b) = true ->
  positionBody.device b <> "" ->
  (positionBody.progress b = Some (JString text) /\ text <> "")
  \/ (exists i, strconv.minInt64 <= i <= strconv.maxInt64
                /\ positionBody.progress b = Some (JNumber (strconv.Itoa i))
                /\ text = strconv.Itoa i) ->
  exists d',
    serve (Some header) (PUT_syncs_progress (Some b)) now [] d
    = (Responded 200
         (H_reply {| replyPosition.Timestamp := now;
                     replyPosition.DocumentID := positionBody.document b |}),
       d')
    /\ serve (Some header) (GET_syncs_progress (positionBody.document b))
             later [] d'
       = (Responded 200
            (H_position
               {| positionJSON.timestamp := now;
                  positionJSON.document := positionBody.document b;
                  positionJSON.progress := JString text;
                  positionJSON.device := positionBody.device b;
                  positionJSON.percentage := positionBody.percentage b;
                  positionJSON.device_id := positionBody.device_id b |}), d').
Proof.
  intros Hgate Hv Hdev Hprog.
  set (rPos := {| requestPosition.Timestamp := positionBody.timestamp b;
                  requestPosition.DocumentID := positionBody.document b;
                  requestPosition.Progress := {| stringOrInt.inner := text |};
                  requestPosition.Device := positionBody.device b;
                  requestPosition.Percentage := positionBody.percentage b;
                  requestPosition.DeviceID := positionBody.device_id b |}).
  assert (ShouldBindJSON_requestPosition (Some b) = Some rPos
          /\ text <> "") as [Hb Htext].
  { unfold ShouldBindJSON_requestPosition.
    destruct Hprog as [[-> Hne] | (i & Hi & -> & ->)].
    - now rewrite UnmarshalJSON_string.
    - rewrite UnmarshalJSON_number by assumption.
      split; [reflexivity | apply Itoa_not_empty]. }
  pose proof (push_accepted header b rPos now d Hgate Hb Hv Htext Hdev) as Hs.
  eexists. split; [exact Hs |].
  exact (push_then_pull _ _ _ _ later _ _ _ Hs Hb).
Qed.

Section Credentials.

(** No request changes or removes the credential row of a user. *)
Lemma db_step_keeps_credential (d d' : DB) (username : string)
      (row : dbUser.t) :
  db_step d d' ->
  sql.select_user d username = [row] -> sql.select_user d' username = [row].
Proof.
  intros Hstep Hrow.
  destruct Hstep as [| u p Hnone | perc prog device devid time usr docid
                     | usr docid perc prog dev devid time Hnone]; trivial.
  rewrite select_user_after_insert, Hrow.
  destruct (String.eqb u username) eqn:E; trivial.
  apply String.eqb_eq in E. subst u. rewrite Hnone in Hrow. discriminate Hrow.
Qed.

Lemma serve_all_keeps_credential (l : list arrival) (username : string)
      (row : dbUser.t) :
  forall d,
    sql.select_user d username = [row] ->
    sql.select_user (snd (serve_all l d)) username = [row].
Proof.
  induction l as [| a l IH]; intros d Hrow; cbn [serve_all]; trivial.
  pose proof (serve_db_step (a_header a) (a_request a) (a_now a)
                            (a_faults a) d) as Hstep.
  destruct (serve (a_header a) (a_request a) (a_now a) (a_faults a) d)
    as [s d'].
  cbn [snd] in Hstep.
  pose proof (db_step_keeps_credential d d' username row Hstep Hrow) as Hrow'.
  destruct s; trivial.
  specialize (IH d' Hrow'). now destruct (serve_all l d').
Qed.

End Credentials.

(** C6: registering a username that has a credential row fails with
    UsernameAlreadyRegistered and leaves the Credential Store as it was:
    after a successful register(u, p1), and whatever requests are served
    after it, the table holds one row for u, with password p1, and a
    register(u, p2) changes nothing. *)
Theorem register_twice_keeps_first_password
        (hdr : option requestHeader.t) (username p1 : string) (now : Z)
        (d d1 : DB) :
  serve hdr
        (POST_users_create
           (Some {| requestUser.Username := username;
                    requestUser.Password := p1 |}))
        now [] d
  = (Responded 201 (H_username username), d1) ->
  forall later : list arrival,
    let d2 := snd (serve_all later d1) in
    sql.select_user d2 username
    = [ {| dbUser.Username := username; dbUser.Password := p1 |} ]
    /\ forall (header2 : requestHeader.t) (p2 : string) (now2 : Z)
              (faults : list bool),
        let second :=
          serve (Some header2)
                (POST_users_create
                   (Some {| requestUser.Username := username;
                            requestUser.Password := p2 |}))
                now2 faults d2 in
        snd second = d2
        /\ (accepts header2 = true -> p2 <> "" ->
            fst second
            = Responded 403 (H_error 2002 "Username is already registered.")).
Proof.
  intros Hs later d2. destruct hdr as [header |];
    [| rewrite serve_unbound_header in Hs; discriminate Hs].
  destruct (accepts header) eqn:Ha;
    [| rewrite serve_not_accepted in Hs by assumption; discriminate Hs].
  rewrite serve_register in Hs by assumption.
  unfold register_served, getDBUser_result in Hs.
  cbn [requestUser.Username requestUser.Password first_fault rest_faults
       next_fault fst snd] in Hs.
  destruct (String.eqb username "") eqn:Hu; [discriminate Hs |].
  destruct (String.eqb p1 ""); cbn [orb] in Hs; [discriminate Hs |].
  destruct (sql.select_user d username) eqn:Hsel; cbn [snd] in Hs;
    [| discriminate Hs].
  injection Hs as <-.
  assert (sql.select_user d2 username
          = [ {| dbUser.Username := username; dbUser.Password := p1 |} ])
    as Hrow.
  { apply serve_all_keeps_credential.
    now rewrite select_user_after_insert, Hsel, String.eqb_refl. }
  split; trivial.
  intros header2 p2 now2 faults second. subst second.
  destruct (accepts header2) eqn:Ha2.
  - rewrite serve_register by assumption.
    unfold register_served, getDBUser_result.
    cbn [requestUser.Username requestUser.Password]. rewrite Hu, Hrow.
    cbn [orb]. destruct (String.eqb p2 "") eqn:Hp2.
    + split; [reflexivity |]. intros _ Hne.
      apply String.eqb_eq in Hp2. contradiction.
    + destruct (first_fault faults); cbn [fst snd]; now split.
  - rewrite serve_not_accepted by assumption. split; [reflexivity | easy].
Qed.


(** ** Keys that were never pushed, and a failing storage *)

Section EmptyResult.

(** Only a push that binds writes to the table [document]. *)
Lemma serve_cases (hdr : option requestHeader.t) (r : request) (now : Z)
      (faults : list bool) (d : DB) :
  document (snd (serve hdr r now faults d)) = document d
  \/ exists header b rPos exists_,
      hdr = Some header
      /\ r = PUT_syncs_progress (Some b)
      /\ ShouldBindJSON_requestPosition (Some b) = Some rPos
      /\ snd (serve hdr r now faults d)
         = written exists_ d (requestHeader.AuthUser header) rPos now.
Proof.
  destruct hdr as [header |]; [| now left].
  destruct (accepts header) eqn:Ha;
    [| rewrite serve_not_accepted by assumption; now left].
  destruct r as [| [rUser |] | | doc | [b |]].
  - rewrite serve_accepted by assumption. now left.
  - rewrite serve_register by assumption. unfold register_served. left.
    destruct (String.eqb _ "" || String.eqb _ ""); trivial.
    destruct (snd (getDBUser_result _ _ _)); trivial.
    now destruct (first_fault (rest_faults faults)).
  - rewrite serve_accepted by assumption. now left.
  - pose proof (serve_db_step (Some header) GET_users_auth now faults d) as S.
    destruct (gate header faults d) eqn:Hg;
      [rewrite serve_authorize by assumption
      | rewrite serve_unauthorized by easy]; now left.
  - destruct (gate header faults d) eqn:Hg;
      [| rewrite serve_unauthorized by easy; now left].
    rewrite serve_accepted by assumption. cbn [route].
    rewrite run_AuthRequired, Hg. unfold getProgress.
    destruct (ShouldBindUri_requestDocid doc); [| now left].
    rewrite run_bind. unfold getDBPosition.
    rewrite exec_bind, exec_storage_call by reflexivity. cbn [perform fst snd].
    destruct (first_fault _); [now left |].
    destruct (sql.order_by_timestamp_desc _); now left.
  - destruct (gate header faults d) eqn:Hg;
      [| rewrite serve_unauthorized by easy; now left].
    rewrite serve_updateProgress by assumption. unfold updateProgress_served.
    destruct (ShouldBindJSON_requestPosition (Some b)) as [rPos |] eqn:Hb;
      [| now left].
    destruct (negb _); [now left |].
    destruct (_ || _); [now left |].
    destruct (first_fault (rest_faults _)); [now left |].
    right. now exists header, b, rPos, (existDoc_result
                        (first_fault (rest_faults faults)) d
                        (requestHeader.AuthUser header)
                        (requestPosition.DocumentID rPos)).
  - destruct (gate header faults d) eqn:Hg;
      [| rewrite serve_unauthorized by easy; now left].
    rewrite serve_updateProgress by assumption. now left.
Qed.

Lemma written_other_key (exists_ : bool) (d : DB) (usr : string)
      (rPos : requestPosition.t) (now : Z) (username documentid : string) :
  ~ (usr = username /\ requestPosition.DocumentID rPos = documentid) ->
  sql.select_document (written exists_ d usr rPos now) username documentid
  = sql.select_document d username documentid.
Proof.
  intros Hne. unfold written. destruct exists_.
  - apply select_after_update_other. intros [= E1 E2]. now apply Hne.
  - rewrite select_after_insert.
    destruct (String.eqb usr username
              && String.eqb (requestPosition.DocumentID rPos) documentid)
             eqn:E; [| apply app_nil_r].
    apply andb_true_iff in E. rewrite !String.eqb_eq in E. contradiction.
Qed.

(** A request that is not a push for the key leaves the rows of the key. *)
Lemma serve_keeps_other_keys (a : arrival) (d : DB)
      (username documentid : string) :
  ~ pushes_key username documentid a ->
  sql.select_document
    (snd (serve (a_header a) (a_request a) (a_now a) (a_faults a) d))
    username documentid
  = sql.select_document d username documentid.
Proof.
  intros Hnot.
  destruct (serve_cases (a_header a) (a_request a) (a_now a) (a_faults a) d)
    as [Hsame | (header & b & rPos & exists_ & Hh & Hr & Hb & ->)].
  - unfold sql.select_document. now rewrite Hsame.
  - apply written_other_key. unfold pushes_key in Hnot.
    rewrite Hh, Hr in Hnot.
    destruct (bound_fields b rPos Hb) as (_ & -> & _). exact Hnot.
Qed.

Lemma never_pushed_no_row (history : list arrival)
      (username documentid : string) :
  (forall a, In a history -> ~ pushes_key username documentid a) ->
  forall d,
    sql.select_document d username documentid = [] ->
    sql.select_document (snd (serve_all history d)) username documentid = [].
Proof.
  induction history as [| a l IH]; intros Hnever d Hd; cbn [serve_all];
    trivial.
  pose proof (serve_keeps_other_keys a d username documentid
                                     (Hnever a (or_introl eq_refl))) as Hk.
  destruct (serve (a_header a) (a_request a) (a_now a) (a_faults a) d)
    as [s d'].
  cbn [snd] in Hk. rewrite Hd in Hk.
  destruct s; trivial.
  assert (forall x, In x l -> ~ pushes_key username documentid x) as Hl
      by (intros x Hx; apply Hnever; now right).
  specialize (IH Hl d' Hk). now destruct (serve_all l d').
Qed.

Lemma gate_first_fault (header : requestHeader.t) (f1 f2 : list bool)
      (d : DB) :
  first_fault f1 = first_fault f2 -> gate header f1 d = gate header f2 d.
Proof. intros E. unfold gate. now rewrite E. Qed.

End EmptyResult.

(** C4, as the code has it: a pull for a key that was never pushed is
    answered with the empty object and status 200, which is no error.  A
    failure of the storage in the position query of a pull is answered in
    the very same way, empty object and status 200, and not with
    UnknownServerError; a failure of the storage in the write of a push
    makes the process exit. *)
Theorem pull_empty_result_and_storage_failures
        (history : list arrival) (header : requestHeader.t)
        (documentid : string) (later : Z) :
  let d := reached history in
  (passes_gate header [] d -> documentid <> "" ->
   (forall a, In a history ->
              ~ pushes_key (requestHeader.AuthUser header) documentid a) ->
   serve (Some header) (GET_syncs_progress documentid) later [] d
   = (Responded 200 H_empty, d))
  /\ (forall (d0 : DB) (rest : list bool),
         passes_gate header [] d0 -> documentid <> "" ->
         serve (Some header) (GET_syncs_progress documentid) later
               (false :: true :: rest) d0
         = (Responded 200 H_empty, d0))
  /\ (forall (d0 : DB) (b : positionBody.t) (rPos : requestPosition.t)
             (exist_fails : bool) (rest : list bool) (now : Z),
         passes_gate header [] d0 ->
         ShouldBindJSON_requestPosition (Some b) = Some rPos ->
         validKeyField (positionBody.document b) = true ->
         stringOrInt.inner (requestPosition.Progress rPos) <> "" ->
         positionBody.device b <> "" ->
         serve (Some header) (PUT_syncs_progress (Some b)) now
               (false :: exist_fails :: true :: rest) d0
         = (ProcessExited, d0)).
Proof.
  intros d. split; [| split].
  - intros Hgate Hdoc Hnever.
    apply passes_gate_iff in Hgate. destruct Hgate as [Ha Hg].
    rewrite serve_getProgress by assumption. unfold getProgress_served.
    cbn [rest_faults first_fault next_fault fst snd].
    unfold d, reached.
    now rewrite (never_pushed_no_row history _ _ Hnever initDB eq_refl).
  - intros d0 rest Hgate Hdoc.
    apply passes_gate_iff in Hgate. destruct Hgate as [Ha Hg].
    assert (gate header (false :: true :: rest) d0 = true) as Hg'
        by (now rewrite (gate_first_fault header _ [])).
    now rewrite serve_getProgress.
  - intros d0 b rPos exist_fails rest now Hgate Hb Hv Hprog Hdev.
    apply passes_gate_iff in Hgate. destruct Hgate as [Ha Hg].
    destruct (bound_fields b rPos Hb) as (_ & Hdoc & Hdevice & _).
    assert (gate header (false :: exist_fails :: true :: rest) d0 = true)
      as Hg' by (now rewrite (gate_first_fault header _ [])).
    rewrite serve_updateProgress by assumption.
    unfold updateProgress_served. rewrite Hb, Hdoc, Hdevice, Hv.
    now rewrite !eqb_empty_false by assumption.
Qed.

(** C4 as the specification states it does not hold: with alice's position
    for bookA stored, a pull whose position query fails is not answered
    with UnknownServerError but exactly like a pull for a key that was
    never pushed, and a push whose write fails ends the process. *)
Lemma storage_failure_not_surfaced :
  let d := reached alice_pushed in
  let alice := Some (headers "alice" "s3cret") in
  let failed_pull :=
    serve alice (GET_syncs_progress "bookA") 300 [false; true] d in
  let never_pushed := serve alice (GET_syncs_progress "bookB") 300 [] d in
  let failed_push :=
    serve alice
          (PUT_syncs_progress
             (Some (push_body "bookA" (JString "11") "phone" 26)))
          300 [false; false; true] d in
  (fst failed_pull = Responded 200 H_empty
   /\ fst failed_pull = fst never_pushed
   /\ fst failed_push = ProcessExited)
  /\ ~ (fst failed_pull = Responded 500 (H_error 500 "Unknown server error.")
        /\ fst failed_pull <> fst never_pushed
        /\ fst failed_push <> ProcessExited).
Proof.
  cbv zeta. split.
  - repeat split; vm_compute; reflexivity.
  - intros [Hpull _]. vm_compute in Hpull. discriminate Hpull.
Qed.

(** ** Two requests at once *)

(** C9: the two store operations are not atomic.  [addDBUser] reads, then
    inserts; [updateDBdocument] reads, branches, then writes; the tables
    have no uniqueness constraint.  Two registrations of alice whose reads
    both come before the inserts are both answered 201 and leave two
    credential rows; two pushes for (alice, bookA) whose reads both come
    before the writes leave two position rows.  Served one after the other
    the same requests leave one row each. *)
Theorem concurrent_requests_leave_duplicate_rows :
  let nobody := headers "" "" in
  let alice := headers "alice" "s3cret" in
  let register1 := thread_of nobody (register_request "alice" "s3cret") 1 in
  let register2 := thread_of nobody (register_request "alice" "other") 1 in
  let push1 :=
    thread_of alice
      (PUT_syncs_progress (Some (push_body "bookA" (JString "10") "phone" 25)))
      100 in
  let push2 :=
    thread_of alice
      (PUT_syncs_progress (Some (push_body "bookA" (JString "20") "tablet" 50)))
      100 in
  let created := Returned (c_JSON 201 (H_username "alice")) in
  let replied :=
    Returned (c_JSON 200 (H_reply {| replyPosition.Timestamp := 100;
                                     replyPosition.DocumentID := "bookA" |})) in
  (exists d,
      interleave [First; Second] register1 register2 initDB
      = (created, created, d)
      /\ sql.select_user d "alice"
         = [ {| dbUser.Username := "alice"; dbUser.Password := "s3cret" |};
             {| dbUser.Username := "alice"; dbUser.Password := "other" |} ])
  /\ (exists d,
         interleave [First; First; First; Second; Second; Second]
                    push1 push2 (reached alice_registered)
         = (replied, replied, d)
         /\ List.length (sql.select_document d "alice" "bookA") = 2%nat)
  /\ (exists d,
         interleave [] register1 register2 initDB
         = (created, Returned (c_Error UsernameAlreadyRegistered), d)
         /\ List.length (sql.select_user d "alice") = 1%nat)
  /\ (exists d,
         interleave [] push1 push2 (reached alice_registered)
         = (replied, replied, d)
         /\ List.length (sql.select_document d "alice" "bookA") = 1%nat).
Proof.
  cbv zeta. repeat split; eexists; split; vm_compute; reflexivity.
Qed.

(** ** The theorems at work on sample requests *)

Lemma auth_gate_witness :
  let header := headers "alice" "s3cret" in
  let d := reached alice_registered in
  (requestHeader.AuthUser header <> ""
   /\ (forall n, String.get n (requestHeader.AuthUser header) <> Some ":"%char)
   /\ requestHeader.AuthKey header <> ""
   /\ exists row, In row (user d)
                  /\ dbUser.Username row = requestHeader.AuthUser header
                  /\ dbUser.Password row = requestHeader.AuthKey header)
  /\ run (AuthRequired header authorize) 0 [] d
     = (Returned (c_JSON 200 H_authorized_OK), d)
  /\ run (AuthRequired (headers "alice" "S3CRET") authorize) 0 [] d
     = (Returned (c_Error Unauthorized), d).
Proof.
  cbv zeta.
  assert (requestHeader.AuthUser (headers "alice" "s3cret") <> ""
          /\ (forall n,
                 String.get n (requestHeader.AuthUser (headers "alice" "s3cret"))
                 <> Some ":"%char)
          /\ requestHeader.AuthKey (headers "alice" "s3cret") <> ""
          /\ exists row,
              In row (user (reached alice_registered))
              /\ dbUser.Username row
                 = requestHeader.AuthUser (headers "alice" "s3cret")
              /\ dbUser.Password row
                 = requestHeader.AuthKey (headers "alice" "s3cret")) as Hvalid.
  { split; [discriminate |]. split.
    - intros n. do 5 (destruct n as [| n]; [discriminate |]). discriminate.
    - split; [discriminate |].
      exists {| dbUser.Username := "alice"; dbUser.Password := "s3cret" |}.
      split; [left; reflexivity | split; reflexivity]. }
  split; [exact Hvalid |]. split.
  - exact (proj1 (proj2 (proj2 (auth_gate_authorizes_iff
                                  alice_registered (headers "alice" "s3cret")
                                  authorize 0))) Hvalid).
  - apply (proj1 (proj2 (auth_gate_authorizes_iff
                           alice_registered (headers "alice" "S3CRET")
                           authorize 0))).
    intros (_ & _ & _ & row & Hin & _ & Hpw).
    destruct Hin as [<- | []]. discriminate Hpw.
Defined.

Lemma unauthorized_witness :
  let d := reached alice_registered in
  serve (Some (headers "alice" "wrong")) (GET_syncs_progress "bookA") 5 [] d
  = (Responded 401 (H_error 2001 "Unauthorized"), d)
  /\ serve (Some (headers "bob" "s3cret")) GET_users_auth 6 [] d
     = (Responded 401 (H_error 2001 "Unauthorized"), d)
  /\ fst (serve (Some (headers "alice" "wrong")) (GET_syncs_progress "bookA")
                5 [] d)
     = fst (serve (Some (headers "bob" "s3cret")) GET_users_auth 6 [] d).
Proof.
  apply (unauthorized_indistinguishable
           alice_registered (headers "alice" "wrong") (headers "bob" "s3cret")
           {| dbUser.Username := "alice"; dbUser.Password := "s3cret" |}).
  - reflexivity.
  - reflexivity.
  - reflexivity.
  - reflexivity.
  - left. reflexivity.
  - reflexivity.
  - discriminate.
  - intros other [<- | []]. discriminate.
Defined.

Lemma colon_username_witness :
  exists d1,
    serve (Some (headers "" "")) (register_request "a:b" "pw") 1 [] initDB
    = (Responded 201 (H_username "a:b"), d1)
    /\ In {| dbUser.Username := "a:b"; dbUser.Password := "pw" |} (user d1)
    /\ forall (later : requestHeader.t) (r : request) (now' : Z)
              (faults : list bool) (d2 : DB),
        accepts later = true ->
        requestHeader.AuthUser later = "a:b" ->
        protected r = true ->
        serve (Some later) r now' faults d2
        = (Responded 401 (H_error 2001 "Unauthorized"), d2).
Proof.
  apply (colon_username_registers_but_never_authenticates
           [] (headers "" "") "a:b" "pw" 1).
  - reflexivity.
  - discriminate.
  - discriminate.
  - exists 1%nat. reflexivity.
  - intros row [].
Defined.

Lemma push_validation_witness :
  let d := reached alice_registered in
  let alice := headers "alice" "s3cret" in
  serve (Some alice)
        (PUT_syncs_progress (Some (push_body "book:A" (JString "") "" 0)))
        7 [] d
  = (Responded 403 (H_error 2004 "Field 'document' not provided."), d)
  /\ serve (Some alice)
           (PUT_syncs_progress (Some (push_body "bookA" (JString "") "phone" 0)))
           7 [] d
     = (Responded 403 (H_error 2003 "Invalid Request"), d).
Proof.
  cbv zeta. split.
  - apply (proj1 (push_validation_order
                    (headers "alice" "s3cret")
                    (push_body "book:A" (JString "") "" 0)
                    {| requestPosition.Timestamp := 0;
                       requestPosition.DocumentID := "book:A";
                       requestPosition.Progress := {| stringOrInt.inner := "" |};
                       requestPosition.Device := "";
                       requestPosition.Percentage := 0;
                       requestPosition.DeviceID := "" |}
                    7 [] (reached alice_registered) eq_refl eq_refl)).
    right. exists 4%nat. reflexivity.
  - apply (proj2 (push_validation_order
                    (headers "alice" "s3cret")
                    (push_body "bookA" (JString "") "phone" 0)
                    {| requestPosition.Timestamp := 0;
                       requestPosition.DocumentID := "bookA";
                       requestPosition.Progress := {| stringOrInt.inner := "" |};
                       requestPosition.Device := "phone";
                       requestPosition.Percentage := 0;
                       requestPosition.DeviceID := "phone" |}
                    7 [] (reached alice_registered) eq_refl eq_refl)).
    + discriminate.
    + intros n. do 5 (destruct n as [| n]; [discriminate |]). discriminate.
    + left. reflexivity.
Defined.

Lemma position_overwritten_witness :
  let alice := Some (headers "alice" "s3cret") in
  let b1 := push_body "bookA" (JString "10") "phone" 25 in
  let b2 := push_body "bookA" (JNumber "42") "tablet" 50 in
  let d0 := reached alice_registered in
  let d1 := snd (serve alice (PUT_syncs_progress (Some b1)) 100 [] d0) in
  let d2 := snd (serve alice (PUT_syncs_progress (Some b2)) 200 [] d1) in
  serve alice (PUT_syncs_progress (Some b1)) 100 [] d0
  = (Responded 200 (H_reply {| replyPosition.Timestamp := 100;
                               replyPosition.DocumentID := "bookA" |}), d1)
  /\ serve alice (PUT_syncs_progress (Some b2)) 200 [] d1
     = (Responded 200 (H_reply {| replyPosition.Timestamp := 200;
                                  replyPosition.DocumentID := "bookA" |}), d2)
  /\ List.length (sql.select_document d2 "alice" "bookA") = 1%nat
  /\ serve alice (GET_syncs_progress "bookA") 300 [] d2
     = (Responded 200
          (H_position
             {| positionJSON.timestamp := 200;
                positionJSON.document := "bookA";
                positionJSON.progress := JString "42";
                positionJSON.device := "tablet";
                positionJSON.percentage := 50;
                positionJSON.device_id := "tablet" |}), d2)
  /\ 100 <= 200.
Proof.
  cbv zeta.
  set (alice := Some (headers "alice" "s3cret")).
  set (b1 := push_body "bookA" (JString "10") "phone" 25).
  set (b2 := push_body "bookA" (JNumber "42") "tablet" 50).
  set (d0 := reached alice_registered).
  set (d1 := snd (serve alice (PUT_syncs_progress (Some b1)) 100 [] d0)).
  set (d2 := snd (serve alice (PUT_syncs_progress (Some b2)) 200 [] d1)).
  assert (serve alice (PUT_syncs_progress (Some b1)) 100 [] d0
          = (Responded 200 (H_reply {| replyPosition.Timestamp := 100;
                                       replyPosition.DocumentID := "bookA" |}),
             d1)) as H1 by reflexivity.
  assert (serve alice (PUT_syncs_progress (Some b2)) 200 [] d1
          = (Responded 200 (H_reply {| replyPosition.Timestamp := 200;
                                       replyPosition.DocumentID := "bookA" |}),
             d2)) as H2 by reflexivity.
  pose proof (position_overwritten_by_later_push
                alice_registered alice b1 b2
                {| requestPosition.Timestamp := 0;
                   requestPosition.DocumentID := "bookA";
                   requestPosition.Progress := {| stringOrInt.inner := "42" |};
                   requestPosition.Device := "tablet";
                   requestPosition.Percentage := 50;
                   requestPosition.DeviceID := "tablet" |}
                100 200 300 _ _ d0 d1 d2 eq_refl H1 H2 eq_refl)
    as (Hinv0 & _ & (header & Hh & _ & _ & _ & Hrows) & Hpull & _ & Hclock).
  injection Hh as <-.
  split; [exact H1 |]. split; [exact H2 |]. split; [| split].
  - change (requestHeader.AuthUser (headers "alice" "s3cret")) with "alice"
      in Hrows.
    change (positionBody.document b1) with "bookA" in Hrows.
    now rewrite (Hrows Hinv0).
  - exact Hpull.
  - apply Hclock. lia.
Defined.

Lemma push_stamps_witness :
  let alice := Some (headers "alice" "s3cret") in
  let b := push_body "bookA" (JString "10") "phone" 25 in
  let d := reached alice_registered in
  let d' := snd (serve alice (PUT_syncs_progress (Some b)) 100 [] d) in
  serve alice (PUT_syncs_progress (Some b)) 100 [] d
  = (Responded 200 (H_reply {| replyPosition.Timestamp := 100;
                               replyPosition.DocumentID := "bookA" |}), d')
  /\ (exists p,
         serve alice (GET_syncs_progress "bookA") 300 [] d'
         = (Responded 200 (H_position p), d')
         /\ positionJSON.timestamp p = 100)
  /\ serve alice (PUT_syncs_progress (Some (with_timestamp b 99999))) 100 [] d
     = serve alice (PUT_syncs_progress (Some b)) 100 [] d.
Proof.
  cbv zeta.
  set (alice := Some (headers "alice" "s3cret")).
  set (b := push_body "bookA" (JString "10") "phone" 25).
  set (d := reached alice_registered).
  set (d' := snd (serve alice (PUT_syncs_progress (Some b)) 100 [] d)).
  assert (serve alice (PUT_syncs_progress (Some b)) 100 [] d
          = (Responded 200 (H_reply {| replyPosition.Timestamp := 100;
                                       replyPosition.DocumentID := "bookA" |}),
             d')) as Hs by reflexivity.
  destruct (push_stamps_server_time alice b 100 300 d d' _ Hs)
    as (_ & _ & Hpull & Hsame).
  split; [exact Hs |]. split; [exact Hpull | apply Hsame].
Defined.

Lemma progress_round_trip_witness :
  let alice := headers "alice" "s3cret" in
  let d := reached alice_registered in
  (exists d',
      serve (Some alice)
            (PUT_syncs_progress (Some (push_body "bookA" (JNumber "42") "phone" 25)))
            100 [] d
      = (Responded 200 (H_reply {| replyPosition.Timestamp := 100;
                                   replyPosition.DocumentID := "bookA" |}), d')
      /\ serve (Some alice) (GET_syncs_progress "bookA") 300 [] d'
         = (Responded 200
              (H_position
                 {| positionJSON.timestamp := 100;
                    positionJSON.document := "bookA";
                    positionJSON.progress := JString "42";
                    positionJSON.device := "phone";
                    positionJSON.percentage := 25;
                    positionJSON.device_id := "phone" |}), d'))
  /\ (exists d',
         serve (Some alice)
               (PUT_syncs_progress (Some (push_body "bookA" (JString "p7") "phone" 25)))
               100 [] d
         = (Responded 200 (H_reply {| replyPosition.Timestamp := 100;
                                      replyPosition.DocumentID := "bookA" |}), d')
         /\ serve (Some alice) (GET_syncs_progress "bookA") 300 [] d'
            = (Responded 200
                 (H_position
                    {| positionJSON.timestamp := 100;
                       positionJSON.document := "bookA";
                       positionJSON.progress := JString "p7";
                       positionJSON.device := "phone";
                       positionJSON.percentage := 25;
                       positionJSON.device_id := "phone" |}), d')).
Proof.
  cbv zeta. split.
  - apply (progress_round_trip
             (headers "alice" "s3cret")
             (push_body "bookA" (JNumber "42") "phone" 25) "42" 100 300
             (reached alice_registered)).
    + reflexivity.
    + reflexivity.
    + discriminate.
    + right. exists 42. split; [| split; reflexivity].
      unfold strconv.minInt64, strconv.maxInt64. lia.
  - apply (progress_round_trip
             (headers "alice" "s3cret")
             (push_body "bookA" (JString "p7") "phone" 25) "p7" 100 300
             (reached alice_registered)).
    + reflexivity.
    + reflexivity.
    + discriminate.
    + left. split; [reflexivity | discriminate].
Defined.

Lemma register_twice_witness :
  let nobody := Some (headers "" "") in
  let d1 := snd (serve nobody (register_request "alice" "s3cret") 1 [] initDB) in
  serve nobody (register_request "alice" "s3cret") 1 [] initDB
  = (Responded 201 (H_username "alice"), d1)
  /\ sql.select_user d1 "alice"
     = [ {| dbUser.Username := "alice"; dbUser.Password := "s3cret" |} ]
  /\ serve nobody (register_request "alice" "other") 2 [] d1
     = (Responded 403 (H_error 2002 "Username is already registered."), d1).
Proof.
  cbv zeta.
  set (nobody := Some (headers "" "")).
  set (d1 := snd (serve nobody (register_request "alice" "s3cret") 1 []
                        initDB)).
  assert (serve nobody (register_request "alice" "s3cret") 1 [] initDB
          = (Responded 201 (H_username "alice"), d1)) as Hs by reflexivity.
  destruct (register_twice_keeps_first_password
              nobody "alice" "s3cret" 1 initDB d1 Hs []) as [Hrow Hsecond].
  split; [exact Hs |]. split; [exact Hrow |].
  destruct (Hsecond (headers "" "") "other" 2 []) as [Hdb Hresp].
  specialize (Hresp eq_refl ltac:(discriminate)).
  apply injective_projections; [exact Hresp | exact Hdb].
Defined.

Lemma pull_empty_result_witness :
  let alice := headers "alice" "s3cret" in
  let d := reached alice_pushed in
  serve (Some alice) (GET_syncs_progress "bookB") 300 [] d
  = (Responded 200 H_empty, d)
  /\ serve (Some alice) (GET_syncs_progress "bookA") 300 [false; true] d
     = (Responded 200 H_empty, d)
  /\ serve (Some alice)
           (PUT_syncs_progress (Some (push_body "bookA" (JString "11") "phone" 26)))
           300 [false; false; true] d
     = (ProcessExited, d).
Proof.
  cbv zeta.
  destruct (pull_empty_result_and_storage_failures
              alice_pushed (headers "alice" "s3cret") "bookB" 300)
    as (Hnever & _ & _).
  destruct (pull_empty_result_and_storage_failures
              alice_pushed (headers "alice" "s3cret") "bookA" 300)
    as (_ & Hpull & Hpush).
  split; [| split].
  - apply Hnever.
    + reflexivity.
    + discriminate.
    + intros a [<- | [<- | []]]; cbn.
      * intros [].
      * intros [_ Hdoc]. discriminate Hdoc.
  - apply Hpull; [reflexivity | discriminate].
  - apply (Hpush (reached alice_pushed)
                 (push_body "bookA" (JString "11") "phone" 26)
                 {| requestPosition.Timestamp := 0;
                    requestPosition.DocumentID := "bookA";
                    requestPosition.Progress := {| stringOrInt.inner := "11" |};
                    requestPosition.Device := "phone";
                    requestPosition.Percentage := 26;
                    requestPosition.DeviceID := "phone" |}
                 false []).
    + reflexivity.
    + reflexivity.
    + reflexivity.
    + discriminate.
    + discriminate.
Defined.


(** * Further properties of the server *)

(** ** What a request can do to the database *)

Section Effects.

Lemma gate_true_credential (header : requestHeader.t) (faults : list bool)
      (d : DB) :
  gate header faults d = true ->
  validKeyField (requestHeader.AuthUser header) = true
  /\ requestHeader.AuthKey header <> ""
  /\ exists cred rest,
      sql.select_user d (requestHeader.AuthUser header) = cred :: rest
      /\ dbUser.Password cred = requestHeader.AuthKey header.
Proof.
  intros Hg. destruct (first_fault faults) eqn:Hf;
    [now rewrite gate_storage_failure in Hg |].
  unfold gate, getDBUser_result in Hg. rewrite Hf in Hg.
  apply andb_true_iff in Hg. destruct Hg as [Hg Hrow].
  apply andb_true_iff in Hg. destruct Hg as [Hv Hk].
  apply length_pos_nonempty in Hk.
  destruct (sql.select_user d (requestHeader.AuthUser header))
    as [| cred rest]; cbn [fst snd negb andb] in Hrow; [discriminate Hrow |].
  apply String.eqb_eq in Hrow. repeat split; trivial.
  now exists cred, rest.
Qed.

(** The three things a request served alone can do: leave the database,
    insert the credential of a successful registration, or write the
    position of a successful push. *)
Lemma serve_effect (hdr : option requestHeader.t) (r : request) (now : Z)
      (faults : list bool) (d : DB) :
  snd (serve hdr r now faults d) = d
  \/ (exists header rUser,
         hdr = Some header
         /\ r = POST_users_create (Some rUser)
         /\ requestUser.Username rUser <> ""
         /\ requestUser.Password rUser <> ""
         /\ sql.select_user d (requestUser.Username rUser) = []
         /\ serve hdr r now faults d
            = (Responded 201 (H_username (requestUser.Username rUser)),
               sql.insert_user d (requestUser.Username rUser)
                               (requestUser.Password rUser)))
  \/ (exists header b rPos,
         hdr = Some header
         /\ r = PUT_syncs_progress (Some b)
         /\ ShouldBindJSON_requestPosition (Some b) = Some rPos
         /\ gate header faults d = true
         /\ validKeyField (requestPosition.DocumentID rPos) = true
         /\ stringOrInt.inner (requestPosition.Progress rPos) <> ""
         /\ requestPosition.Device rPos <> ""
         /\ serve hdr r now faults d
            = (Responded 200
                 (H_reply {| replyPosition.Timestamp := now;
                             replyPosition.DocumentID :=
                               requestPosition.DocumentID rPos |}),
               written (existDoc_result (first_fault (rest_faults faults)) d
                          (requestHeader.AuthUser header)
                          (requestPosition.DocumentID rPos))
                       d (requestHeader.AuthUser header) rPos now)).
Proof.
  destruct hdr as [header |]; [| now left].
  destruct (accepts header) eqn:Ha;
    [| rewrite serve_not_accepted by assumption; now left].
  destruct r as [| [rUser |] | | doc | [b |]].
  - rewrite serve_accepted by assumption. now left.
  - rewrite serve_register by assumption. unfold register_served.
    destruct (String.eqb (requestUser.Username rUser) "") eqn:Hu;
      [now left |].
    destruct (String.eqb (requestUser.Password rUser) "") eqn:Hp;
      [now left |]. cbn [orb].
    unfold getDBUser_result.
    destruct (first_fault faults); cbn [snd]; [now left |].
    destruct (sql.select_user d (requestUser.Username rUser)) eqn:Hsel;
      cbn [snd]; [| now left].
    destruct (first_fault (rest_faults faults)); [now left |].
    right. left. apply String.eqb_neq in Hu, Hp.
    now exists header, rUser.
  - rewrite serve_accepted by assumption. now left.
  - destruct (gate header faults d) eqn:Hg;
      [rewrite serve_authorize by assumption
      | rewrite serve_unauthorized by easy]; now left.
  - destruct (gate header faults d) eqn:Hg;
      [| rewrite serve_unauthorized by easy; now left].
    rewrite serve_accepted by assumption. cbn [route].
    rewrite run_AuthRequired, Hg. unfold getProgress.
    destruct (ShouldBindUri_requestDocid doc); [| now left].
    rewrite run_bind. unfold getDBPosition.
    rewrite exec_bind, exec_storage_call by reflexivity. cbn [perform fst snd].
    destruct (first_fault _); [now left |].
    destruct (sql.order_by_timestamp_desc _); now left.
  - destruct (gate header faults d) eqn:Hg;
      [| rewrite serve_unauthorized by easy; now left].
    rewrite serve_updateProgress by assumption. unfold updateProgress_served.
    destruct (ShouldBindJSON_requestPosition (Some b)) as [rPos |] eqn:Hb;
      [| now left].
    destruct (validKeyField (requestPosition.DocumentID rPos)) eqn:Hv;
      cbn [negb]; [| now left].
    destruct (String.eqb (stringOrInt.inner (requestPosition.Progress rPos)) "")
             eqn:Hp; [now left |].
    destruct (String.eqb (requestPosition.Device rPos) "") eqn:Hdev;
      [now left |]. cbn [orb].
    destruct (first_fault (rest_faults (rest_faults faults))); [now left |].
    right. right. apply String.eqb_neq in Hp, Hdev.
    exists header, b, rPos. repeat split; trivial.
  - destruct (gate header faults d) eqn:Hg;
      [| rewrite serve_unauthorized by easy; now left].
    rewrite serve_updateProgress by assumption. now left.
Qed.

Lemma written_user_table (exists_ : bool) (d : DB) (username : string)
      (rPos : requestPosition.t) (now : Z) :
  user (written exists_ d username rPos now) = user d.
Proof. now destruct exists_. Qed.

End Effects.

(** X1: a request changes the database only when it is answered with
    success: a registration answered 201 with the username, or a push
    answered 200 with {timestamp, document}.  Every other outcome (an
    error response, the answer to a panic, a pull, the exit of the
    process) leaves both tables exactly as they were. *)
Theorem only_success_writes (hdr : option requestHeader.t) (r : request)
        (now : Z) (faults : list bool) (d : DB) :
  (forall username,
      fst (serve hdr r now faults d) <> Responded 201 (H_username username)) ->
  (forall reply,
      fst (serve hdr r now faults d) <> Responded 200 (H_reply reply)) ->
  snd (serve hdr r now faults d) = d.
Proof.
  intros Hreg Hpush.
  destruct (serve_effect hdr r now faults d)
    as [Hsame | [(header & rUser & _ & _ & _ & _ & _ & Hs)
                | (header & b & rPos & _ & _ & _ & _ & _ & _ & _ & Hs)]];
    trivial.
  - exfalso. apply (Hreg (requestUser.Username rUser)). now rewrite Hs.
  - exfalso. eapply Hpush. rewrite Hs. reflexivity.
Qed.

(** X2: the GET routes (health check, probe, pull) never write, whatever
    the credentials and the storage do; a registration never touches the
    table of positions and a push never touches the table of credentials. *)
Theorem routes_write_only_their_table (hdr : option requestHeader.t)
        (r : request) (now : Z) (faults : list bool) (d : DB) :
  let d' := snd (serve hdr r now faults d) in
  match r with
  | GET_healthcheck | GET_users_auth | GET_syncs_progress _ => d' = d
  | POST_users_create _ => document d' = document d
  | PUT_syncs_progress _ => user d' = user d
  end.
Proof.
  intros d'. subst d'.
  destruct (serve_effect hdr r now faults d)
    as [Hsame | [(header & rUser & _ & -> & _ & _ & _ & Hs)
                | (header & b & rPos & _ & -> & _ & _ & _ & _ & _ & Hs)]].
  - rewrite Hsame. now destruct r.
  - now rewrite Hs.
  - rewrite Hs. cbn [snd]. apply written_user_table.
Qed.

(** ** Invariants of the databases the server reaches *)

Section Invariants.

Lemma serve_well_formed (hdr : option requestHeader.t) (r : request)
      (now : Z) (faults : list bool) (d : DB) :
  well_formed d -> well_formed (snd (serve hdr r now faults d)).
Proof.
  intros [Hcred Hrows].
  destruct (serve_effect hdr r now faults d)
    as [-> | [(header & rUser & _ & _ & Hu & Hp & _ & ->)
             | (header & b & rPos & _ & _ & _ & Hg & Hv & Hprog & Hdev & ->)]];
    cbn [snd].
  - now split.
  - split.
    + intros cred Hin. cbn [sql.insert_user user] in Hin.
      apply in_app_or in Hin. destruct Hin as [Hin | [<- | []]]; auto.
    + intros row Hin. cbn [sql.insert_user document user] in *.
      destruct (Hrows row Hin) as (H1 & H2 & H3 & H4 & cred & Hc & Hcu).
      repeat split; trivial. exists cred. split; trivial.
      apply in_or_app. now left.
  - apply gate_true_credential in Hg.
    destruct Hg as (Hvu & _ & cred & rest & Hsel & _).
    assert (In cred (user d)
            /\ dbUser.Username cred = requestHeader.AuthUser header)
      as [Hcin Hcu].
    { assert (In cred (sql.select_user d (requestHeader.AuthUser header)))
        as Hc by (rewrite Hsel; now left).
      apply filter_In in Hc. destruct Hc as [Hc Heq].
      now apply String.eqb_eq in Heq. }
    split; [now rewrite written_user_table |].
    intros row Hin. rewrite written_user_table.
    unfold written in Hin.
    destruct (existDoc_result _ d _ _);
      cbn [sql.update_document sql.insert_document document] in Hin.
    + apply in_map_iff in Hin. destruct Hin as (r0 & Hf & Hin0).
      destruct (Hrows r0 Hin0) as (H1 & H2 & H3 & H4 & Hown).
      destruct (sql.document_key _ _ r0); subst row; [| now repeat split].
      cbn [sql.set_columns dbDocument.Username dbDocument.DocumentID
           dbDocument.Progress dbDocument.Device]. now repeat split.
    + apply in_app_or in Hin. destruct Hin as [Hin | [<- | []]]; auto.
      cbn [dbDocument.Username dbDocument.DocumentID dbDocument.Progress
           dbDocument.Device].
      repeat split; trivial. now exists cred.
Qed.

Lemma serve_all_well_formed (l : list arrival) :
  forall d, well_formed d -> well_formed (snd (serve_all l d)).
Proof.
  induction l as [| a l IH]; intros d Hd; cbn [serve_all]; trivial.
  pose proof (serve_well_formed (a_header a) (a_request a) (a_now a)
                                (a_faults a) d Hd) as Hd'.
  destruct (serve (a_header a) (a_request a) (a_now a) (a_faults a) d)
    as [s d'].
  cbn [snd] in Hd'. destruct s; trivial.
  specialize (IH d' Hd'). now destruct (serve_all l d').
Qed.

(** Where the rows of the table of positions come from. *)
Lemma serve_row_origin (a : arrival) (d : DB) (row : dbDocument.t) :
  In row (document (snd (serve (a_header a) (a_request a) (a_now a)
                               (a_faults a) d))) ->
  In row (document d)
  \/ (pushes_key (dbDocument.Username row) (dbDocument.DocumentID row) a
      /\ dbDocument.Timestamp row = a_now a).
Proof.
  destruct (serve_effect (a_header a) (a_request a) (a_now a) (a_faults a) d)
    as [-> | [(header & rUser & _ & _ & _ & _ & _ & ->)
             | (header & b & rPos & Hh & Hr & Hb & _ & _ & _ & _ & ->)]];
    cbn [snd]; auto.
  destruct (bound_fields b rPos Hb) as (_ & Hdoc & _).
  unfold pushes_key. rewrite Hh, Hr. unfold written.
  destruct (existDoc_result _ d _ _);
    cbn [sql.update_document sql.insert_document document]; intros Hin.
  - apply in_map_iff in Hin. destruct Hin as (r0 & Hf & Hin0).
    destruct (sql.document_key _ _ r0) eqn:Hk; subst row; [| now left].
    apply document_key_true in Hk. destruct Hk as [Hu Hd].
    right. cbn [sql.set_columns dbDocument.Username dbDocument.DocumentID
                dbDocument.Timestamp].
    rewrite Hu, Hd, Hdoc. now repeat split.
  - apply in_app_or in Hin. destruct Hin as [Hin | [<- | []]]; [now left |].
    right. cbn [dbDocument.Username dbDocument.DocumentID
                dbDocument.Timestamp].
    rewrite Hdoc. now repeat split.
Qed.

Lemma serve_all_row_origin (l : list arrival) :
  forall d row,
    In row (document (snd (serve_all l d))) ->
    In row (document d)
    \/ exists a,
        In a l
        /\ pushes_key (dbDocument.Username row) (dbDocument.DocumentID row) a
        /\ dbDocument.Timestamp row = a_now a.
Proof.
  induction l as [| a l IH]; intros d row; cbn [serve_all]; auto.
  pose proof (serve_row_origin a d) as Hstep.
  destruct (serve (a_header a) (a_request a) (a_now a) (a_faults a) d)
    as [s d'].
  cbn [snd] in Hstep.
  assert (In row (document d') ->
          In row (document d)
          \/ exists x, In x (a :: l)
                       /\ pushes_key (dbDocument.Username row)
                                     (dbDocument.DocumentID row) x
                       /\ dbDocument.Timestamp row = a_now x) as Hhere.
  { intros Hin. destruct (Hstep row Hin) as [Hold | Hnew]; [now left |].
    right. exists a. split; [now left | exact Hnew]. }
  destruct s; [| exact Hhere].
  specialize (IH d' row). destruct (serve_all l d') as [ss d''].
  cbn [snd] in *. intros Hin.
  destruct (IH Hin) as [Hmid | (x & Hx & Hkey)]; [now apply Hhere |].
  right. exists x. split; [now right | exact Hkey].
Qed.

(** The user table only grows, at its end. *)
Lemma serve_user_table_grows (hdr : option requestHeader.t) (r : request)
      (now : Z) (faults : list bool) (d : DB) :
  exists more, user (snd (serve hdr r now faults d)) = (user d ++ more)%list.
Proof.
  destruct (serve_effect hdr r now faults d)
    as [-> | [(header & rUser & _ & _ & _ & _ & _ & ->)
             | (header & b & rPos & _ & _ & _ & _ & _ & _ & _ & ->)]];
    cbn [snd].
  - exists []. now rewrite app_nil_r.
  - now eexists.
  - exists []. now rewrite written_user_table, app_nil_r.
Qed.

Lemma serve_all_user_table_grows (l : list arrival) :
  forall d, exists more, user (snd (serve_all l d)) = (user d ++ more)%list.
Proof.
  induction l as [| a l IH]; intros d; cbn [serve_all].
  - exists []. now rewrite app_nil_r.
  - destruct (serve_user_table_grows (a_header a) (a_request a) (a_now a)
                                     (a_faults a) d) as [m1 H1].
    destruct (serve (a_header a) (a_request a) (a_now a) (a_faults a) d)
      as [s d'].
    cbn [snd] in H1. destruct s; [| now exists m1].
    destruct (IH d') as [m2 H2]. destruct (serve_all l d') as [ss d''].
    cbn [snd] in *. exists (m1 ++ m2)%list. now rewrite H2, H1, app_assoc.
Qed.

(** The gate looks at the first credential row of the username, which rows
    added at the end do not displace. *)
Lemma gate_after_growth (header : requestHeader.t) (faults : list bool)
      (d d' : DB) (more : list dbUser.t) :
  user d' = (user d ++ more)%list ->
  sql.select_user d (requestHeader.AuthUser header) <> [] ->
  gate header faults d' = gate header faults d.
Proof.
  intros Hgrow Hrow. unfold gate, getDBUser_result.
  replace (sql.select_user d' (requestHeader.AuthUser header))
    with (sql.select_user d (requestHeader.AuthUser header)
          ++ filter (fun r => String.eqb (dbUser.Username r)
                                         (requestHeader.AuthUser header))
                    more)%list
    by (unfold sql.select_user; now rewrite Hgrow, filter_app).
  now destruct (sql.select_user d (requestHeader.AuthUser header)).
Qed.

End Invariants.

(** X3: every row in a database the server reaches is a row the handlers
    let in: a credential has a non-empty username and password; a position
    has a username and a document id that are valid key fields (non-empty,
    no ':'), a non-empty progress and device, and an owner with a
    credential row. *)
Theorem reached_databases_well_formed (history : list arrival) :
  well_formed (reached history).
Proof.
  apply serve_all_well_formed. split; intros x [].
Qed.

(** X4: every stored position stems from a push in the history: a PUT by
    the row's user, for the row's document, and the row carries the clock
    reading of the server at that push (never a value sent by a client). *)
Theorem stored_rows_stem_from_pushes (history : list arrival)
        (row : dbDocument.t) :
  In row (document (reached history)) ->
  exists a,
    In a history
    /\ pushes_key (dbDocument.Username row) (dbDocument.DocumentID row) a
    /\ dbDocument.Timestamp row = a_now a.
Proof.
  intros Hin.
  destruct (serve_all_row_origin history initDB row Hin) as [[] | Hex].
  exact Hex.
Qed.

(** X5: no request changes or removes a credential: the table of users
    only grows at its end, so once a username has a row the keys accepted
    for it stay the same, whatever is served afterwards. *)
Theorem accepted_keys_never_change (header : requestHeader.t)
        (faults : list bool) (later : list arrival) (d : DB) :
  sql.select_user d (requestHeader.AuthUser header) <> [] ->
  (exists more, user (snd (serve_all later d)) = (user d ++ more)%list)
  /\ (passes_gate header faults (snd (serve_all later d))
      <-> passes_gate header faults d).
Proof.
  intros Hrow.
  destruct (serve_all_user_table_grows later d) as [more Hgrow].
  split; [now exists more |].
  rewrite !passes_gate_iff.
  now rewrite (gate_after_growth header faults d _ more Hgrow Hrow).
Qed.

(** ** Pull: the newest row of the key *)

Section NewestRow.

Lemma insert_desc_perm (r : dbDocument.t) (l : list dbDocument.t) :
  Permutation (r :: l) (sql.insert_desc r l).
Proof.
  induction l as [| x l IH]; cbn [sql.insert_desc]; [apply Permutation_refl |].
  destruct (dbDocument.Timestamp x <=? dbDocument.Timestamp r);
    [apply Permutation_refl |].
  eapply perm_trans; [apply perm_swap |]. now apply perm_skip.
Qed.

Lemma order_by_perm (l : list dbDocument.t) :
  Permutation l (sql.order_by_timestamp_desc l).
Proof.
  unfold sql.order_by_timestamp_desc.
  induction l as [| x l IH]; cbn [fold_right]; [apply perm_nil |].
  eapply perm_trans; [apply perm_skip, IH | apply insert_desc_perm].
Qed.

Lemma insert_desc_sorted (r : dbDocument.t) (l : list dbDocument.t) :
  StronglySorted newer_first l ->
  StronglySorted newer_first (sql.insert_desc r l).
Proof.
  induction 1 as [| x l Hsorted IH Hall]; cbn [sql.insert_desc].
  - constructor; constructor.
  - destruct (dbDocument.Timestamp x <=? dbDocument.Timestamp r) eqn:E.
    + apply Z.leb_le in E. constructor; [now constructor |].
      constructor; [exact E |].
      rewrite Forall_forall in *. intros y Hy. specialize (Hall y Hy).
      unfold newer_first in *. lia.
    + apply Z.leb_gt in E. constructor; trivial.
      rewrite Forall_forall in *. intros y Hy.
      apply insert_desc_In in Hy. destruct Hy as [-> | Hy]; auto.
      unfold newer_first. lia.
Qed.

Lemma order_by_sorted (l : list dbDocument.t) :
  StronglySorted newer_first (sql.order_by_timestamp_desc l).
Proof.
  unfold sql.order_by_timestamp_desc.
  induction l as [| x l IH]; cbn [fold_right]; [constructor |].
  now apply insert_desc_sorted.
Qed.

(** The first row of the ordered result is a row of the result with the
    greatest timestamp. *)
Lemma order_by_first (l : list dbDocument.t) (row : dbDocument.t)
      (rest : list dbDocument.t) :
  sql.order_by_timestamp_desc l = row :: rest ->
  In row l
  /\ forall other, In other l ->
                   dbDocument.Timestamp other <= dbDocument.Timestamp row.
Proof.
  intros E. pose proof (order_by_perm l) as Hperm.
  pose proof (order_by_sorted l) as Hsorted. rewrite E in *.
  split.
  - eapply Permutation_in; [apply Permutation_sym, Hperm | now left].
  - intros other Hin.
    apply (Permutation_in _ Hperm) in Hin. destruct Hin as [<- | Hin]; [lia |].
    inversion Hsorted as [| ? ? _ Hall]. subst.
    rewrite Forall_forall in Hall. exact (Hall other Hin).
Qed.

Lemma serve_all_keeps_other_keys (l : list arrival)
      (username documentid : string) :
  (forall a, In a l -> ~ pushes_key username documentid a) ->
  forall d,
    sql.select_document (snd (serve_all l d)) username documentid
    = sql.select_document d username documentid.
Proof.
  induction l as [| a l IH]; intros Hnone d; cbn [serve_all]; trivial.
  pose proof (serve_keeps_other_keys a d username documentid
                                     (Hnone a (or_introl eq_refl))) as Hk.
  destruct (serve (a_header a) (a_request a) (a_now a) (a_faults a) d)
    as [s d'].
  cbn [snd] in Hk. destruct s; trivial.
  assert (forall x, In x l -> ~ pushes_key username documentid x) as Hl
      by (intros x Hx; apply Hnone; now right).
  specialize (IH Hl d'). destruct (serve_all l d').
  cbn [snd] in *. now rewrite IH.
Qed.

Lemma map_const_repeat {A B : Type} (x : B) (l : list A) :
  map (fun _ => x) l = repeat x (List.length l).
Proof. induction l as [| a l IH]; cbn; now rewrite ?IH. Qed.

Lemma passes_gate_persists (header : requestHeader.t) (faults : list bool)
      (later : list arrival) (d : DB) :
  passes_gate header faults d ->
  passes_gate header faults (snd (serve_all later d)).
Proof.
  rewrite !passes_gate_iff. intros [Ha Hg]. split; trivial.
  destruct (serve_all_user_table_grows later d) as [more Hgrow].
  rewrite (gate_after_growth header faults d _ more Hgrow); trivial.
  apply gate_true_credential in Hg.
  destruct Hg as (_ & _ & cred & rest & -> & _). discriminate.
Qed.

End NewestRow.

(** X6: a pull answers {} exactly when the key has no row; otherwise it
    answers with the fields of a row of the key whose timestamp is the
    greatest among the rows of the key (the query orders by timestamp,
    descending, and the first row is taken), under the document id of the
    request. *)
Theorem pull_returns_newest_row (header : requestHeader.t)
        (documentid : string) (now : Z) (d : DB) :
  let rows :=
    sql.select_document d (requestHeader.AuthUser header) documentid in
  passes_gate header [] d -> documentid <> "" ->
  (rows = [] ->
   serve (Some header) (GET_syncs_progress documentid) now [] d
   = (Responded 200 H_empty, d))
  /\ (rows <> [] ->
      exists row,
        In row rows
        /\ (forall other, In other rows ->
                          dbDocument.Timestamp other
                          <= dbDocument.Timestamp row)
        /\ serve (Some header) (GET_syncs_progress documentid) now [] d
           = (Responded 200
                (H_position
                   {| positionJSON.timestamp := dbDocument.Timestamp row;
                      positionJSON.document := documentid;
                      positionJSON.progress :=
                        JString (dbDocument.Progress row);
                      positionJSON.device := dbDocument.Device row;
                      positionJSON.percentage := dbDocument.Percentage row;
                      positionJSON.device_id := dbDocument.DeviceID row |}),
              d)).
Proof.
  intros rows Hgate Hdoc.
  apply passes_gate_iff in Hgate. destruct Hgate as [Ha Hg].
  rewrite serve_getProgress by assumption. unfold getProgress_served.
  cbn [rest_faults first_fault next_fault fst snd]. fold rows.
  split.
  - now intros ->.
  - intros Hne.
    destruct (sql.order_by_timestamp_desc rows) as [| row rest] eqn:E.
    + apply (f_equal (@List.length _)) in E. rewrite order_by_length in E.
      destruct rows; [congruence | discriminate E].
    + destruct (order_by_first rows row rest E) as [Hin Hmax].
      exists row. now repeat split.
Qed.

(** X7: what a successful push does to any database, also one that holds
    several rows for the key: every row of the key becomes the pushed row
    (one row is inserted if there was none), no row is added to or removed
    from a key that has rows, the rows of every other key and the table of
    users stay as they were. *)
Theorem push_rewrites_the_rows_of_its_key
        (hdr : option requestHeader.t) (b : positionBody.t) (now : Z)
        (d d' : DB) (reply : replyPosition.t) :
  serve hdr (PUT_syncs_progress (Some b)) now [] d
  = (Responded 200 (H_reply reply), d') ->
  exists header rPos,
    hdr = Some header
    /\ ShouldBindJSON_requestPosition (Some b) = Some rPos
    /\ sql.select_document d' (requestHeader.AuthUser header)
                           (positionBody.document b)
       = repeat (pushed_row (requestHeader.AuthUser header) rPos now)
                (Nat.max 1
                   (List.length
                      (sql.select_document d (requestHeader.AuthUser header)
                                           (positionBody.document b))))
    /\ (forall username documentid,
           ~ (requestHeader.AuthUser header = username
              /\ positionBody.document b = documentid) ->
           sql.select_document d' username documentid
           = sql.select_document d username documentid)
    /\ user d' = user d.
Proof.
  intros Hs.
  destruct (push_effect _ _ _ _ _ _ Hs)
    as (header & rPos & -> & _ & _ & Hb & _ & _ & ->).
  destruct (bound_fields b rPos Hb) as (_ & Hdoc & _).
  exists header, rPos. split; trivial. split; trivial.
  destruct (select_after_written d (requestHeader.AuthUser header) rPos now)
    as [Hsel Huser].
  rewrite Hdoc in *. split; [| split; trivial].
  - rewrite Hsel.
    destruct (sql.select_document d _ _) as [| x l]; trivial.
    rewrite map_const_repeat. reflexivity.
  - intros username documentid Hother.
    apply written_other_key. now rewrite Hdoc.
Qed.

(** X8: what a user pulls for a document is decided by that user's pushes
    for that document alone: after any sequence of requests without such a
    push (registrations, pulls, pushes of other users or for other
    documents, with or without storage failures) the pull is answered as
    before. *)
Theorem pull_unaffected_by_other_requests
        (header : requestHeader.t) (documentid : string)
        (later : list arrival) (t t' : Z) (d : DB) :
  passes_gate header [] d -> documentid <> "" ->
  (forall a, In a later ->
             ~ pushes_key (requestHeader.AuthUser header) documentid a) ->
  fst (serve (Some header) (GET_syncs_progress documentid) t' []
             (snd (serve_all later d)))
  = fst (serve (Some header) (GET_syncs_progress documentid) t [] d).
Proof.
  intros Hgate Hdoc Hnone.
  pose proof Hgate as Hgate0.
  apply passes_gate_iff in Hgate. destruct Hgate as [Ha Hg].
  assert (passes_gate header [] (snd (serve_all later d))) as Hgate'
      by now apply passes_gate_persists.
  apply passes_gate_iff in Hgate'. destruct Hgate' as [_ Hg'].
  rewrite !serve_getProgress by assumption. cbn [fst].
  unfold getProgress_served.
  now rewrite serve_all_keeps_other_keys.
Qed.

(** ** Registration, and the storage failing under a write *)

Section Registration.

Lemma register_succeeded (hdr : option requestHeader.t)
      (username password : string) (now : Z) (d d1 : DB) :
  serve hdr
        (POST_users_create
           (Some {| requestUser.Username := username;
                    requestUser.Password := password |}))
        now [] d
  = (Responded 201 (H_username username), d1) ->
  username <> "" /\ password <> ""
  /\ sql.select_user d username = []
  /\ d1 = sql.insert_user d username password.
Proof.
  intros Hs. destruct hdr as [header |];
    [| rewrite serve_unbound_header in Hs; discriminate Hs].
  destruct (accepts header) eqn:Ha;
    [| rewrite serve_not_accepted in Hs by assumption; discriminate Hs].
  rewrite serve_register in Hs by assumption.
  unfold register_served, getDBUser_result in Hs.
  cbn [requestUser.Username requestUser.Password first_fault rest_faults
       next_fault fst snd] in Hs.
  destruct (String.eqb username "") eqn:Hu; [discriminate Hs |].
  destruct (String.eqb password "") eqn:Hp; cbn [orb] in Hs;
    [discriminate Hs |].
  destruct (sql.select_user d username) eqn:Hsel; cbn [snd] in Hs;
    [| discriminate Hs].
  injection Hs as <-. apply String.eqb_neq in Hu, Hp. now repeat split.
Qed.

(** An UPDATE that matches no row leaves the database as it is. *)
Lemma update_without_rows (d : DB) (perc : float64)
      (prog device devid : string) (time : Z) (usr docid : string) :
  sql.select_document d usr docid = [] ->
  sql.update_document d perc prog device devid time usr docid = d.
Proof.
  intros Hnone. unfold sql.update_document. destruct d as [users rows].
  cbn [user document] in *. f_equal.
  unfold sql.select_document in Hnone. cbn [document] in Hnone.
  rewrite <- (map_id rows) at 2. apply map_ext_in. intros r Hr.
  destruct (sql.document_key usr docid r) eqn:Hk; trivial.
  assert (In r (filter (sql.document_key usr docid) rows)) as Hin
      by (apply filter_In; now split).
  rewrite Hnone in Hin. destruct Hin.
Qed.

End Registration.

(** X9: registration and the gate fit together.  After register(u, p) is
    answered 201, and whatever is served afterwards, the probe with (u, p)
    is acknowledged provided u holds no ':', and every request behind the
    gate that presents another key for u is answered Unauthorized. *)
Theorem registered_credentials_open_the_gate
        (hdr : option requestHeader.t) (username password : string)
        (now : Z) (d d1 : DB) :
  serve hdr
        (POST_users_create
           (Some {| requestUser.Username := username;
                    requestUser.Password := password |}))
        now [] d
  = (Responded 201 (H_username username), d1) ->
  forall (later : list arrival) (t : Z),
    let d2 := snd (serve_all later d1) in
    ((forall n, String.get n username <> Some ":"%char) ->
     serve (Some (headers username password)) GET_users_auth t [] d2
     = (Responded 200 H_authorized_OK, d2))
    /\ (forall (key : string) (r : request) (faults : list bool),
           key <> password -> protected r = true ->
           serve (Some (headers username key)) r t faults d2
           = (Responded 401 (H_error 2001 "Unauthorized"), d2)).
Proof.
  intros Hs later t d2.
  destruct (register_succeeded _ _ _ _ _ _ Hs) as (Hu & Hp & Hnone & ->).
  assert (sql.select_user d2 username
          = [ {| dbUser.Username := username; dbUser.Password := password |} ])
    as Hrow.
  { apply serve_all_keeps_credential.
    now rewrite select_user_after_insert, Hnone, String.eqb_refl. }
  split.
  - intros Hcolon. apply serve_authorize; [reflexivity |].
    unfold gate, getDBUser_result.
    cbn [headers requestHeader.AuthUser requestHeader.AuthKey first_fault
         next_fault fst].
    rewrite Hrow. cbn [fst snd negb dbUser.Password].
    rewrite String.eqb_refl.
    assert (validKeyField username = true) as ->
        by (now apply validKeyField_spec).
    now apply length_pos_nonempty in Hp as ->.
  - intros key r faults Hkey Hprot.
    apply serve_unauthorized; [reflexivity | assumption |].
    destruct (first_fault faults) eqn:Hf;
      [now apply gate_storage_failure |].
    unfold gate, getDBUser_result.
    cbn [headers requestHeader.AuthUser requestHeader.AuthKey].
    rewrite Hf, Hrow. cbn [fst snd negb dbUser.Password].
    apply String.eqb_neq in Hkey. rewrite Hkey. now rewrite !andb_false_r.
Qed.

(** X10: when the existence query of a push fails, [existDoc] answers
    "exists" and the push takes the UPDATE branch.  If the key has rows the
    push works as if nothing had failed; if it has none the UPDATE matches
    nothing: the push is answered 200 with a timestamp, yet the database is
    as before and nothing has been stored. *)
Theorem push_with_failed_existence_query
        (header : requestHeader.t) (b : positionBody.t)
        (rPos : requestPosition.t) (now : Z) (rest : list bool) (d : DB) :
  let rows :=
    sql.select_document d (requestHeader.AuthUser header)
                        (positionBody.document b) in
  let push := PUT_syncs_progress (Some b) in
  passes_gate header [] d ->
  ShouldBindJSON_requestPosition (Some b) = Some rPos ->
  validKeyField (positionBody.document b) = true ->
  stringOrInt.inner (requestPosition.Progress rPos) <> "" ->
  positionBody.device b <> "" ->
  (rows = [] ->
   serve (Some header) push now (false :: true :: false :: rest) d
   = (Responded 200
        (H_reply {| replyPosition.Timestamp := now;
                    replyPosition.DocumentID := positionBody.document b |}),
      d))
  /\ (rows <> [] ->
      serve (Some header) push now (false :: true :: false :: rest) d
      = serve (Some header) push now [] d).
Proof.
  intros rows push Hgate Hb Hv Hprog Hdev.
  apply passes_gate_iff in Hgate. destruct Hgate as [Ha Hg].
  destruct (bound_fields b rPos Hb) as (_ & Hdoc & Hdevice & _).
  assert (gate header (false :: true :: false :: rest) d = true) as Hg'
      by (now rewrite (gate_first_fault header _ [])).
  subst push. rewrite !serve_updateProgress by assumption.
  unfold updateProgress_served. rewrite Hb, Hdoc, Hdevice, Hv.
  rewrite !eqb_empty_false by assumption.
  cbn [negb orb rest_faults first_fault next_fault fst snd].
  unfold existDoc_result, written. fold rows. split.
  - intros Hnone. rewrite Hdoc. f_equal. now apply update_without_rows.
  - intros Hsome. now destruct rows.
Qed.

(** X11: registration when the storage fails.  If the lookup of the
    username fails, [getDBUser] does not report "no rows" and the request
    is answered UsernameAlreadyRegistered, also for a username that is
    free; if the lookup works, the username is free and the insert fails,
    the panic is answered with status 500 and no body.  In both cases the
    database is unchanged. *)
Theorem register_when_storage_fails
        (header : requestHeader.t) (username password : string) (now : Z)
        (rest : list bool) (d : DB) :
  let registration :=
    POST_users_create (Some {| requestUser.Username := username;
                               requestUser.Password := password |}) in
  accepts header = true -> username <> "" -> password <> "" ->
  serve (Some header) registration now (true :: rest) d
  = (Responded 403 (H_error 2002 "Username is already registered."), d)
  /\ (sql.select_user d username = [] ->
      serve (Some header) registration now (false :: true :: rest) d
      = (Responded 500 H_none, d)).
Proof.
  intros registration Ha Hu Hp. subst registration.
  rewrite !serve_register by assumption.
  unfold register_served, getDBUser_result.
  cbn [requestUser.Username requestUser.Password first_fault rest_faults
       next_fault fst snd].
  rewrite !eqb_empty_false by assumption. cbn [orb].
  split; [reflexivity |]. now intros ->.
Qed.

(** X12: the error bodies are a closed set.  Whenever a response carries
    {code, message}, its status, code and message are those of one of the
    seven declared error values; Unauthorized comes from the routes behind
    the gate only, UsernameAlreadyRegistered from registration only,
    DocumentIdNotProvided from push only, and UnknownServerError only from
    a pull whose document parameter is empty. *)
Theorem error_responses_are_declared
        (hdr : option requestHeader.t) (r : request) (now : Z)
        (faults : list bool) (d : DB) (status code : Z) (message : string) :
  fst (serve hdr r now faults d) = Responded status (H_error code message) ->
  In (mkError status code message) declared_errors
  /\ (code = 2001 -> protected r = true)
  /\ (code = 2002 -> exists body, r = POST_users_create body)
  /\ (code = 2004 -> exists body, r = PUT_syncs_progress body)
  /\ (code = 500 -> r = GET_syncs_progress "").
Proof.
  assert (forall s c m (q : request),
             (c = 2001 -> protected q = true) ->
             (c = 2002 -> exists body, q = POST_users_create body) ->
             (c = 2004 -> exists body, q = PUT_syncs_progress body) ->
             (c = 500 -> q = GET_syncs_progress "") ->
             In (mkError s c m) declared_errors ->
             Responded s (H_error c m) = Responded status (H_error code message) ->
             In (mkError status code message) declared_errors
             /\ (code = 2001 -> protected q = true)
             /\ (code = 2002 -> exists body, q = POST_users_create body)
             /\ (code = 2004 -> exists body, q = PUT_syncs_progress body)
             /\ (code = 500 -> q = GET_syncs_progress "")) as Hleaf
      by (intros s c m q ? ? ? ? ? [= <- <- <-]; now repeat split).
  assert (forall s c m, In (mkError s c m) declared_errors
                        <-> (s, c, m) = (400, 100, "Invalid Header")
                            \/ (s, c, m) = (412, 101, "Invalid Accept header format.")
                            \/ (s, c, m) = (500, 500, "Unknown server error.")
                            \/ (s, c, m) = (401, 2001, "Unauthorized")
                            \/ (s, c, m) = (403, 2002, "Username is already registered.")
                            \/ (s, c, m) = (403, 2003, "Invalid Request")
                            \/ (s, c, m) = (403, 2004, "Field 'document' not provided."))
    as Hin.
  { intros s c m. cbn. unfold mkError. split.
    - intros H0. repeat (destruct H0 as [[= <- <- <-] | H0]; [tauto |]).
      destruct H0.
    - intros H0.
      repeat (destruct H0 as [[= -> -> ->] | H0]; [tauto |]).
      injection H0 as -> -> ->. tauto. }
  destruct hdr as [header |].
  2:{ rewrite serve_unbound_header. cbn [fst].
      apply Hleaf; try discriminate. apply Hin. tauto. }
  destruct (accepts header) eqn:Ha.
  2:{ rewrite serve_not_accepted by assumption. cbn [fst].
      apply Hleaf; try discriminate. apply Hin. tauto. }
  destruct r as [| [rUser |] | | doc | body].
  - rewrite serve_accepted by assumption. discriminate.
  - rewrite serve_register by assumption. unfold register_served.
    destruct (_ || _); cbn [fst].
    + apply Hleaf; try discriminate. apply Hin. tauto.
    + destruct (snd (getDBUser_result _ _ _));
        [destruct (first_fault (rest_faults faults)); discriminate |].
      cbn [fst]. apply Hleaf; try discriminate; eauto. apply Hin. tauto.
  - rewrite serve_accepted by assumption. cbn [route run fst respond].
    apply Hleaf; try discriminate. apply Hin. tauto.
  - destruct (gate header faults d) eqn:Hg.
    + rewrite serve_authorize by assumption. discriminate.
    + rewrite serve_unauthorized by easy. cbn [fst].
      apply Hleaf; try discriminate; trivial. apply Hin. tauto.
  - destruct (gate header faults d) eqn:Hg.
    + destruct (String.eqb doc "") eqn:Hdoc.
      * apply String.eqb_eq in Hdoc. subst doc.
        rewrite serve_accepted by assumption. cbn [route].
        rewrite run_AuthRequired, Hg. cbn [fst].
        apply Hleaf; try discriminate; trivial. apply Hin. tauto.
      * apply String.eqb_neq in Hdoc.
        rewrite serve_getProgress by assumption. cbn [fst].
        unfold getProgress_served.
        destruct (first_fault _); [discriminate |].
        destruct (sql.order_by_timestamp_desc _); discriminate.
    + rewrite serve_unauthorized by easy. cbn [fst].
      apply Hleaf; try discriminate; trivial. apply Hin. tauto.
  - destruct (gate header faults d) eqn:Hg.
    + rewrite serve_updateProgress by assumption.
      unfold updateProgress_served.
      destruct (ShouldBindJSON_requestPosition body); cbn [fst].
      * destruct (negb _); cbn [fst].
        { apply Hleaf; try discriminate; eauto. apply Hin. tauto. }
        destruct (_ || _); cbn [fst].
        { apply Hleaf; try discriminate. apply Hin. tauto. }
        destruct (first_fault _); discriminate.
      * apply Hleaf; try discriminate. apply Hin. tauto.
    + rewrite serve_unauthorized by easy. cbn [fst].
      apply Hleaf; try discriminate; trivial. apply Hin. tauto.
Qed.

(** ** The progress field on the wire *)

Section ProgressDecoding.

Import strconv.

Lemma parse_digits_rejects (s : string) :
  forall (n : nat) (c : ascii) (acc : Z),
    String.get n s = Some c -> digit_value c = None ->
    parse_digits s acc = None.
Proof.
  induction s as [| c0 s IH]; intros n c acc Hget Hc; [now destruct n |].
  cbn [parse_digits]. destruct n as [| n]; cbn [String.get] in Hget.
  - injection Hget as ->. now rewrite Hc.
  - destruct (digit_value c0); trivial. eapply IH; eassumption.
Qed.

(** A literal with a character that is neither a digit nor a sign is no
    integer for [ParseInt]. *)
Lemma ParseInt_rejects (lit : string) (n : nat) (c : ascii) :
  String.get n lit = Some c -> digit_value c = None ->
  c <> "-"%char -> c <> "+"%char ->
  ParseInt lit = None.
Proof.
  intros Hget Hc Hminus Hplus. destruct lit as [| c0 s]; trivial.
  unfold ParseInt.
  destruct (Ascii.eqb c0 "-" || Ascii.eqb c0 "+") eqn:Hsign.
  - destruct n as [| n]; cbn [String.get] in Hget.
    + injection Hget as ->. apply orb_true_iff in Hsign.
      destruct Hsign as [E | E]; apply Ascii.eqb_eq in E; contradiction.
    + unfold parse_unsigned. destruct s as [| c1 s']; trivial.
      now rewrite (parse_digits_rejects _ n c 0 Hget Hc).
  - unfold parse_unsigned.
    now rewrite (parse_digits_rejects _ n c 0 Hget Hc).
Qed.

Lemma ParseInt_range (s : string) (i : Z) :
  ParseInt s = Some i -> minInt64 <= i <= maxInt64.
Proof.
  unfold ParseInt. destruct s as [| c s']; [discriminate |].
  destruct (parse_unsigned _) as [n |]; [| discriminate].
  destruct ((minInt64 <=? _) && (_ <=? maxInt64)) eqn:E; [| discriminate].
  intros [= <-]. apply andb_true_iff in E.
  now rewrite !Z.leb_le in E.
Qed.

(** [ParseInt] reads what [Itoa] prints also beyond 64 bits, and then
    reports the range error. *)
Lemma ParseInt_out_of_range (i : Z) :
  i < minInt64 \/ maxInt64 < i -> ParseInt (Itoa i) = None.
Proof.
  intros Hout. unfold Itoa. destruct (i <? 0) eqn:Hneg.
  - apply Z.ltb_lt in Hneg. unfold ParseInt.
    change (Ascii.eqb "-" "-") with true. cbn [orb].
    rewrite parse_format_uint by lia. rewrite Z.opp_involutive.
    destruct (minInt64 <=? i) eqn:E; trivial.
    apply Z.leb_le in E. unfold minInt64, maxInt64 in *. lia.
  - apply Z.ltb_ge in Hneg.
    pose proof (parse_format_uint i Hneg) as Hp. unfold format_uint in *.
    destruct (format_digits_head (digits_bound i) i "") as (dg & s & Hd & E).
    rewrite E in *. unfold ParseInt.
    destruct (digit_char_not_sign dg Hd) as [-> ->]. cbn [orb].
    rewrite Hp. destruct (i <=? maxInt64) eqn:E2.
    + apply Z.leb_le in E2. unfold minInt64, maxInt64 in *. lia.
    + now rewrite andb_false_r.
Qed.

Lemma exponent_and_point_are_no_digits (c : ascii) :
  c = "."%char \/ c = "e"%char \/ c = "E"%char ->
  digit_value c = None /\ c <> "-"%char /\ c <> "+"%char.
Proof. intros [-> | [-> | ->]]; repeat split; discriminate. Qed.

End ProgressDecoding.

(** X13: a progress value that is not a string, null or a decimal 64-bit
    integer does not decode: a boolean, an array, an object, a number
    written with a fraction or an exponent (42.0, 1e3), or an integer
    outside the 64-bit range.  The push is then answered InvalidRequest
    before any field is validated, whatever the document id, and nothing is
    written. *)
Theorem undecodable_progress_rejected
        (header : requestHeader.t) (b : positionBody.t) (v : json)
        (now : Z) (faults : list bool) (d : DB) :
  passes_gate header faults d ->
  positionBody.progress b = Some v ->
  (exists flag, v = JBool flag) \/ v = JArray \/ v = JObject
  \/ (exists lit n c,
         v = JNumber lit /\ String.get n lit = Some c
         /\ (c = "."%char \/ c = "e"%char \/ c = "E"%char))
  \/ (exists i, v = JNumber (strconv.Itoa i)
                /\ (i < strconv.minInt64 \/ strconv.maxInt64 < i)) ->
  stringOrInt.UnmarshalJSON v = None
  /\ serve (Some header) (PUT_syncs_progress (Some b)) now faults d
     = (Responded 403 (H_error 2003 "Invalid Request"), d).
Proof.
  intros Hgate Hprog Hbad.
  assert (stringOrInt.UnmarshalJSON v = None) as Hnone.
  { destruct Hbad as [[flag ->] | [-> | [-> | [(lit & n & c & -> & Hget & Hc)
                                              | (i & -> & Hout)]]]];
      trivial; unfold stringOrInt.UnmarshalJSON, json_pkg.Unmarshal_int,
               json_pkg.Unmarshal_string.
    - destruct (exponent_and_point_are_no_digits c Hc) as (H1 & H2 & H3).
      now rewrite (ParseInt_rejects lit n c).
    - now rewrite ParseInt_out_of_range. }
  split; trivial.
  apply passes_gate_iff in Hgate. destruct Hgate as [Ha Hg].
  rewrite serve_updateProgress by assumption.
  unfold updateProgress_served, ShouldBindJSON_requestPosition.
  now rewrite Hprog, Hnone.
Qed.

(** X14: a progress that is null is not treated as missing.  The decoder
    tries the integer first, null leaves the integer at zero, and the push
    stores the text "0": it is answered 200 and a pull returns progress
    "0".  A body without the progress key is answered InvalidRequest. *)
Theorem null_progress_is_stored_as_zero
        (header : requestHeader.t) (b : positionBody.t)
        (now later : Z) (d : DB) :
  passes_gate header [] d ->
  validKeyField (positionBody.document b) = true ->
  positionBody.device b <> "" ->
  (positionBody.progress b = Some JNull ->
   exists d',
     serve (Some header) (PUT_syncs_progress (Some b)) now [] d
     = (Responded 200
          (H_reply {| replyPosition.Timestamp := now;
                      replyPosition.DocumentID := positionBody.document b |}),
        d')
     /\ serve (Some header) (GET_syncs_progress (positionBody.document b))
              later [] d'
        = (Responded 200
             (H_position
                {| positionJSON.timestamp := now;
                   positionJSON.document := positionBody.document b;
                   positionJSON.progress := JString "0";
                   positionJSON.device := positionBody.device b;
                   positionJSON.percentage := positionBody.percentage b;
                   positionJSON.device_id := positionBody.device_id b |}),
           d'))
  /\ (positionBody.progress b = None ->
      serve (Some header) (PUT_syncs_progress (Some b)) now [] d
      = (Responded 403 (H_error 2003 "Invalid Request"), d)).
Proof.
  intros Hgate Hv Hdev. split.
  - intros Hnull.
    set (rPos := {| requestPosition.Timestamp := positionBody.timestamp b;
                    requestPosition.DocumentID := positionBody.document b;
                    requestPosition.Progress := {| stringOrInt.inner := "0" |};
                    requestPosition.Device := positionBody.device b;
                    requestPosition.Percentage := positionBody.percentage b;
                    requestPosition.DeviceID := positionBody.device_id b |}).
    assert (ShouldBindJSON_requestPosition (Some b) = Some rPos) as Hb
        by (unfold ShouldBindJSON_requestPosition; now rewrite Hnull).
    assert (stringOrInt.inner (requestPosition.Progress rPos) <> "") as Hne
        by discriminate.
    pose proof (push_accepted header b rPos now d Hgate Hb Hv Hne Hdev) as Hs.
    eexists. split; [exact Hs |].
    exact (push_then_pull _ _ _ _ later _ _ _ Hs Hb).
  - intros Habsent.
    apply passes_gate_iff in Hgate. destruct Hgate as [Ha Hg].
    rewrite serve_updateProgress by assumption.
    unfold updateProgress_served, ShouldBindJSON_requestPosition.
    rewrite Habsent.
    cbn [requestPosition.DocumentID requestPosition.Progress
         stringOrInt.inner]. rewrite Hv. reflexivity.
Qed.

(** X15: a numeric progress is stored in one normal form.  Whatever
    literal decodes, the stored text is the decimal print of a 64-bit
    integer, it is never empty, and decoding that text again, as a number
    or as a string, gives the same progress: what a pull returns can be
    pushed back unchanged. *)
Theorem numeric_progress_normal_form (lit : string) (p : stringOrInt.t) :
  stringOrInt.UnmarshalJSON (JNumber lit) = Some p ->
  exists i,
    strconv.minInt64 <= i <= strconv.maxInt64
    /\ strconv.ParseInt lit = Some i
    /\ stringOrInt.inner p = strconv.Itoa i
    /\ stringOrInt.inner p <> ""
    /\ stringOrInt.UnmarshalJSON (JNumber (stringOrInt.inner p)) = Some p
    /\ stringOrInt.UnmarshalJSON (stringOrInt.MarshalJSON p) = Some p.
Proof.
  unfold stringOrInt.UnmarshalJSON at 1.
  cbn [json_pkg.Unmarshal_int json_pkg.Unmarshal_string].
  destruct (strconv.ParseInt lit) as [i |] eqn:E; [| discriminate].
  intros [= <-]. pose proof (ParseInt_range lit i E) as Hr.
  exists i. cbn [stringOrInt.inner]. repeat split; try tauto.
  - apply Itoa_not_empty.
  - now apply UnmarshalJSON_number.
Qed.

(** ** Any schedule *)

Section AnySchedule.

Lemma never_shrinks_refl (d : DB) : never_shrinks d d.
Proof. split; [exists []; now rewrite app_nil_r | intros; lia]. Qed.

Lemma never_shrinks_trans (d1 d2 d3 : DB) :
  never_shrinks d1 d2 -> never_shrinks d2 d3 -> never_shrinks d1 d3.
Proof.
  intros [[m1 H1] L1] [[m2 H2] L2]. split.
  - exists (m1 ++ m2)%list. now rewrite H2, H1, app_assoc.
  - intros u doc. specialize (L1 u doc). specialize (L2 u doc). lia.
Qed.

Lemma perform_never_shrinks {A : Type} (c : call A) (now : Z) (fault : bool)
      (d : DB) :
  never_shrinks d (snd (perform c now fault d)).
Proof.
  destruct c; cbn [perform]; destruct fault; cbn [snd];
    try apply never_shrinks_refl.
  - split; [now eexists |].
    intros u doc. unfold sql.select_document.
    cbn [sql.insert_user document]. lia.
  - split; [exists []; cbn; now rewrite app_nil_r |].
    intros u doc. rewrite select_after_update, length_map. lia.
  - split; [exists []; cbn; now rewrite app_nil_r |].
    intros u doc. rewrite select_after_insert, length_app. lia.
Qed.

Lemma perform_next_never_shrinks {A : Type} (c : call A) (now : Z)
      (faults : list bool) (d : DB) :
  never_shrinks d (snd (perform_next c now faults d)).
Proof.
  unfold perform_next. destruct (touches_storage c).
  - destruct (next_fault faults) as [f faults'].
    pose proof (perform_never_shrinks c now f d) as Hp.
    now destruct (perform c now f d).
  - pose proof (perform_never_shrinks c now false d) as Hp.
    now destruct (perform c now false d).
Qed.

Lemma run_never_shrinks {R : Type} (p : proc R) :
  forall now faults d, never_shrinks d (snd (run p now faults d)).
Proof.
  induction p as [r | A c k IH | |]; intros now faults d; cbn [run snd];
    try apply never_shrinks_refl.
  pose proof (perform_next_never_shrinks c now faults d) as Hp.
  destruct (perform_next c now faults d) as [[a faults'] d']. cbn [snd] in Hp.
  eapply never_shrinks_trans; [exact Hp | apply IH].
Qed.

Lemma step_never_shrinks {R : Type} (t : thread R) (d : DB) :
  never_shrinks d (snd (step t d)).
Proof.
  unfold step. destruct (code t) as [r | A c k | |]; cbn [snd];
    try apply never_shrinks_refl.
  pose proof (perform_next_never_shrinks c (clock t) (flags t) d) as Hp.
  now destruct (perform_next c (clock t) (flags t) d) as [[a faults'] d'].
Qed.

Lemma interleave_never_shrinks {R : Type} (schedule : list turn) :
  forall (t1 t2 : thread R) (d : DB),
    never_shrinks d (snd (interleave schedule t1 t2 d)).
Proof.
  induction schedule as [| [|] schedule IH]; intros t1 t2 d;
    cbn [interleave].
  - unfold finish.
    pose proof (run_never_shrinks (code t1) (clock t1) (flags t1) d) as H1.
    destruct (run (code t1) (clock t1) (flags t1) d) as [o1 d1].
    pose proof (run_never_shrinks (code t2) (clock t2) (flags t2) d1) as H2.
    destruct (run (code t2) (clock t2) (flags t2) d1) as [o2 d2].
    cbn [snd] in *. eapply never_shrinks_trans; eassumption.
  - pose proof (step_never_shrinks t1 d) as H1.
    destruct (step t1 d) as [t1' d']. cbn [snd] in H1.
    eapply never_shrinks_trans; [exact H1 | apply IH].
  - pose proof (step_never_shrinks t2 d) as H2.
    destruct (step t2 d) as [t2' d']. cbn [snd] in H2.
    eapply never_shrinks_trans; [exact H2 | apply IH].
Qed.

End AnySchedule.

(** X16: nothing is ever deleted and no credential is ever rewritten, also
    when two requests run at once: for every schedule, every two requests,
    clock readings and storage faults, the table of users afterwards is the
    table before with rows added at its end, and no (username, document)
    key has fewer position rows than before. *)
Theorem no_schedule_deletes_rows
        (schedule : list turn)
        (header1 header2 : option requestHeader.t) (r1 r2 : request)
        (now1 now2 : Z) (faults1 faults2 : list bool) (d : DB) :
  let d' :=
    snd (interleave schedule
           {| code := handle header1 r1; clock := now1; flags := faults1 |}
           {| code := handle header2 r2; clock := now2; flags := faults2 |}
           d) in
  (exists more, user d' = (user d ++ more)%list)
  /\ forall username documentid,
      (List.length (sql.select_document d username documentid)
       <= List.length (sql.select_document d' username documentid))%nat.
Proof. apply interleave_never_shrinks. Qed.

(** X17: when a username has several credential rows (the schema allows
    it, and two registrations at once produce it), the gate compares the
    key with the password of the first row only: that password opens the
    gate, the passwords of the later rows do not. *)
Theorem gate_uses_first_credential_row
        (header : requestHeader.t) (cred : dbUser.t) (rest : list dbUser.t)
        (d : DB) :
  sql.select_user d (requestHeader.AuthUser header) = cred :: rest ->
  accepts header = true ->
  requestHeader.AuthUser header <> "" ->
  (forall n, String.get n (requestHeader.AuthUser header) <> Some ":"%char) ->
  passes_gate header [] d
  <-> requestHeader.AuthKey header <> ""
      /\ requestHeader.AuthKey header = dbUser.Password cred.
Proof.
  intros Hsel Ha Hu Hcolon. rewrite passes_gate_iff.
  unfold gate, getDBUser_result. cbn [first_fault next_fault fst].
  rewrite Hsel. cbn [fst snd negb andb].
  assert (validKeyField (requestHeader.AuthUser header) = true) as ->
      by (now apply validKeyField_spec).
  cbn [andb]. rewrite andb_true_iff, length_pos_nonempty, String.eqb_eq.
  tauto.
Qed.

(** ** Requests about different keys, at once *)

Section Independence.

Variables (username documentid : string).

Lemma agree_refl (d : DB) : agree username documentid d d.
Proof. now split. Qed.

Lemma agree_sym (d d' : DB) :
  agree username documentid d d' -> agree username documentid d' d.
Proof. intros [H1 H2]. now split. Qed.

Lemma agree_trans (d1 d2 d3 : DB) :
  agree username documentid d1 d2 -> agree username documentid d2 d3 ->
  agree username documentid d1 d3.
Proof. intros [H1 H2] [H3 H4]. split; congruence. Qed.

(** A call within the footprint sees and does the same in two databases
    that agree on the footprint. *)
Lemma perform_within {A : Type} (c : call A) (now : Z) (fault : bool)
      (d dA : DB) :
  within username documentid A c -> agree username documentid d dA ->
  fst (perform c now fault d) = fst (perform c now fault dA)
  /\ agree username documentid (snd (perform c now fault d))
                               (snd (perform c now fault dA)).
Proof.
  intros Hin [Hu Hd]. destruct c; cbn [within] in Hin; cbn [perform].
  - now repeat split.
  - subst. cbn [fst snd]. rewrite Hu. now repeat split.
  - destruct Hin.
  - destruct Hin as [-> ->]. cbn [fst snd]. rewrite Hd. now repeat split.
  - destruct Hin as [-> ->]. cbn [fst snd]. rewrite Hd. now repeat split.
  - destruct Hin as [-> ->]. destruct fault; cbn [fst snd];
      [now repeat split |].
    split; trivial. split; [exact Hu |].
    now rewrite !select_after_update_same, Hd.
  - destruct Hin as [-> ->]. destruct fault; cbn [fst snd];
      [now repeat split |].
    split; trivial. split; [exact Hu |].
    now rewrite !select_after_insert, Hd.
Qed.

(** A call that spares the footprint leaves a database that agrees with
    the one before. *)
Lemma perform_spares {A : Type} (c : call A) (now : Z) (fault : bool)
      (d : DB) :
  spares username documentid A c ->
  agree username documentid d (snd (perform c now fault d)).
Proof.
  intros Hsp. destruct c; cbn [spares] in Hsp; cbn [perform];
    destruct fault; cbn [snd]; try apply agree_refl.
  - split; [| reflexivity].
    rewrite select_user_after_insert.
    apply String.eqb_neq in Hsp. now rewrite Hsp, app_nil_r.
  - split; [reflexivity |].
    symmetry. apply select_after_update_other. intros [= -> ->]. now apply Hsp.
  - split; [reflexivity |].
    rewrite select_after_insert.
    destruct (String.eqb usr username && String.eqb docid documentid) eqn:E;
      [| now rewrite app_nil_r].
    apply andb_true_iff in E. rewrite !String.eqb_eq in E. contradiction.
Qed.

Lemma perform_next_within {A : Type} (c : call A) (now : Z)
      (faults : list bool) (d dA : DB) :
  within username documentid A c -> agree username documentid d dA ->
  fst (perform_next c now faults d) = fst (perform_next c now faults dA)
  /\ agree username documentid (snd (perform_next c now faults d))
                               (snd (perform_next c now faults dA)).
Proof.
  intros Hin Hag. unfold perform_next.
  destruct (touches_storage c).
  - destruct (next_fault faults) as [f faults'].
    destruct (perform_within c now f d dA Hin Hag) as [H1 H2].
    destruct (perform c now f d), (perform c now f dA).
    cbn [fst snd] in *. now subst.
  - destruct (perform_within c now false d dA Hin Hag) as [H1 H2].
    destruct (perform c now false d), (perform c now false dA).
    cbn [fst snd] in *. now subst.
Qed.

Lemma perform_next_spares {A : Type} (c : call A) (now : Z)
      (faults : list bool) (d : DB) :
  spares username documentid A c ->
  agree username documentid d (snd (perform_next c now faults d)).
Proof.
  intros Hsp. unfold perform_next. destruct (touches_storage c).
  - destruct (next_fault faults) as [f faults'].
    pose proof (perform_spares c now f d Hsp) as Hp.
    now destruct (perform c now f d).
  - pose proof (perform_spares c now false d Hsp) as Hp.
    now destruct (perform c now false d).
Qed.

Lemma run_within {R : Type} (p : proc R) :
  confined (within username documentid) p ->
  forall now faults d dA,
    agree username documentid d dA ->
    fst (run p now faults d) = fst (run p now faults dA)
    /\ agree username documentid (snd (run p now faults d))
                                 (snd (run p now faults dA)).
Proof.
  induction 1 as [r | A c k Hc Hk IH | |]; intros now faults d dA Hag;
    cbn [run fst snd]; try now split.
  destruct (perform_next_within c now faults d dA Hc Hag) as [H1 H2].
  destruct (perform_next c now faults d) as [[a fs] d1].
  destruct (perform_next c now faults dA) as [[a' fs'] dA1].
  cbn [fst snd] in *. injection H1 as <- <-. now apply IH.
Qed.

Lemma run_spares {R : Type} (p : proc R) :
  confined (spares username documentid) p ->
  forall now faults d,
    agree username documentid d (snd (run p now faults d)).
Proof.
  induction 1 as [r | A c k Hc Hk IH | |]; intros now faults d;
    cbn [run snd]; try apply agree_refl.
  pose proof (perform_next_spares c now faults d Hc) as Hp.
  destruct (perform_next c now faults d) as [[a fs] d1]. cbn [snd] in Hp.
  eapply agree_trans; [exact Hp | apply IH].
Qed.

Lemma finish_step {R : Type} (t : thread R) (d : DB) :
  finish (fst (step t d)) (snd (step t d)) = finish t d.
Proof.
  unfold finish, step. destruct t as [p now faults]. cbn [code clock flags].
  destruct p as [r | A c k | |]; cbn [fst snd code clock flags run]; trivial.
  now destruct (perform_next c now faults d) as [[a fs] d1].
Qed.

Lemma step_within {R : Type} (t : thread R) (d dA : DB) :
  confined (within username documentid) (code t) ->
  agree username documentid d dA ->
  fst (step t d) = fst (step t dA)
  /\ agree username documentid (snd (step t d)) (snd (step t dA))
  /\ confined (within username documentid) (code (fst (step t d))).
Proof.
  intros Hc Hag. unfold step. destruct t as [p now faults].
  cbn [code clock flags] in *.
  destruct Hc as [r | A c k Hc Hk | |]; cbn [fst snd code];
    try (split; [reflexivity | split; [assumption | constructor]]).
  destruct (perform_next_within c now faults d dA Hc Hag) as [H1 H2].
  destruct (perform_next c now faults d) as [[a fs] d1].
  destruct (perform_next c now faults dA) as [[a' fs'] dA1].
  cbn [fst snd code] in *. injection H1 as <- <-.
  split; [reflexivity | split; [exact H2 | apply Hk]].
Qed.

Lemma step_spares {R : Type} (t : thread R) (d : DB) :
  confined (spares username documentid) (code t) ->
  agree username documentid d (snd (step t d))
  /\ confined (spares username documentid) (code (fst (step t d))).
Proof.
  intros Hc. unfold step. destruct t as [p now faults].
  cbn [code clock flags] in *.
  destruct Hc as [r | A c k Hc Hk | |]; cbn [fst snd code];
    try (split; [apply agree_refl | constructor]).
  pose proof (perform_next_spares c now faults d Hc) as Hp.
  destruct (perform_next c now faults d) as [[a fs] d1].
  cbn [fst snd code] in *. now split.
Qed.

End Independence.

Section Alone.

Variables (username documentid : string).

(** The thread whose calls stay within the footprint goes through any
    schedule as it would alone, when the other thread spares the
    footprint. *)
Lemma interleave_first_alone {R : Type} (schedule : list turn) :
  forall (t1 t2 : thread R) (d dA : DB),
    agree username documentid d dA ->
    confined (within username documentid) (code t1) ->
    confined (spares username documentid) (code t2) ->
    fst (fst (interleave schedule t1 t2 d)) = fst (finish t1 dA)
    /\ agree username documentid (snd (interleave schedule t1 t2 d))
                                 (snd (finish t1 dA)).
Proof.
  induction schedule as [| [|] schedule IH]; intros t1 t2 d dA Hag H1 H2;
    cbn [interleave].
  - unfold finish.
    destruct (run_within username documentid (code t1) H1
                         (clock t1) (flags t1) d dA Hag) as [Ho Hd].
    destruct (run (code t1) (clock t1) (flags t1) d) as [o1 d1].
    pose proof (run_spares username documentid (code t2) H2
                           (clock t2) (flags t2) d1) as Hsp.
    destruct (run (code t2) (clock t2) (flags t2) d1) as [o2 d2].
    cbn [fst snd] in *. split; trivial.
    eapply agree_trans; [apply agree_sym, Hsp | exact Hd].
  - destruct (step_within username documentid t1 d dA H1 Hag)
      as (Ht & Hd & Hc).
    rewrite <- (finish_step t1 dA), <- Ht.
    destruct (step t1 d) as [t1' d']. cbn [fst snd] in *. now apply IH.
  - destruct (step_spares username documentid t2 d H2) as [Hd Hc].
    destruct (step t2 d) as [t2' d']. cbn [fst snd] in *.
    apply IH; trivial.
    eapply agree_trans; [apply agree_sym, Hd | exact Hag].
Qed.

Lemma interleave_second_alone {R : Type} (schedule : list turn) :
  forall (t1 t2 : thread R) (d dA : DB),
    agree username documentid d dA ->
    confined (spares username documentid) (code t1) ->
    confined (within username documentid) (code t2) ->
    snd (fst (interleave schedule t1 t2 d)) = fst (finish t2 dA)
    /\ agree username documentid (snd (interleave schedule t1 t2 d))
                                 (snd (finish t2 dA)).
Proof.
  induction schedule as [| [|] schedule IH]; intros t1 t2 d dA Hag H1 H2;
    cbn [interleave].
  - unfold finish.
    pose proof (run_spares username documentid (code t1) H1
                           (clock t1) (flags t1) d) as Hsp.
    destruct (run (code t1) (clock t1) (flags t1) d) as [o1 d1].
    cbn [snd] in Hsp.
    assert (agree username documentid d1 dA) as Hag1
        by (eapply agree_trans; [apply agree_sym, Hsp | exact Hag]).
    destruct (run_within username documentid (code t2) H2
                         (clock t2) (flags t2) d1 dA Hag1) as [Ho Hd].
    destruct (run (code t2) (clock t2) (flags t2) d1) as [o2 d2].
    cbn [fst snd] in *. now split.
  - destruct (step_spares username documentid t1 d H1) as [Hd Hc].
    destruct (step t1 d) as [t1' d']. cbn [fst snd] in *.
    apply IH; trivial.
    eapply agree_trans; [apply agree_sym, Hd | exact Hag].
  - destruct (step_within username documentid t2 d dA H2 Hag)
      as (Ht & Hd & Hc).
    rewrite <- (finish_step t2 dA), <- Ht.
    destruct (step t2 d) as [t2' d']. cbn [fst snd] in *. now apply IH.
Qed.

End Alone.

Section Footprints.

Lemma confined_bind {A B : Type} (P : forall T : Type, call T -> Prop)
      (p : proc A) (f : A -> proc B) :
  confined P p -> (forall a, confined P (f a)) -> confined P (bind p f).
Proof.
  intros Hp Hf. induction Hp as [r | T c k Hc Hk IH | |]; cbn [bind];
    try constructor; auto.
Qed.

Lemma confined_weaken {R : Type} (P Q : forall T : Type, call T -> Prop)
      (p : proc R) :
  (forall T (c : call T), P T c -> Q T c) -> confined P p -> confined Q p.
Proof.
  intros HPQ Hp. induction Hp as [r | T c k Hc Hk IH | |];
    constructor; auto.
Qed.

Lemma within_spares (u1 doc1 u2 doc2 : string) (T : Type) (c : call T) :
  ~ (u2 = u1 /\ doc2 = doc1) ->
  within u2 doc2 T c -> spares u1 doc1 T c.
Proof.
  intros Hne Hin. destruct c; cbn [within spares] in *; trivial.
  - destruct Hin.
  - destruct Hin as [-> ->]. exact Hne.
  - destruct Hin as [-> ->]. exact Hne.
Qed.

Lemma AuthRequired_within (header : requestHeader.t) (documentid : string)
      (next : proc gin_result) :
  confined (within (requestHeader.AuthUser header) documentid) next ->
  confined (within (requestHeader.AuthUser header) documentid)
           (AuthRequired header next).
Proof.
  intros Hnext. unfold AuthRequired.
  destruct (validKeyField _ && (0 <? _)); [| constructor].
  apply confined_bind.
  - unfold getDBUser, do_call. cbn [bind]. constructor; [reflexivity |].
    intros [row | |]; constructor.
  - intros [dUser norows]. destruct (negb norows && _); trivial. constructor.
Qed.

Lemma getProgress_within (header : requestHeader.t) (documentid : string) :
  confined (within (requestHeader.AuthUser header) documentid)
           (getProgress header documentid).
Proof.
  unfold getProgress, ShouldBindUri_requestDocid.
  destruct (String.eqb documentid ""); [constructor |].
  apply confined_bind.
  - unfold getDBPosition, do_call. cbn [bind]. constructor; [now split |].
    intros [row | |]; constructor.
  - intros [position [err |]]; constructor.
Qed.

Lemma updateProgress_within (header : requestHeader.t) (b : positionBody.t) :
  confined (within (requestHeader.AuthUser header) (positionBody.document b))
           (updateProgress header (Some b)).
Proof.
  unfold updateProgress.
  destruct (ShouldBindJSON_requestPosition (Some b)) as [rPos |] eqn:Hb;
    [| constructor].
  destruct (bound_fields b rPos Hb) as (_ & Hdoc & _).
  destruct (negb _); [constructor |].
  destruct (_ || _); [constructor |].
  apply confined_bind; [| intros; constructor].
  unfold updateDBdocument, existDoc, do_call. cbn [bind]. rewrite Hdoc.
  constructor; [exact I |]. intros nowtime.
  constructor; [now split |].
  intros [row | |]; cbn [bind];
    (constructor; [now split | intros [|]; constructor]).
Qed.

(** A pull of, or a push for, the document [documentid]. *)
Lemma handle_within (header : requestHeader.t) (documentid : string)
      (r : request) :
  r = GET_syncs_progress documentid
  \/ (exists b, r = PUT_syncs_progress (Some b)
                 /\ positionBody.document b = documentid) ->
  confined (within (requestHeader.AuthUser header) documentid)
           (handle (Some header) r).
Proof.
  intros Hr. unfold handle, AcceptHeaderCheck.
  destruct (String.eqb _ _); [| constructor].
  destruct Hr as [-> | (b & -> & <-)]; cbn [route];
    apply AuthRequired_within.
  - apply getProgress_within.
  - apply updateProgress_within.
Qed.

End Footprints.

(** X18: two requests behind the gate about different keys do not
    interfere, whatever the schedule, in the runs in which the process
    does not exit.  Let each be a pull of, or a push for, a document, the
    two (username, document) keys being different, and let neither request
    served alone end in [log.Fatalln]: each request gets the outcome it
    would get served alone on the database before (so neither exits), and
    the rows of its key end up as they would then. *)
Theorem requests_about_different_keys_are_independent
        (schedule : list turn) (header1 header2 : requestHeader.t)
        (doc1 doc2 : string) (r1 r2 : request) (now1 now2 : Z)
        (faults1 faults2 : list bool) (d : DB) :
  let both :=
    interleave schedule
      {| code := handle (Some header1) r1; clock := now1; flags := faults1 |}
      {| code := handle (Some header2) r2; clock := now2; flags := faults2 |}
      d in
  let alone1 := run (handle (Some header1) r1) now1 faults1 d in
  let alone2 := run (handle (Some header2) r2) now2 faults2 d in
  (r1 = GET_syncs_progress doc1
   \/ exists b, r1 = PUT_syncs_progress (Some b)
                 /\ positionBody.document b = doc1) ->
  (r2 = GET_syncs_progress doc2
   \/ exists b, r2 = PUT_syncs_progress (Some b)
                 /\ positionBody.document b = doc2) ->
  ~ (requestHeader.AuthUser header1 = requestHeader.AuthUser header2
     /\ doc1 = doc2) ->
  fst alone1 <> Exited ->
  fst alone2 <> Exited ->
  fst (fst both) = fst alone1
  /\ snd (fst both) = fst alone2
  /\ fst (fst both) <> Exited
  /\ snd (fst both) <> Exited
  /\ sql.select_document (snd both) (requestHeader.AuthUser header1) doc1
     = sql.select_document (snd alone1) (requestHeader.AuthUser header1) doc1
  /\ sql.select_document (snd both) (requestHeader.AuthUser header2) doc2
     = sql.select_document (snd alone2) (requestHeader.AuthUser header2) doc2.
Proof.
  intros both alone1 alone2 Hr1 Hr2 Hne Hlive1 Hlive2.
  pose proof (handle_within header1 doc1 r1 Hr1) as Hw1.
  pose proof (handle_within header2 doc2 r2 Hr2) as Hw2.
  assert (confined (spares (requestHeader.AuthUser header1) doc1)
                   (handle (Some header2) r2)) as Hs2.
  { eapply confined_weaken; [| exact Hw2]. intros T c.
    apply within_spares. intros [Hu Hd]. apply Hne. now split. }
  assert (confined (spares (requestHeader.AuthUser header2) doc2)
                   (handle (Some header1) r1)) as Hs1.
  { eapply confined_weaken; [| exact Hw1]. intros T c.
    now apply within_spares. }
  destruct (interleave_first_alone
              (requestHeader.AuthUser header1) doc1 schedule
              {| code := handle (Some header1) r1; clock := now1;
                 flags := faults1 |}
              {| code := handle (Some header2) r2; clock := now2;
                 flags := faults2 |}
              d d (agree_refl _ _ d) Hw1 Hs2) as [Ho1 [_ Hd1]].
  destruct (interleave_second_alone
              (requestHeader.AuthUser header2) doc2 schedule
              {| code := handle (Some header1) r1; clock := now1;
                 flags := faults1 |}
              {| code := handle (Some header2) r2; clock := now2;
                 flags := faults2 |}
              d d (agree_refl _ _ d) Hs1 Hw2) as [Ho2 [_ Hd2]].
  fold both in Ho1, Ho2, Hd1, Hd2.
  change (finish {| code := handle (Some header1) r1; clock := now1;
                    flags := faults1 |} d) with alone1 in Ho1, Hd1.
  change (finish {| code := handle (Some header2) r2; clock := now2;
                    flags := faults2 |} d) with alone2 in Ho2, Hd2.
  repeat split; trivial; congruence.
Qed.

(** X19: a registration is answered 201 exactly when username and
    password are not empty and no credential row has that username
    (compared byte for byte; nothing else about the two strings is
    checked); the database is then the one before with the row
    (username, password) added at the end of the table of users. *)
Theorem registration_succeeds_iff
        (header : requestHeader.t) (username password : string) (now : Z)
        (d : DB) :
  let result :=
    serve (Some header)
          (POST_users_create
             (Some {| requestUser.Username := username;
                      requestUser.Password := password |}))
          now [] d in
  accepts header = true ->
  (fst result = Responded 201 (H_username username)
   <-> username <> "" /\ password <> ""
       /\ forall row, In row (user d) -> dbUser.Username row <> username)
  /\ (fst result = Responded 201 (H_username username) ->
      snd result
      = {| user := (user d ++ [ {| dbUser.Username := username;
                                   dbUser.Password := password |} ])%list;
           document := document d |}).
Proof.
  intros result Ha. subst result. rewrite serve_register by assumption.
  unfold register_served, getDBUser_result.
  cbn [requestUser.Username requestUser.Password first_fault rest_faults
       next_fault fst snd].
  destruct (String.eqb username "") eqn:Hu.
  { apply String.eqb_eq in Hu. cbn [orb fst]. repeat split; try discriminate.
    now intros (Hne & _). }
  destruct (String.eqb password "") eqn:Hp.
  { apply String.eqb_eq in Hp. cbn [orb fst]. repeat split; try discriminate.
    now intros (_ & Hne & _). }
  apply String.eqb_neq in Hu, Hp. cbn [orb].
  destruct (sql.select_user d username) as [| row rest] eqn:Hsel;
    cbn [fst snd].
  - repeat split; trivial. intros row Hin Hrow.
    assert (In row (sql.select_user d username)) as Hs
        by (apply filter_In; split; trivial; now apply String.eqb_eq).
    rewrite Hsel in Hs. destruct Hs.
  - repeat split; try discriminate. intros (_ & _ & Habs).
    rewrite (select_user_absent d username Habs) in Hsel. discriminate Hsel.
Qed.

(** X20: the answer to a push depends on the headers, the document id, the
    progress and the device alone: percentage, device_id and the client
    timestamp are never validated, and two bodies that differ in these
    fields only get the same response. *)
Theorem push_response_ignores_unvalidated_fields
        (hdr : option requestHeader.t) (b b' : positionBody.t) (now : Z)
        (faults : list bool) (d : DB) :
  positionBody.document b' = positionBody.document b ->
  positionBody.progress b' = positionBody.progress b ->
  positionBody.device b' = positionBody.device b ->
  fst (serve hdr (PUT_syncs_progress (Some b')) now faults d)
  = fst (serve hdr (PUT_syncs_progress (Some b)) now faults d).
Proof.
  intros Hdoc Hprog Hdev.
  destruct hdr as [header |]; [| reflexivity].
  destruct (accepts header) eqn:Ha;
    [| now rewrite !serve_not_accepted by assumption].
  destruct (gate header faults d) eqn:Hg;
    [| now rewrite !serve_unauthorized by easy].
  rewrite !serve_updateProgress by assumption.
  unfold updateProgress_served, ShouldBindJSON_requestPosition.
  rewrite Hdoc, Hprog, Hdev.
  destruct (match positionBody.progress b with
            | Some v => stringOrInt.UnmarshalJSON v
            | None => Some {| stringOrInt.inner := "" |}
            end) as [p |]; trivial.
  cbn [requestPosition.DocumentID requestPosition.Progress
       requestPosition.Device].
  destruct (negb _); trivial. destruct (_ || _); trivial.
  now destruct (first_fault _).
Qed.

(** X21: when the credential query fails, the gate refuses every request,
    valid credentials included, with Unauthorized and not with a server
    error: [getDBUser] then returns the zero user without "no rows", and
    the empty password of the zero user matches no key because an empty
    key never reaches the comparison. *)
Theorem gate_refuses_when_storage_fails
        (header : requestHeader.t) (r : request) (now : Z)
        (rest : list bool) (d : DB) :
  accepts header = true -> protected r = true ->
  serve (Some header) r now (true :: rest) d
  = (Responded 401 (H_error 2001 "Unauthorized"), d).
Proof.
  intros Ha Hp. apply serve_unauthorized; trivial.
  now apply gate_storage_failure.
Qed.

(** ** The further properties at work on sample requests *)

Lemma only_success_writes_witness :
  let d := reached alice_pushed in
  snd (serve (Some (headers "alice" "wrong"))
             (PUT_syncs_progress
                (Some (push_body "bookA" (JString "99") "phone" 90)))
             400 [] d)
  = d.
Proof.
  cbv zeta. apply only_success_writes.
  - intros username. discriminate.
  - intros reply. discriminate.
Defined.

Lemma stored_rows_witness :
  let row := {| dbDocument.Username := "alice";
                dbDocument.DocumentID := "bookA";
                dbDocument.Percentage := 25;
                dbDocument.Progress := "10";
                dbDocument.Device := "phone";
                dbDocument.DeviceID := "phone";
                dbDocument.Timestamp := 100 |} in
  In row (document (reached alice_pushed))
  /\ exists a,
      In a alice_pushed
      /\ pushes_key "alice" "bookA" a
      /\ 100 = a_now a.
Proof.
  cbv zeta.
  assert (In {| dbDocument.Username := "alice";
                dbDocument.DocumentID := "bookA";
                dbDocument.Percentage := 25;
                dbDocument.Progress := "10";
                dbDocument.Device := "phone";
                dbDocument.DeviceID := "phone";
                dbDocument.Timestamp := 100 |}
             (document (reached alice_pushed))) as Hin
      by (left; reflexivity).
  split; [exact Hin |].
  exact (stored_rows_stem_from_pushes alice_pushed _ Hin).
Defined.

Lemma accepted_keys_witness :
  let later :=
    [ arrives (headers "" "") (register_request "bob" "hunter2") 50;
      arrives (headers "" "") (register_request "alice" "other") 60 ] in
  passes_gate (headers "alice" "s3cret") []
              (snd (serve_all later (reached alice_registered)))
  /\ ~ passes_gate (headers "alice" "other") []
                   (snd (serve_all later (reached alice_registered))).
Proof.
  cbv zeta.
  assert (sql.select_user (reached alice_registered) "alice" <> []) as Hrow
      by discriminate.
  split.
  - apply (proj2 (accepted_keys_never_change
                    (headers "alice" "s3cret") []
                    [ arrives (headers "" "") (register_request "bob" "hunter2") 50;
                      arrives (headers "" "") (register_request "alice" "other") 60 ]
                    (reached alice_registered) Hrow)).
    reflexivity.
  - intros Hpass.
    apply (proj2 (accepted_keys_never_change
                    (headers "alice" "other") []
                    [ arrives (headers "" "") (register_request "bob" "hunter2") 50;
                      arrives (headers "" "") (register_request "alice" "other") 60 ]
                    (reached alice_registered) Hrow)) in Hpass.
    discriminate Hpass.
Defined.

Lemma pull_newest_witness :
  let older := {| dbDocument.Username := "alice";
                  dbDocument.DocumentID := "bookA";
                  dbDocument.Percentage := 25;
                  dbDocument.Progress := "10";
                  dbDocument.Device := "phone";
                  dbDocument.DeviceID := "phone";
                  dbDocument.Timestamp := 100 |} in
  let newer := {| dbDocument.Username := "alice";
                  dbDocument.DocumentID := "bookA";
                  dbDocument.Percentage := 50;
                  dbDocument.Progress := "20";
                  dbDocument.Device := "tablet";
                  dbDocument.DeviceID := "tablet";
                  dbDocument.Timestamp := 101 |} in
  let d := {| user := user (reached alice_registered);
              document := [older; newer] |} in
  exists row,
    In row [older; newer]
    /\ (forall other, In other [older; newer] ->
                      dbDocument.Timestamp other <= dbDocument.Timestamp row)
    /\ serve (Some (headers "alice" "s3cret")) (GET_syncs_progress "bookA")
             300 [] d
       = (Responded 200
            (H_position
               {| positionJSON.timestamp := dbDocument.Timestamp row;
                  positionJSON.document := "bookA";
                  positionJSON.progress := JString (dbDocument.Progress row);
                  positionJSON.device := dbDocument.Device row;
                  positionJSON.percentage := dbDocument.Percentage row;
                  positionJSON.device_id := dbDocument.DeviceID row |}), d).
Proof.
  cbv zeta.
  set (older := {| dbDocument.Username := "alice";
                   dbDocument.DocumentID := "bookA";
                   dbDocument.Percentage := 25;
                   dbDocument.Progress := "10";
                   dbDocument.Device := "phone";
                   dbDocument.DeviceID := "phone";
                   dbDocument.Timestamp := 100 |}).
  set (newer := {| dbDocument.Username := "alice";
                   dbDocument.DocumentID := "bookA";
                   dbDocument.Percentage := 50;
                   dbDocument.Progress := "20";
                   dbDocument.Device := "tablet";
                   dbDocument.DeviceID := "tablet";
                   dbDocument.Timestamp := 101 |}).
  assert ("bookA" <> "") as Hdoc by discriminate.
  assert (sql.select_document
            {| user := user (reached alice_registered);
               document := [older; newer] |}
            (requestHeader.AuthUser (headers "alice" "s3cret")) "bookA"
          <> []) as Hrows by discriminate.
  exact (proj2 (pull_returns_newest_row
                  (headers "alice" "s3cret") "bookA" 300
                  {| user := user (reached alice_registered);
                     document := [older; newer] |} eq_refl Hdoc) Hrows).
Defined.

Lemma push_rewrites_witness :
  let alice := Some (headers "alice" "s3cret") in
  let b := push_body "bookA" (JString "20") "tablet" 50 in
  let d := reached alice_pushed in
  let d' := snd (serve alice (PUT_syncs_progress (Some b)) 200 [] d) in
  sql.select_document d' "alice" "bookA"
  = [ {| dbDocument.Username := "alice";
         dbDocument.DocumentID := "bookA";
         dbDocument.Percentage := 50;
         dbDocument.Progress := "20";
         dbDocument.Device := "tablet";
         dbDocument.DeviceID := "tablet";
         dbDocument.Timestamp := 200 |} ]
  /\ user d' = user d.
Proof.
  cbv zeta.
  destruct (push_rewrites_the_rows_of_its_key
              (Some (headers "alice" "s3cret"))
              (push_body "bookA" (JString "20") "tablet" 50) 200
              (reached alice_pushed)
              (snd (serve (Some (headers "alice" "s3cret"))
                          (PUT_syncs_progress
                             (Some (push_body "bookA" (JString "20")
                                              "tablet" 50)))
                          200 [] (reached alice_pushed)))
              {| replyPosition.Timestamp := 200;
                 replyPosition.DocumentID := "bookA" |}
              eq_refl)
    as (header & rPos & Hh & Hb & Hrows & _ & Huser).
  injection Hh as <-. injection Hb as <-.
  split; [exact Hrows | exact Huser].
Defined.

Lemma pull_unaffected_witness :
  let later :=
    [ arrives (headers "" "") (register_request "bob" "hunter2") 150;
      arrives (headers "bob" "hunter2")
              (PUT_syncs_progress
                 (Some (push_body "bookA" (JString "77") "kindle" 80)))
              160;
      arrives (headers "alice" "s3cret")
              (PUT_syncs_progress
                 (Some (push_body "bookB" (JString "5") "phone" 2)))
              170 ] in
  fst (serve (Some (headers "alice" "s3cret")) (GET_syncs_progress "bookA")
             300 [] (snd (serve_all later (reached alice_pushed))))
  = fst (serve (Some (headers "alice" "s3cret")) (GET_syncs_progress "bookA")
               110 [] (reached alice_pushed)).
Proof.
  cbv zeta. apply pull_unaffected_by_other_requests.
  - reflexivity.
  - discriminate.
  - intros a [<- | [<- | [<- | []]]]; cbn.
    + intros [].
    + intros [Hu _]. discriminate Hu.
    + intros [_ Hdoc]. discriminate Hdoc.
Defined.

Lemma registered_credentials_witness :
  let d1 := snd (serve (Some (headers "" "")) (register_request "alice" "s3cret")
                       1 [] initDB) in
  serve (Some (headers "alice" "s3cret")) GET_users_auth 2 [] d1
  = (Responded 200 H_authorized_OK, d1)
  /\ serve (Some (headers "alice" "S3cret")) (GET_syncs_progress "bookA")
           2 [] d1
     = (Responded 401 (H_error 2001 "Unauthorized"), d1).
Proof.
  cbv zeta.
  destruct (registered_credentials_open_the_gate
              (Some (headers "" "")) "alice" "s3cret" 1 initDB _ eq_refl [] 2)
    as [Hopen Hshut].
  split.
  - apply Hopen. intros n.
    do 5 (destruct n as [| n]; [discriminate |]). discriminate.
  - apply Hshut; [discriminate | reflexivity].
Defined.

Lemma failed_existence_query_witness :
  let alice := headers "alice" "s3cret" in
  let d := reached alice_registered in
  serve (Some alice)
        (PUT_syncs_progress (Some (push_body "bookA" (JString "10") "phone" 25)))
        100 [false; true; false] d
  = (Responded 200 (H_reply {| replyPosition.Timestamp := 100;
                               replyPosition.DocumentID := "bookA" |}), d).
Proof.
  cbv zeta.
  apply (proj1 (push_with_failed_existence_query
                  (headers "alice" "s3cret")
                  (push_body "bookA" (JString "10") "phone" 25)
                  {| requestPosition.Timestamp := 0;
                     requestPosition.DocumentID := "bookA";
                     requestPosition.Progress := {| stringOrInt.inner := "10" |};
                     requestPosition.Device := "phone";
                     requestPosition.Percentage := 25;
                     requestPosition.DeviceID := "phone" |}
                  100 [] (reached alice_registered)
                  eq_refl eq_refl eq_refl
                  ltac:(discriminate) ltac:(discriminate))).
  reflexivity.
Defined.

Lemma register_storage_failure_witness :
  serve (Some (headers "" "")) (register_request "carol" "pw") 1 [true] initDB
  = (Responded 403 (H_error 2002 "Username is already registered."), initDB)
  /\ serve (Some (headers "" "")) (register_request "carol" "pw") 1
           [false; true] initDB
     = (Responded 500 H_none, initDB).
Proof.
  destruct (register_when_storage_fails
              (headers "" "") "carol" "pw" 1 [] initDB eq_refl
              ltac:(discriminate) ltac:(discriminate)) as [Hlookup Hinsert].
  split; [exact Hlookup | apply Hinsert; reflexivity].
Defined.

Lemma error_responses_witness :
  In (mkError 403 2004 "Field 'document' not provided.") declared_errors
  /\ exists body,
      PUT_syncs_progress (Some (push_body "" (JString "1") "phone" 0))
      = PUT_syncs_progress body.
Proof.
  destruct (error_responses_are_declared
              (Some (headers "alice" "s3cret"))
              (PUT_syncs_progress (Some (push_body "" (JString "1") "phone" 0)))
              5 [] (reached alice_registered)
              403 2004 "Field 'document' not provided." eq_refl)
    as (Hin & _ & _ & Hroute & _).
  split; [exact Hin | apply Hroute; reflexivity].
Defined.

Lemma undecodable_progress_witness :
  let d := reached alice_registered in
  serve (Some (headers "alice" "s3cret"))
        (PUT_syncs_progress (Some (push_body "" (JNumber "42.0") "phone" 25)))
        100 [] d
  = (Responded 403 (H_error 2003 "Invalid Request"), d).
Proof.
  cbv zeta.
  apply (proj2 (undecodable_progress_rejected
                  (headers "alice" "s3cret")
                  (push_body "" (JNumber "42.0") "phone" 25)
                  (JNumber "42.0") 100 [] (reached alice_registered)
                  eq_refl eq_refl
                  (or_intror (or_intror (or_intror (or_introl
                     (ex_intro _ "42.0"
                        (ex_intro _ 2%nat
                           (ex_intro _ "."%char
                              (conj eq_refl
                                 (conj eq_refl (or_introl eq_refl)))))))))))).
Defined.

Lemma null_progress_witness :
  let alice := headers "alice" "s3cret" in
  let b := {| positionBody.timestamp := 0;
              positionBody.document := "bookA";
              positionBody.progress := Some JNull;
              positionBody.device := "phone";
              positionBody.percentage := 25;
              positionBody.device_id := "phone" |} in
  exists d',
    serve (Some alice) (PUT_syncs_progress (Some b)) 100 []
          (reached alice_registered)
    = (Responded 200 (H_reply {| replyPosition.Timestamp := 100;
                                 replyPosition.DocumentID := "bookA" |}), d')
    /\ serve (Some alice) (GET_syncs_progress "bookA") 300 [] d'
       = (Responded 200
            (H_position
               {| positionJSON.timestamp := 100;
                  positionJSON.document := "bookA";
                  positionJSON.progress := JString "0";
                  positionJSON.device := "phone";
                  positionJSON.percentage := 25;
                  positionJSON.device_id := "phone" |}), d').
Proof.
  cbv zeta.
  apply (proj1 (null_progress_is_stored_as_zero
                  (headers "alice" "s3cret")
                  {| positionBody.timestamp := 0;
                     positionBody.document := "bookA";
                     positionBody.progress := Some JNull;
                     positionBody.device := "phone";
                     positionBody.percentage := 25;
                     positionBody.device_id := "phone" |}
                  100 300 (reached alice_registered)
                  eq_refl eq_refl ltac:(discriminate))).
  reflexivity.
Defined.

Lemma numeric_normal_form_witness :
  exists i,
    strconv.minInt64 <= i <= strconv.maxInt64
    /\ strconv.ParseInt "-0" = Some i
    /\ "0" = strconv.Itoa i
    /\ "0" <> ""
    /\ stringOrInt.UnmarshalJSON (JNumber "0")
       = Some {| stringOrInt.inner := "0" |}
    /\ stringOrInt.UnmarshalJSON
         (stringOrInt.MarshalJSON {| stringOrInt.inner := "0" |})
       = Some {| stringOrInt.inner := "0" |}.
Proof.
  exact (numeric_progress_normal_form "-0" {| stringOrInt.inner := "0" |}
                                      eq_refl).
Defined.

Lemma first_credential_row_witness :
  let d := {| user := [ {| dbUser.Username := "alice";
                           dbUser.Password := "s3cret" |};
                        {| dbUser.Username := "alice";
                           dbUser.Password := "other" |} ];
              document := [] |} in
  passes_gate (headers "alice" "s3cret") [] d
  /\ ~ passes_gate (headers "alice" "other") [] d.
Proof.
  cbv zeta.
  set (first := {| dbUser.Username := "alice"; dbUser.Password := "s3cret" |}).
  set (second := {| dbUser.Username := "alice"; dbUser.Password := "other" |}).
  set (d := {| user := [first; second]; document := [] |}).
  assert (forall n, String.get n "alice" <> Some ":"%char) as Hcolon
      by (intros n; do 5 (destruct n as [| n]; [discriminate |]);
          discriminate).
  assert ("alice" <> "") as Hname by discriminate.
  split.
  - apply (proj2 (gate_uses_first_credential_row
                    (headers "alice" "s3cret") first [second] d
                    eq_refl eq_refl Hname Hcolon)).
    split; [discriminate | reflexivity].
  - intros Hpass.
    apply (proj1 (gate_uses_first_credential_row
                    (headers "alice" "other") first [second] d
                    eq_refl eq_refl Hname Hcolon)) in Hpass.
    destruct Hpass as [_ Hpw]. discriminate Hpw.
Defined.


Lemma independent_requests_witness :
  let alice := headers "alice" "s3cret" in
  let pushA :=
    PUT_syncs_progress (Some (push_body "bookA" (JString "20") "tablet" 50)) in
  let both :=
    interleave [First; Second; First; Second; Second; First]
      {| code := handle (Some alice) pushA; clock := 200; flags := [] |}
      {| code := handle (Some alice) (GET_syncs_progress "bookB");
         clock := 201; flags := [] |}
      (reached alice_pushed) in
  fst (fst both)
  = Returned (c_JSON 200 (H_reply {| replyPosition.Timestamp := 200;
                                     replyPosition.DocumentID := "bookA" |}))
  /\ snd (fst both) = Returned (c_JSON 200 H_empty).
Proof.
  cbv zeta.
  destruct (requests_about_different_keys_are_independent
              [First; Second; First; Second; Second; First]
              (headers "alice" "s3cret") (headers "alice" "s3cret")
              "bookA" "bookB"
              (PUT_syncs_progress
                 (Some (push_body "bookA" (JString "20") "tablet" 50)))
              (GET_syncs_progress "bookB") 200 201 [] []
              (reached alice_pushed))
    as (H1 & H2 & _).
  - right. eexists. split; reflexivity.
  - left. reflexivity.
  - intros [_ Hdoc]. discriminate Hdoc.
  - vm_compute. discriminate.
  - vm_compute. discriminate.
  - split; [exact H1 | exact H2].
Defined.

Lemma registration_succeeds_witness :
  fst (serve (Some (headers "" "")) (register_request "Alice" "pw") 9 []
             (reached alice_registered))
  = Responded 201 (H_username "Alice").
Proof.
  apply (proj1 (registration_succeeds_iff
                  (headers "" "") "Alice" "pw" 9 (reached alice_registered)
                  eq_refl)).
  split; [discriminate |]. split; [discriminate |].
  intros row [<- | []]. discriminate.
Defined.

Lemma unvalidated_fields_witness :
  let b := push_body "bookA" (JString "10") "phone" 25 in
  let b' := {| positionBody.timestamp := -7;
               positionBody.document := "bookA";
               positionBody.progress := Some (JString "10");
               positionBody.device := "phone";
               positionBody.percentage := 123456;
               positionBody.device_id := "" |} in
  fst (serve (Some (headers "alice" "s3cret")) (PUT_syncs_progress (Some b'))
             100 [] (reached alice_registered))
  = fst (serve (Some (headers "alice" "s3cret")) (PUT_syncs_progress (Some b))
               100 [] (reached alice_registered)).
Proof.
  cbv zeta. apply push_response_ignores_unvalidated_fields; reflexivity.
Defined.

Lemma gate_storage_failure_witness :
  let d := reached alice_registered in
  serve (Some (headers "alice" "s3cret")) GET_users_auth 5 [true] d
  = (Responded 401 (H_error 2001 "Unauthorized"), d).
Proof.
  cbv zeta. apply gate_refuses_when_storage_fails; reflexivity.
Defined.
